(** * LidarICP: a shallow embedding of the LiDAR odometry front-end

    The development follows [src/LidarICP.cpp].  Doubles are IEEE binary64
    numbers (Rocq's primitive floats), [std::map] is an association list
    kept in key order, the MRPT pose algebra and the external services
    (ICP kernel, SLAM back-end, world model, Dijkstra pass) are interfaces:
    the former a class, the latter a record of answers handed to each task.
    Worker tasks run in a small state-and-exception monad that also records
    the calls a task makes to the outside.  Of the log lines the model keeps
    those that mark a decision (first cloud, failed conversion, new
    keyframe, discarded pair, exception, dropped observation); the profiler
    and the informational debug output are left out.  Observations are
    non-null, as the [ASSERT_(o)] at the head of each entry point demands. *)

From Stdlib Require Import ZArith NArith List String Bool Lia Floats.
Import ListNotations.

Set Implicit Arguments.
Set Warnings "-inexact-float".

(** ** [std::map] as an ordered association list *)

Module StdMap.
Section Ordered.
Context {K V : Type}.
Variable lt : K -> K -> bool.

(** Two keys are equivalent when neither is less than the other. *)
Definition equiv (a b : K) : bool := negb (lt a b) && negb (lt b a).

Fixpoint find (k : K) (m : list (K * V)) : option V :=
  match m with
  | [] => None
  | (k1, v1) :: r => if equiv k k1 then Some v1 else find k r
  end.

Definition count (k : K) (m : list (K * V)) : nat :=
  match find k m with Some _ => 1 | None => 0 end.

(** [m[k] = v]: the stored key is kept when an equivalent one exists. *)
Fixpoint assign (k : K) (v : V) (m : list (K * V)) : list (K * V) :=
  match m with
  | [] => [(k, v)]
  | (k1, v1) :: r =>
      if lt k k1 then (k, v) :: m
      else if lt k1 k then (k1, v1) :: assign k v r
      else (k1, v) :: r
  end.

(** [m[k]] as an rvalue: a missing key is first inserted with the
    default value [d]. *)
Definition subscript (d : V) (k : K) (m : list (K * V)) : V * list (K * V) :=
  match find k m with
  | Some v => (v, m)
  | None => (d, assign k d m)
  end.

Definition erase (k : K) (m : list (K * V)) : list (K * V) :=
  filter (fun kv => negb (equiv k (fst kv))) m.

Definition size (m : list (K * V)) : N := N.of_nat (List.length m).

Definition keys (m : list (K * V)) : list K := map fst m.
End Ordered.
End StdMap.

(** ** Plain data of MRPT and MOLA *)

(** [mrpt::graphs::TNodeID] and [mola::id_t] are 64-bit unsigned. *)
Definition TNodeID := N.
Bind Scope N_scope with TNodeID.

(** Modelled from the spec: the MOLA header with the sentinels is not among
    the sources.  [INVALID_ID] stands for "no previous keyframe"; it is
    taken to be the largest 64-bit value. *)
Definition INVALID_ID : TNodeID := 18446744073709551615%N.

(** Modelled from the spec: [INVALID_FID], from the same header, stands for
    "no factor"; it is taken to be the largest 64-bit value. *)
Definition INVALID_FID : N := 18446744073709551615%N.

(** [static_cast<int64_t>] of an id. *)
Definition to_int64 (n : TNodeID) : Z :=
  let z := (Z.of_N n mod 2 ^ 64)%Z in
  if (z <? 2 ^ 63)%Z then z else (z - 2 ^ 64)%Z.

(** [mrpt::Clock::time_point]: a tick count; the default-constructed value
    is tick 0. Ticks last 100 ns. *)
Definition time_point := Z.
Bind Scope Z_scope with time_point.
Definition time_point_default : time_point := 0%Z.

Definition Z2double (z : Z) : float :=
  if (0 <=? z)%Z then of_uint63 (Uint63.of_Z z)
  else (- of_uint63 (Uint63.of_Z (- z)))%float.

(** [mrpt::system::timeDifference(t_first, t_later)]: the time from the
    first to the second, in seconds, read off the microseconds between
    them. *)
Definition timeDifference (t_first t_later : time_point) : float :=
  (1e-6 * Z2double (Z.quot (t_later - t_first) 10))%float.

Record TPose3D := mkTPose3D {
  tp_x : float; tp_y : float; tp_z : float;
  tp_yaw : float; tp_pitch : float; tp_roll : float }.

Record TTwist3D := mkTTwist3D {
  vx : float; vy : float; vz : float;
  wx : float; wy : float; wz : float }.

Definition TTwist3D_default : TTwist3D :=
  mkTTwist3D 0%float 0%float 0%float 0%float 0%float 0%float.

(** [mrpt::slam::CICP::TConfigParams], the fields the front-end touches. *)
Record TConfigParams := mkTConfigParams {
  maxIterations : N;
  skip_cov_calculation : bool;
  thresholdDist : float;
  thresholdAng : float;
  ALFA : float;
  corresponding_points_decimation : N }.

Record Parameters := mkParameters {
  min_dist_xyz_between_keyframes : float;
  min_time_between_scans : float;
  min_icp_goodness : float;
  decimate_to_point_count : N;
  max_KFs_local_graph : N;
  mrpt_icp : TConfigParams;
  debug_save_all_icp_results : bool }.

(** ** The MRPT interface

    Poses, point clouds and observations are MRPT objects; the front-end
    only uses the operations below. *)

Class Mrpt := {
  CPose3D : Type;
  CPose3D_Identity : CPose3D;              (* CPose3D() and CPose3D::Identity() *)
  CPose3D_from : TPose3D -> CPose3D;       (* CPose3D(const TPose3D&) *)
  asTPose : CPose3D -> TPose3D;
  compose : CPose3D -> CPose3D -> CPose3D;          (* operator+ *)
  inverse_compose : CPose3D -> CPose3D -> CPose3D;  (* operator- *)
  norm : CPose3D -> float;
  pose_x : CPose3D -> float;
  pose_y : CPose3D -> float;
  pose_z : CPose3D -> float;
  CPointsMap : Type;
  points_size : CPointsMap -> N;
  CObservation : Type;
  sensorLabel : CObservation -> string;
  timestamp : CObservation -> time_point }.

(** ** How a piece of a task ends *)

Inductive Flow (A : Type) :=
| Normal (a : A)
| Thrown             (* a std::exception travelling to the task boundary *)
| Undefined.         (* the C++ behaviour is undefined from here on *)
Arguments Normal {A} a.
Arguments Thrown {A}.
Arguments Undefined {A}.

(** ** Front-end data *)

Section FrontEnd.
Context {L : Mrpt}.

Definition Ptr (A : Type) := option A.   (* a shared pointer, [None] when null *)

(** [mrpt::graphs::CNetworkOfPoses3D]: [edges] is a multimap, kept here in
    insertion order. *)
Record CNetworkOfPoses3D := mkGraph {
  root : TNodeID;
  nodes : list (TNodeID * CPose3D);
  edges : list ((TNodeID * TNodeID) * CPose3D) }.

Record MethodState := mkState {
  last_obs_tim : time_point;
  last_obs : Ptr CObservation;
  last_points : Ptr CPointsMap;
  last_iter_twist : TTwist3D;
  last_kf : TNodeID;
  accum_since_last_kf : CPose3D;
  local_pcs : list (TNodeID * Ptr CPointsMap);
  local_pose_graph : CNetworkOfPoses3D;
  checked_KF_pairs : list (TNodeID * TNodeID) }.

(** Modelled from the spec: the header that declares [MethodState] is not
    among the sources.  A fresh state has no last observation, no previous
    keyframe ([INVALID_ID]), a zero twist, the identity as accumulated pose
    and an empty local graph. *)
Definition MethodState_default : MethodState :=
  mkState time_point_default None None TTwist3D_default INVALID_ID
          CPose3D_Identity [] (mkGraph 0%N [] []) [].

Record DataForCheckEdges := mkData {
  from_id : TNodeID;
  to_id : TNodeID;
  from_pc : Ptr CPointsMap;
  to_pc : Ptr CPointsMap;
  d_init_guess_to_wrt_from : TPose3D }.

Record ICP_Input := mkICPIn {
  in_to_pc : CPointsMap;
  in_from_pc : CPointsMap;
  init_guess_to_wrt_from : TPose3D }.

Record ICP_Output := mkICPOut {
  found_pose_to_wrt_from : CPose3D;   (* the mean of the returned PDF *)
  goodness : float }.

Record ProposeKF_Input := mkKFIn {
  kf_timestamp : time_point;
  kf_observations : list CObservation }.

Record ProposeKF_Output := mkKFOut {
  kf_success : bool;
  new_kf_id : option TNodeID }.

Record FactorRelativePose3 := mkFactor {
  f_from_kf : TNodeID;
  f_to_kf : TNodeID;
  f_rel_pose : TPose3D }.

Record AddFactor_Output := mkFOut {
  f_success : bool;
  new_factor_id : option N }.

(** What a task asks of, and is told by, the outside while it runs. *)
Record Env := mkEnv {
  insertObservationPtr : CObservation -> bool * CPointsMap;
  Align3DPDF : TConfigParams -> CPointsMap -> CPointsMap -> CPose3D ->
               CPose3D * float;
  addKeyFrame : ProposeKF_Input -> ProposeKF_Output;
  addFactor : FactorRelativePose3 -> AddFactor_Output;
  worldmodel_ : option (TNodeID -> list TNodeID);   (* entity_neighbors *)
  dijkstra_nodes_estimate :
    TNodeID -> list ((TNodeID * TNodeID) * CPose3D) ->
    option (list (TNodeID * CPose3D)) }.             (* [None]: it throws *)

Inductive VerbosityLevel := LVL_DEBUG | LVL_INFO | LVL_WARN | LVL_ERROR.

Inductive Event :=
| EvLog (lvl : VerbosityLevel) (msg : string)
| EvAddKeyFrame (kf : ProposeKF_Input)
| EvAddFactor (f : FactorRelativePose3)
| EvEntitiesLock
| EvEntitiesUnlock
| EvEnqueuePastKFs (d : DataForCheckEdges).  (* worker_pool_past_KFs_.enqueue *)

(** ** The task monad: state, outside calls made, exceptions *)

(** A computation maps the state it finds to how it ended, the state it
    left (for [Thrown] and [Undefined]: the state when that happened) and
    the events it produced, in order. *)
#[projections(primitive)] Record Result (A : Type) := mkResult {
  flow_of : Flow A;
  state_of : MethodState;
  events_of : list Event }.

Definition M (A : Type) := MethodState -> Result A.

Definition ret {A} (a : A) : M A := fun s => mkResult (Normal a) s [].
Definition bind {A B} (m : M A) (k : A -> M B) : M B :=
  fun s =>
    let r := m s in
    match flow_of r with
    | Normal a =>
        let r' := k a (state_of r) in
        mkResult (flow_of r') (state_of r') (events_of r ++ events_of r')
    | Thrown => mkResult Thrown (state_of r) (events_of r)
    | Undefined => mkResult Undefined (state_of r) (events_of r)
    end.
Definition throw {A} : M A := fun s => mkResult Thrown s [].
Definition undefined {A} : M A := fun s => mkResult Undefined s [].
Definition get : M MethodState := fun s => mkResult (Normal s) s [].
Definition put (s : MethodState) : M unit := fun _ => mkResult (Normal tt) s [].
Definition emit (e : Event) : M unit := fun s => mkResult (Normal tt) s [e].
Definition ASSERT_ (b : bool) : M unit := if b then ret tt else throw.

(** [ev] happened first, then what [r] reports. *)
Definition prepend {A} (ev : list Event) (r : Result A) : Result A :=
  mkResult (flow_of r) (state_of r) (ev ++ events_of r).
Definition catch (m : M unit) (handler : M unit) : M unit :=
  fun s =>
    let r := m s in
    match flow_of r with
    | Thrown =>
        let r' := handler (state_of r) in
        mkResult (flow_of r') (state_of r') (events_of r ++ events_of r')
    | _ => r
    end.

End FrontEnd.

Declare Scope task_scope.
Delimit Scope task_scope with task.
Notation "x <- m ;; k" := (bind m (fun x => k))
  (at level 61, m at next level, right associativity) : task_scope.
Notation "m ;; k" := (bind m (fun _ => k))
  (at level 61, right associativity) : task_scope.

(** ** The front-end, function by function *)

Section LidarICP.
Context {L : Mrpt}.
Variable params_ : Parameters.
Variable raw_sensor_label_ : string.

Local Open Scope task_scope.

Definition pair_eqb (p q : TNodeID * TNodeID) : bool :=
  (fst p =? fst q)%N && (snd p =? snd q)%N.

(** [std::set<std::pair<id, id>>]: [count] and [insert]. *)
Definition pairs_count (p : TNodeID * TNodeID) (s : list (TNodeID * TNodeID)) : nat :=
  if existsb (pair_eqb p) s then 1 else 0.
Definition pairs_insert (p : TNodeID * TNodeID) (s : list (TNodeID * TNodeID)) :=
  if existsb (pair_eqb p) s then s else s ++ [p].

(** Field updates of [state_]. *)
Definition set_obs (o : Ptr CObservation) (t : time_point) (p : Ptr CPointsMap)
    (s : MethodState) : MethodState :=
  mkState t o p (last_iter_twist s) (last_kf s) (accum_since_last_kf s)
          (local_pcs s) (local_pose_graph s) (checked_KF_pairs s).
Definition set_twist (tw : TTwist3D) (s : MethodState) : MethodState :=
  mkState (last_obs_tim s) (last_obs s) (last_points s) tw (last_kf s)
          (accum_since_last_kf s) (local_pcs s) (local_pose_graph s)
          (checked_KF_pairs s).
Definition set_last_kf (k : TNodeID) (s : MethodState) : MethodState :=
  mkState (last_obs_tim s) (last_obs s) (last_points s) (last_iter_twist s) k
          (accum_since_last_kf s) (local_pcs s) (local_pose_graph s)
          (checked_KF_pairs s).
Definition set_accum (a : CPose3D) (s : MethodState) : MethodState :=
  mkState (last_obs_tim s) (last_obs s) (last_points s) (last_iter_twist s)
          (last_kf s) a (local_pcs s) (local_pose_graph s) (checked_KF_pairs s).
Definition set_local_pcs (m : list (TNodeID * Ptr CPointsMap)) (s : MethodState) :=
  mkState (last_obs_tim s) (last_obs s) (last_points s) (last_iter_twist s)
          (last_kf s) (accum_since_last_kf s) m (local_pose_graph s)
          (checked_KF_pairs s).
Definition set_graph (g : CNetworkOfPoses3D) (s : MethodState) : MethodState :=
  mkState (last_obs_tim s) (last_obs s) (last_points s) (last_iter_twist s)
          (last_kf s) (accum_since_last_kf s) (local_pcs s) g
          (checked_KF_pairs s).
Definition set_checked (c : list (TNodeID * TNodeID)) (s : MethodState) :=
  mkState (last_obs_tim s) (last_obs s) (last_points s) (last_iter_twist s)
          (last_kf s) (accum_since_last_kf s) (local_pcs s)
          (local_pose_graph s) c.

Definition modify (f : MethodState -> MethodState) : M unit :=
  s <- get ;; put (f s).

(** [CNetworkOfPoses::insertEdgeAtEnd]. *)
Definition insertEdgeAtEnd (a b : TNodeID) (p : CPose3D)
    (g : CNetworkOfPoses3D) : CNetworkOfPoses3D :=
  mkGraph (root g) (nodes g) (edges g ++ [((a, b), p)]).

(** [edges.erase(key)]: every edge stored under that ordered pair. *)
Definition edges_erase (k : TNodeID * TNodeID)
    (es : list ((TNodeID * TNodeID) * CPose3D)) :=
  filter (fun e => negb (pair_eqb k (fst e))) es.

(** [getAdjacencyMatrix]: the neighbours of each node, whatever the
    direction of the edge. *)
Definition getAdjacencyMatrix (es : list ((TNodeID * TNodeID) * CPose3D))
    (id : TNodeID) : list TNodeID :=
  flat_map (fun e =>
              (if (fst (fst e) =? id)%N then [snd (fst e)] else []) ++
              (if (snd (fst e) =? id)%N then [fst (fst e)] else [])) es.

(** *** run_one_icp *)

Definition run_one_icp (E : Env) (i : ICP_Input) : ICP_Output :=
  let options := mrpt_icp params_ in
  let options :=
    if (0 <? decimate_to_point_count params_)%N then
      let decim := ((points_size (in_to_pc i) / decimate_to_point_count params_)
                    mod 2 ^ 32)%N in
      mkTConfigParams (maxIterations options) (skip_cov_calculation options)
                      (thresholdDist options) (thresholdAng options)
                      (ALFA options) decim
    else options in
  let initial_guess := CPose3D_from (init_guess_to_wrt_from i) in
  let r := Align3DPDF E options (in_from_pc i) (in_to_pc i) initial_guess in
  mkICPOut (fst r) (snd r).

(** *** checkForNearbyKFs *)

(** The map from distance to node id that the function builds: one entry
    per distinct distance, the node visited last winning. *)
Definition build_KF_distances (ns : list (TNodeID * CPose3D)) : list (float * TNodeID) :=
  fold_left (fun m kfs => StdMap.assign PrimFloat.ltb (norm (snd kfs)) (fst kfs) m)
            ns [].

(** One pass of the body of the eviction loop for [id_to_remove]. *)
Definition evict_one (adj : TNodeID -> list TNodeID) (id_to_remove : TNodeID)
    (s : MethodState) : MethodState :=
  let lpg := local_pose_graph s in
  let es := fold_left
              (fun es other_id =>
                 edges_erase (other_id, id_to_remove)
                             (edges_erase (id_to_remove, other_id) es))
              (adj id_to_remove) (edges lpg) in
  set_local_pcs (StdMap.erase N.ltb id_to_remove (local_pcs s))
    (set_graph (mkGraph (root lpg) (StdMap.erase N.ltb id_to_remove (nodes lpg)) es) s).

(** The eviction loop.  [from_far] is [KF_distances] read from its largest
    key down, so that its head is [KF_distances.rbegin()]; the result is
    what is left of it.  Taking [rbegin()] of an empty map is undefined. *)
Fixpoint evict_loop (adj : TNodeID -> list TNodeID)
    (from_far : list (float * TNodeID)) : M (list (float * TNodeID)) :=
  s <- get ;;
  if (max_KFs_local_graph params_ <? StdMap.size (nodes (local_pose_graph s)))%N then
    match from_far with
    | [] => undefined
    | (_, id_to_remove) :: rest =>
        put (evict_one adj id_to_remove s) ;;
        evict_loop adj rest
    end
  else ret from_far.

(** The pair of ids under which a check is remembered. *)
Definition pair_ids (kf_id root_id : TNodeID) : TNodeID * TNodeID :=
  (N.min kf_id root_id, N.max kf_id root_id).

(** The value of [edge_already_exists] once the three tests are made: the
    two ids are neighbours as numbers, the pair has been sent before, the
    world model knows an edge between the two.  The difference of the two
    ids is taken in [int64_t] and handed to [std::abs]: unless it lies
    strictly between -2^63 and 2^63, the subtraction or the absolute value
    overflows, which is undefined. *)
Definition edge_already_exists (E : Env) (kf_id : TNodeID) : M bool :=
  s <- get ;;
  let lpg := local_pose_graph s in
  let difference := (to_int64 kf_id - to_int64 (root lpg))%Z in
  if negb (Z.abs difference <? 2 ^ 63)%Z then undefined
  else
    let edge_already_exists := (Z.abs difference <? 2)%Z in
    let edge_already_exists :=
      if negb (Nat.eqb (pairs_count (pair_ids kf_id (root lpg)) (checked_KF_pairs s)) 0)
      then true else edge_already_exists in
    match worldmodel_ E with
    | Some entity_neighbors =>
        if negb edge_already_exists then
          emit EvEntitiesLock ;;
          let connected := entity_neighbors kf_id in
          r <- (if existsb (N.eqb (root lpg)) connected then
                  emit (EvLog LVL_DEBUG
                    "[checkForNearbyKFs] Discarding pair check since a factor already exists") ;;
                  ret false
                else ret edge_already_exists) ;;
          emit EvEntitiesUnlock ;;
          ret r
        else ret edge_already_exists
    | None => ret edge_already_exists
    end.

(** The block that sends the pair to the pool of past-keyframe checks. *)
Definition send_for_check (kf_id : TNodeID) : M unit :=
  s <- get ;;
  let lpg := local_pose_graph s in
  let '(d_to_pc, pcs) := StdMap.subscript N.ltb None kf_id (local_pcs s) in
  let '(d_from_pc, pcs) := StdMap.subscript N.ltb None (root lpg) pcs in
  let '(guess, ns') := StdMap.subscript N.ltb CPose3D_Identity kf_id (nodes lpg) in
  let d := mkData (root lpg) kf_id d_from_pc d_to_pc (asTPose guess) in
  modify (fun s => set_local_pcs pcs
            (set_graph (mkGraph (root lpg) ns' (edges lpg)) s)) ;;
  emit (EvEnqueuePastKFs d) ;;
  modify (fun s => set_checked
            (pairs_insert (pair_ids kf_id (root lpg)) (checked_KF_pairs s)) s).

Definition checkForNearbyKFs (E : Env) : M unit :=
  s <- get ;;
  let new_root := last_kf s in
  let es := edges (local_pose_graph s) in
  put (set_graph (mkGraph new_root [(new_root, CPose3D_Identity)] es) s) ;;
  match dijkstra_nodes_estimate E new_root es with
  | None => throw
  | Some ns =>
      modify (set_graph (mkGraph new_root ns es)) ;;
      let adj := getAdjacencyMatrix es in
      rest <- evict_loop adj (rev (build_KF_distances ns)) ;;
      let KF_distances := rev rest in
      match nth_error KF_distances (Nat.div (List.length KF_distances) 2) with
      | None => ret tt
      | Some (_, kf_id) =>
          exists_already <- edge_already_exists E kf_id ;;
          if negb exists_already then send_for_check kf_id else ret tt
      end
  end.

(** *** doProcessNewObservation *)

Definition valid_kf_id (o : option TNodeID) : bool :=
  match o with Some id => negb (id =? INVALID_ID)%N | None => false end.
Definition valid_factor_id (o : option N) : bool :=
  match o with Some id => negb (id =? INVALID_FID)%N | None => false end.

(** "Should we create a new KF?" *)
Definition should_create_KF (icp_goodness dist_eucl_since_last : float) : bool :=
  (min_icp_goodness params_ <? icp_goodness)%float &&
  (min_dist_xyz_between_keyframes params_ <? dist_eucl_since_last)%float.

(** The block that creates the keyframe, entered when [should_create_KF]. *)
Definition create_KF (E : Env) (o : CObservation) (this_obs_tim : time_point)
    (this_obs_points : CPointsMap) : M unit :=
  let kf := mkKFIn this_obs_tim [o] in
  emit (EvAddKeyFrame kf) ;;
  let kf_out := addKeyFrame E kf in
  ASSERT_ (kf_success kf_out) ;;
  ASSERT_ (valid_kf_id (new_kf_id kf_out)) ;;
  match new_kf_id kf_out with
  | None => throw
  | Some id =>
      modify (fun s => set_local_pcs
                (StdMap.assign N.ltb id (Some this_obs_points) (local_pcs s)) s) ;;
      s <- get ;;
      (if negb (last_kf s =? INVALID_ID)%N then
         let fPose3 := mkFactor (last_kf s) id (asTPose (accum_since_last_kf s)) in
         emit (EvAddFactor fPose3) ;;
         let factor_out := addFactor E fPose3 in
         ASSERT_ (f_success factor_out) ;;
         ASSERT_ (valid_factor_id (new_factor_id factor_out)) ;;
         modify (fun s => set_graph
                   (insertEdgeAtEnd id (last_kf s) (accum_since_last_kf s)
                                    (local_pose_graph s)) s)
       else ret tt) ;;
      emit (EvLog LVL_INFO "New KF") ;;
      modify (set_accum CPose3D_Identity) ;;
      modify (set_last_kf id)
  end.

(** The time step fed to the velocity model. *)
Definition scan_dt (last_obs_tim this_obs_tim : time_point) : float :=
  if negb (last_obs_tim =? time_point_default)%Z
  then timeDifference last_obs_tim this_obs_tim
  else 0%float.

(** The initial guess of the odometry registration. *)
Definition odometry_guess (tw : TTwist3D) (dt : float) : TPose3D :=
  mkTPose3D (vx tw * dt) (vy tw * dt) (vz tw * dt) 0 0 0.

(** The twist stored after a registration. *)
Definition updated_twist (tw : TTwist3D) (rel_pose : CPose3D) (dt : float) : TTwist3D :=
  mkTTwist3D (pose_x rel_pose / dt) (pose_y rel_pose / dt) (pose_z rel_pose / dt)
             (wx tw) (wy tw) (wz tw).

(** Registration against the previous scan and all that follows it. *)
Definition register_and_promote (E : Env) (o : CObservation)
    (this_obs_tim last_obs_tim : time_point)
    (this_obs_points last_points : CPointsMap) : M unit :=
  let dt := scan_dt last_obs_tim this_obs_tim in
  s <- get ;;
  let icp_in := mkICPIn this_obs_points last_points
                        (odometry_guess (last_iter_twist s) dt) in
  let icp_out := run_one_icp E icp_in in
  let rel_pose := found_pose_to_wrt_from icp_out in
  modify (fun s => set_twist (updated_twist (last_iter_twist s) rel_pose dt) s) ;;
  modify (fun s => set_accum (compose (accum_since_last_kf s) rel_pose) s) ;;
  s <- get ;;
  let dist_eucl_since_last := norm (accum_since_last_kf s) in
  (if should_create_KF (goodness icp_out) dist_eucl_since_last
   then create_KF E o this_obs_tim this_obs_points
   else ret tt) ;;
  s <- get ;;
  if (1 <? StdMap.size (local_pcs s))%N then checkForNearbyKFs E else ret tt.

(** The scan is dropped when it follows the previous one too closely. *)
Definition too_close_in_time (s : MethodState) (this_obs_tim : time_point) : bool :=
  negb (last_obs_tim s =? time_point_default)%Z &&
  (timeDifference (last_obs_tim s) this_obs_tim <? min_time_between_scans params_)%float.

Definition doProcessNewObservation_try (E : Env) (o : CObservation) : M unit :=
  s <- get ;;
  let this_obs_tim := timestamp o in
  if too_close_in_time s this_obs_tim then ret tt
  else
    let '(have_points, this_obs_points) := insertObservationPtr E o in
    let last_obs_tim' := last_obs_tim s in
    let last_points' := last_points s in
    put (set_obs (Some o) this_obs_tim (Some this_obs_points) s) ;;
    match last_points' with
    | None => emit (EvLog LVL_DEBUG "First pointcloud: skipping ICP.")
    | Some last_points' =>
        if negb have_points then
          emit (EvLog LVL_WARN
            "Observation could not be converted into a pointcloud. Doing nothing.")
        else
          register_and_promote E o this_obs_tim last_obs_tim'
                               this_obs_points last_points'
    end.

Definition log_exception : M unit := emit (EvLog LVL_ERROR "Exception").

Definition doProcessNewObservation (E : Env) (o : CObservation) : M unit :=
  catch (doProcessNewObservation_try E o) log_exception.

(** *** doCheckForNonAdjacentKFs *)

Definition correction_percent (rel_pose init_guess : CPose3D) : float :=
  let pos_correction := norm (inverse_compose rel_pose init_guess) in
  (pos_correction / (norm init_guess + 0.01))%float.

Definition accept_edge (icp_goodness corr_percent : float) : bool :=
  (min_icp_goodness params_ <? icp_goodness)%float && (corr_percent <? 0.20)%float.

Definition doCheckForNonAdjacentKFs_try (E : Env) (d : DataForCheckEdges) : M unit :=
  match from_pc d with
  | None => throw
  | Some d_from_pc =>
      match to_pc d with
      | None => throw
      | Some d_to_pc =>
          let icp_in := mkICPIn d_to_pc d_from_pc (d_init_guess_to_wrt_from d) in
          let icp_out := run_one_icp E icp_in in
          let rel_pose := found_pose_to_wrt_from icp_out in
          let icp_goodness := goodness icp_out in
          let init_guess := CPose3D_from (d_init_guess_to_wrt_from d) in
          if accept_edge icp_goodness (correction_percent rel_pose init_guess) then
            let fPose3 := mkFactor (from_id d) (to_id d) (asTPose rel_pose) in
            emit (EvAddFactor fPose3) ;;
            let factor_out := addFactor E fPose3 in
            ASSERT_ (f_success factor_out) ;;
            ASSERT_ (valid_factor_id (new_factor_id factor_out)) ;;
            modify (fun s => set_graph
                      (insertEdgeAtEnd (from_id d) (to_id d) rel_pose
                                       (local_pose_graph s)) s)
          else ret tt
      end
  end.

Definition doCheckForNonAdjacentKFs (E : Env) (d : DataForCheckEdges) : M unit :=
  catch (doCheckForNonAdjacentKFs_try E d) log_exception.

(** *** reset *)

Definition reset : M unit := put MethodState_default.

(** *** onNewObservation

    The module around [state_]: the tasks that the odometry pool counts as
    pending, and the stamp kept by the throttled warning. *)

Record LidarICP := mkModule {
  state_ : MethodState;
  worker_pool_ : list CObservation;
  last_throttled_warn : option float;
  console : list (float * string) }.   (* warnings printed, with their time *)

Definition pendingTasks (m : LidarICP) : N := N.of_nat (List.length (worker_pool_ m)).

(** Modelled from the spec: [MRPT_LOG_THROTTLE_WARN] is a macro of MRPT's
    logger, not among the sources.  It lets a message through when none
    went through before or more than [period] seconds have passed since the
    last one, and then remembers the time: at most one warning per period. *)
Definition MRPT_LOG_THROTTLE_WARN (period now : float) (msg : string)
    (m : LidarICP) : LidarICP :=
  let pass := match last_throttled_warn m with
              | None => true
              | Some last => (period <? now - last)%float
              end in
  if pass then
    mkModule (state_ m) (worker_pool_ m) (Some now) (console m ++ [(now, msg)])
  else m.

(** [now] is the wall clock read by the logger during the call. *)
Definition onNewObservation (now : float) (o : CObservation) (m : LidarICP) : LidarICP :=
  if negb (String.eqb (sensorLabel o) raw_sensor_label_) then m
  else
    let queued := pendingTasks m in
    if (1 <? queued)%N then
      MRPT_LOG_THROTTLE_WARN 5.0 now
        "Dropping observation due to worker threads too busy." m
    else
      mkModule (state_ m) (worker_pool_ m ++ [o]) (last_throttled_warn m)
               (console m).

(** *** Runs

    The two pools execute their tasks one after the other; a run is the
    list of the tasks executed since the last [reset], each with what the
    outside answered while it ran. *)

Inductive Task :=
| OdometryTask (o : CObservation)          (* doProcessNewObservation *)
| PastKFsTask (d : DataForCheckEdges).     (* doCheckForNonAdjacentKFs *)

Definition exec_task (E : Env) (t : Task) : M unit :=
  match t with
  | OdometryTask o => doProcessNewObservation E o
  | PastKFsTask d => doCheckForNonAdjacentKFs E d
  end.

Fixpoint run_tasks (tasks : list (Env * Task)) : M unit :=
  match tasks with
  | [] => ret tt
  | (E, t) :: rest => exec_task E t ;; run_tasks rest
  end.

End LidarICP.

(** ** A translation-only instance of the MRPT interface

    Poses without rotation: composition adds, inverse composition
    subtracts.  A point cloud is the list of its points and an observation
    carries the points the sensor saw. *)

Module Sim.

Record Pose := mkPose { px : float; py : float; pz : float }.

Record Obs := mkObs {
  obs_label : string;
  obs_stamp : time_point;
  obs_points : list Pose }.

#[export] Instance mrpt : Mrpt := {|
  CPose3D := Pose;
  CPose3D_Identity := mkPose 0 0 0;
  CPose3D_from := fun t => mkPose (tp_x t) (tp_y t) (tp_z t);
  asTPose := fun p => mkTPose3D (px p) (py p) (pz p) 0 0 0;
  compose := fun a b => mkPose (px a + px b) (py a + py b) (pz a + pz b);
  inverse_compose := fun a b => mkPose (px a - px b) (py a - py b) (pz a - pz b);
  norm := fun p => sqrt (px p * px p + py p * py p + pz p * pz p);
  pose_x := px;
  pose_y := py;
  pose_z := pz;
  CPointsMap := list Pose;
  points_size := fun c => N.of_nat (List.length c);
  CObservation := Obs;
  sensorLabel := obs_label;
  timestamp := obs_stamp |}.

(** An outside world for the scenarios: observations convert when they
    carry at least one point, the ICP kernel answers [rel] with goodness
    [good], the back-end hands out [kf] and accepts factors when
    [factors_ok], the Dijkstra pass answers [reach]. *)
Definition env (rel : Pose) (good : float) (kf : ProposeKF_Output)
    (factors_ok : bool) (wm : option (TNodeID -> list TNodeID))
    (reach : option (list (TNodeID * Pose))) : Env :=
  mkEnv (fun o => (negb (Nat.eqb (List.length (obs_points o)) 0), obs_points o))
        (fun _ _ _ _ => (rel, good))
        (fun _ => kf)
        (fun _ => mkFOut factors_ok (if factors_ok then Some 7%N else None))
        wm
        (fun _ _ => reach).

Definition params (min_dist min_good : float) (max_kfs : N) : Parameters :=
  mkParameters min_dist 0 min_good 0 max_kfs
               (mkTConfigParams 50 false 1.25 0.017453292519943295 0.01 1) false.

Definition scan (t : time_point) : Obs := mkObs "lidar" t [mkPose 1 0 0; mkPose 0 1 0].
Definition blank (t : time_point) : Obs := mkObs "lidar" t [].

End Sim.

(** ** Vocabulary of the properties *)

Section Vocabulary.
Context {L : Mrpt}.

(** A relation between the state a computation finds, the events it
    produces and the state it leaves, closed under doing nothing and under
    sequencing. *)
Class Frame (R : MethodState -> list Event -> MethodState -> Prop) := {
  frame_refl : forall s, R s [] s;
  frame_trans : forall s1 e1 s2 e2 s3,
      R s1 e1 s2 -> R s2 e2 s3 -> R s1 (e1 ++ e2) s3 }.

Definition respects_at (R : MethodState -> list Event -> MethodState -> Prop)
    {A} (m : M A) (s : MethodState) : Prop :=
  R s (events_of (m s)) (state_of (m s)).

(** The accumulated pose, the last keyframe and the twist are untouched
    and no keyframe is requested. *)
Definition keeps_motion (s : MethodState) (ev : list Event) (s' : MethodState) : Prop :=
  accum_since_last_kf s' = accum_since_last_kf s /\
  last_kf s' = last_kf s /\
  last_iter_twist s' = last_iter_twist s /\
  forall kf, ~ In (EvAddKeyFrame kf) ev.

(** The task asks the back-end for a keyframe. *)
Definition keyframe_requested (ev : list Event) : Prop :=
  exists kf, In (EvAddKeyFrame kf) ev.

(** The back-end answers [addKeyFrame] with success and the valid id [id]. *)
Definition backend_mints (E : Env) (kf : ProposeKF_Input) (id : TNodeID) : Prop :=
  kf_success (addKeyFrame E kf) = true /\
  new_kf_id (addKeyFrame E kf) = Some id /\
  id <> INVALID_ID.

(** A keyframe is minted: the task asked the back-end for one, and the
    back-end answered with the id [id]. *)
Definition keyframe_minted (E : Env) (ev : list Event) (id : TNodeID) : Prop :=
  exists kf, In (EvAddKeyFrame kf) ev /\ backend_mints E kf id.

(** The promotion went through to its end, where the task says so. *)
Definition promotion_completed (ev : list Event) : Prop :=
  In (EvLog LVL_INFO "New KF") ev.

(** Every request for a keyframe among the events is the request [kf0]. *)
Definition asks_only_for (kf0 : ProposeKF_Input)
    (s : MethodState) (ev : list Event) (s' : MethodState) : Prop :=
  forall kf, In (EvAddKeyFrame kf) ev -> kf = kf0.

(** No promotion is reported as completed. *)
Definition completes_nothing (s : MethodState) (ev : list Event) (s' : MethodState) : Prop :=
  ~ promotion_completed ev.

(** The back-end answers [addFactor] with success and a valid factor id. *)
Definition factor_accepted (E : Env) (f : FactorRelativePose3) : Prop :=
  f_success (addFactor E f) = true /\
  exists fid, new_factor_id (addFactor E f) = Some fid /\ fid <> INVALID_FID.

(** The initial guess is the identity pose: every component is zero. *)
Definition guess_is_identity (g : TPose3D) : Prop :=
  is_zero (tp_x g) = true /\ is_zero (tp_y g) = true /\ is_zero (tp_z g) = true /\
  is_zero (tp_yaw g) = true /\ is_zero (tp_pitch g) = true /\
  is_zero (tp_roll g) = true.

Definition linear_finite (tw : TTwist3D) : Prop :=
  is_finite (vx tw) = true /\ is_finite (vy tw) = true /\ is_finite (vz tw) = true.

Definition linear_non_finite (tw : TTwist3D) : Prop :=
  is_finite (vx tw) = false /\ is_finite (vy tw) = false /\ is_finite (vz tw) = false.

(** The twist is untouched. *)
Definition keeps_twist (s : MethodState) (ev : list Event) (s' : MethodState) : Prop :=
  last_iter_twist s' = last_iter_twist s.

(** A factor goes to the back-end; an edge is appended to the local graph. *)
Definition factor_submitted (ev : list Event) : Prop :=
  exists f, In (EvAddFactor f) ev.

Definition edge_inserted (s s' : MethodState) (a b : TNodeID) (p : CPose3D) : Prop :=
  edges (local_pose_graph s') = edges (local_pose_graph s) ++ [((a, b), p)].

(** [nodes.keys() == local_pcs.keys()]. *)
Definition same_keys (s : MethodState) : Prop :=
  forall k, In k (StdMap.keys (nodes (local_pose_graph s))) <->
            In k (StdMap.keys (local_pcs s)).

(** The equality of key sets, where it holds, is kept, and so is the root. *)
Definition keeps_coherence (s : MethodState) (ev : list Event) (s' : MethodState) : Prop :=
  (same_keys s -> same_keys s') /\
  root (local_pose_graph s') = root (local_pose_graph s).

(** Nothing changes and nothing is sent to the pool of checks. *)
Definition only_asks (s : MethodState) (ev : list Event) (s' : MethodState) : Prop :=
  s' = s /\ forall d, ~ In (EvEnqueuePastKFs d) ev.

(** The probe tasks that a list of events sends to the pool. *)
Definition probes_sent (ev : list Event) : list DataForCheckEdges :=
  flat_map (fun e => match e with EvEnqueuePastKFs d => [d] | _ => [] end) ev.

(** Two probe tasks are for the same unordered pair of keyframes. *)
Definition same_unordered_pair (d1 d2 : DataForCheckEdges) : Prop :=
  (from_id d1 = from_id d2 /\ to_id d1 = to_id d2) \/
  (from_id d1 = to_id d2 /\ to_id d1 = from_id d2).

(** The two keyframes of a probe task as a normalized pair: the smaller id
    first, the larger second. *)
Definition normalized_pair (d : DataForCheckEdges) : TNodeID * TNodeID :=
  (N.min (from_id d) (to_id d), N.max (from_id d) (to_id d)).

(** The normalized pairs of the probe tasks that a list of events sends to
    the pool. *)
Definition probe_pairs (ev : list Event) : list (TNodeID * TNodeID) :=
  map normalized_pair (probes_sent ev).

(** No pair is sent twice, the pairs sent are new, and they are what
    [checked_KF_pairs] gains. *)
Definition dedup (s : MethodState) (ev : list Event) (s' : MethodState) : Prop :=
  NoDup (probe_pairs ev) /\
  (forall p, In p (checked_KF_pairs s') <->
             In p (checked_KF_pairs s) \/ In p (probe_pairs ev)) /\
  (forall p, In p (checked_KF_pairs s) -> ~ In p (probe_pairs ev)).

End Vocabulary.

(** ** Vocabulary of the ingress *)

Section IngressVocabulary.
Context {L : Mrpt}.

(** Times, newest first, each more than [period] after the one before. *)
Fixpoint spaced (period : float) (newest_first : list float) : Prop :=
  match newest_first with
  | t2 :: rest =>
      match rest with
      | t1 :: _ => (period <? t2 - t1)%float = true /\ spaced period rest
      | [] => True
      end
  | [] => True
  end.

Definition warning_times (m : LidarICP) : list float := rev (map fst (console m)).

(** The drop warnings printed so far are more than 5 s apart, and the
    logger remembers the time of the last one. *)
Definition throttled (m : LidarICP) : Prop :=
  spaced 5.0 (warning_times m) /\
  last_throttled_warn m = hd_error (warning_times m).

(** A module that has just been constructed. *)
Definition LidarICP_fresh : LidarICP := mkModule MethodState_default [] None [].

(** The calls of the sensor driver, each with the clock at that moment,
    made on a module that has just been constructed. *)
Definition ingress (raw_sensor_label_ : string)
    (calls : list (float * CObservation)) : LidarICP :=
  fold_left (fun m c => onNewObservation raw_sensor_label_ (fst c) (snd c) m)
            calls LidarICP_fresh.

End IngressVocabulary.

(** ** Vocabulary of the further properties *)

Section FurtherVocabulary.
Context {L : Mrpt}.

(** The angular part of the twist is untouched. *)
Definition keeps_angular (s : MethodState) (ev : list Event) (s' : MethodState) : Prop :=
  wx (last_iter_twist s') = wx (last_iter_twist s) /\
  wy (last_iter_twist s') = wy (last_iter_twist s) /\
  wz (last_iter_twist s') = wz (last_iter_twist s).

(** [last_kf] stays, or becomes a valid id. *)
Definition kf_stays_valid (s : MethodState) (ev : list Event) (s' : MethodState) : Prop :=
  last_kf s' = last_kf s \/ last_kf s' <> INVALID_ID.

(** [last_kf] moves only when a keyframe is asked for. *)
Definition kf_moves_on_request (s : MethodState) (ev : list Event) (s' : MethodState) : Prop :=
  ~ keyframe_requested ev -> last_kf s' = last_kf s.

(** No factor goes to the back-end. *)
Definition submits_no_factor (s : MethodState) (ev : list Event) (s' : MethodState) : Prop :=
  forall f, ~ In (EvAddFactor f) ev.

(** An edge touches a node when the node is one of its two ends. *)
Definition touches (k : TNodeID) (e : (TNodeID * TNodeID) * CPose3D) : Prop :=
  fst (fst e) = k \/ snd (fst e) = k.

(** Edges, clouds and nodes are only ever taken away. *)
Definition shrinks (s : MethodState) (ev : list Event) (s' : MethodState) : Prop :=
  incl (edges (local_pose_graph s')) (edges (local_pose_graph s)) /\
  incl (StdMap.keys (local_pcs s')) (StdMap.keys (local_pcs s)) /\
  incl (StdMap.keys (nodes (local_pose_graph s')))
       (StdMap.keys (nodes (local_pose_graph s))).

(** No probe task is sent to the pool. *)
Definition sends_no_probe (s : MethodState) (ev : list Event) (s' : MethodState) : Prop :=
  probes_sent ev = [].

(** The calls to the back-end among a list of events. *)
Definition is_backend_call (e : Event) : bool :=
  match e with
  | EvAddKeyFrame _ | EvAddFactor _ => true
  | _ => false
  end.
Definition backend_calls (ev : list Event) : list Event := filter is_backend_call ev.

(** The back-end is not called. *)
Definition calls_no_backend (s : MethodState) (ev : list Event) (s' : MethodState) : Prop :=
  backend_calls ev = [].

(** The entry that a task leaves in the log when it catches an exception. *)
Definition exception_logged (ev : list Event) : Prop :=
  In (EvLog LVL_ERROR "Exception") ev.

(** No exception is logged. *)
Definition logs_no_exception (s : MethodState) (ev : list Event) (s' : MethodState) : Prop :=
  ~ exception_logged ev.

(** The outside lets no task down: the back-end grants every keyframe,
    with a valid id, and every factor, and the Dijkstra pass answers. *)
Definition outside_grants (E : Env) : Prop :=
  (forall kf, exists id, backend_mints E kf id) /\
  (forall f, factor_accepted E f) /\
  (forall root es, dijkstra_nodes_estimate E root es <> None).

(** A probe task carries its two clouds. *)
Definition carries_clouds (t : Task) : Prop :=
  match t with
  | OdometryTask _ => True
  | PastKFsTask d => from_pc d <> None /\ to_pc d <> None
  end.

(** What a task runs inside its [try] block. *)
Definition task_body (params_ : Parameters) (E : Env) (t : Task) : M unit :=
  match t with
  | OdometryTask o => doProcessNewObservation_try params_ E o
  | PastKFsTask d => doCheckForNonAdjacentKFs_try params_ E d
  end.

(** The ICP options with another decimation of the correspondences. *)
Definition with_decimation (decim : N) (options : TConfigParams) : TConfigParams :=
  mkTConfigParams (maxIterations options) (skip_cov_calculation options)
                  (thresholdDist options) (thresholdAng options)
                  (ALFA options) decim.

End FurtherVocabulary.

(** ** Scenarios on the translation-only instance *)

Module Scenario.
Import Sim.

(** 1 m between keyframes, goodness above 0.5, at most 5 keyframes. *)
Definition P : Parameters := Sim.params 1 0.5 5.

(** A registration of 1.2 m along x with goodness 0.9; the back-end mints
    keyframe 1. *)
Definition E_first : Env :=
  Sim.env (mkPose 1.2 0 0) 0.9 (mkKFOut true (Some 1%N)) true None None.

Definition cloud : list Pose := obs_points (scan 0).

(** The state after the very first scan, taken at tick 1000. *)
Definition s_boot : MethodState :=
  state_of (doProcessNewObservation P E_first (scan 1000) MethodState_default).

(** The second scan, 1000 ticks later, registered against the first. *)
Definition r_second : Result unit :=
  register_and_promote P E_first (scan 2000) 2000 1000 cloud cloud s_boot.

(** A scan that carries no point follows the first scan. *)
Definition r_blank : Result unit :=
  doProcessNewObservation P E_first (blank 2000) s_boot.

(** Keyframe 1 exists, the robot has moved on by 1.2 m, and the back-end
    mints keyframe 2 but turns the odometry factor down. *)
Definition E_reject : Env :=
  Sim.env (mkPose 1.2 0 0) 0.9 (mkKFOut true (Some 2%N)) false None None.
Definition s_one_kf : MethodState := state_of r_second.
Definition r_reject : Result unit :=
  doProcessNewObservation P E_reject (scan 3000) s_one_kf.

(** A second and a third scan with the time stamp of the first. *)
Definition r_same2 : Result unit :=
  doProcessNewObservation P E_first (scan 1000) s_boot.
Definition s_same2 : MethodState := state_of r_same2.

(** A probe of keyframe 3 from keyframe 5, guessed 2 m away. *)
Definition d_probe : DataForCheckEdges :=
  mkData 5 3 (Some cloud) (Some cloud) (mkTPose3D 2 0 0 0 0 0).

(** The registration agrees with the guess, with goodness 0.9, and the
    back-end accepts the factor. *)
Definition E_probe_accept : Env :=
  Sim.env (mkPose 2 0 0) 0.9 (mkKFOut true (Some 6%N)) true None None.

(** Five keyframes in a row, 1 m apart, keyframe 5 the latest.  The
    Dijkstra pass places them at 4, 3, 2, 1 and 0 m from keyframe 5, and
    the world model already knows an edge between keyframes 3 and 5. *)
Definition edges_row : list ((TNodeID * TNodeID) * Pose) :=
  [((2, 1), mkPose 1 0 0); ((3, 2), mkPose 1 0 0);
   ((4, 3), mkPose 1 0 0); ((5, 4), mkPose 1 0 0)]%N.
Definition reach_row : list (TNodeID * Pose) :=
  [(1, mkPose (-4) 0 0); (2, mkPose (-3) 0 0); (3, mkPose (-2) 0 0);
   (4, mkPose (-1) 0 0); (5, mkPose 0 0 0)]%N.
Definition s_row : MethodState :=
  mkState 5000 (Some (scan 5000)) (Some cloud) TTwist3D_default 5
          (mkPose 0 0 0)
          [(1, Some cloud); (2, Some cloud); (3, Some cloud); (4, Some cloud);
           (5, Some cloud)]%N
          (mkGraph 4 [] edges_row) [].
Definition neighbours_row (id : TNodeID) : list TNodeID :=
  if (id =? 3)%N then [2; 4; 5]%N else [].
Definition E_row : Env :=
  Sim.env (mkPose 1 0 0) 0.9 (mkKFOut true (Some 6%N)) true
          (Some neighbours_row) (Some reach_row).
Definition r_row : Result unit := checkForNearbyKFs P E_row s_row.

(** Four keyframes, keyframe 4 the latest, the three others all 1 m away
    from it, and room for two or for one keyframe only. *)
Definition edges_tie : list ((TNodeID * TNodeID) * Pose) :=
  [((4, 1), mkPose 1 0 0); ((4, 2), mkPose 0 1 0); ((4, 3), mkPose 0 0 1)]%N.
Definition reach_tie : list (TNodeID * Pose) :=
  [(1, mkPose 1 0 0); (2, mkPose 0 1 0); (3, mkPose 0 0 1); (4, mkPose 0 0 0)]%N.
Definition s_tie : MethodState :=
  mkState 4000 (Some (scan 4000)) (Some cloud) TTwist3D_default 4
          (mkPose 0 0 0)
          [(1, Some cloud); (2, Some cloud); (3, Some cloud); (4, Some cloud)]%N
          (mkGraph 3 [] edges_tie) [].
Definition E_tie : Env :=
  Sim.env (mkPose 1 0 0) 0.9 (mkKFOut true (Some 5%N)) true None (Some reach_tie).
Definition r_tie_2 : Result unit := checkForNearbyKFs (Sim.params 1 0.5 2) E_tie s_tie.
Definition r_tie_1 : Result unit := checkForNearbyKFs (Sim.params 1 0.5 1) E_tie s_tie.

(** The odometry pool counts two pending tasks, and a drop warning was
    printed at second 100. *)
Definition m_busy : LidarICP :=
  mkModule s_boot [scan 2000; scan 3000] (Some 100%float)
           [(100%float, "Dropping observation due to worker threads too busy."%string)].

(** A further scan arrives when the clock reads 102 s. *)
Definition m_shed : LidarICP :=
  @onNewObservation Sim.mrpt "lidar" 102 (scan 4000) m_busy.

(** *** Scenarios of the further properties *)

(** A probe task whose second cloud is missing. *)
Definition d_no_cloud : DataForCheckEdges :=
  mkData 5 3 (Some cloud) None (mkTPose3D 2 0 0 0 0 0).

(** Scans are wanted at least 0.1 s apart. *)
Definition P_gap : Parameters :=
  mkParameters 1 0.1 0.5 0 5
               (mkTConfigParams 50 false 1.25 0.017453292519943295 0.01 1) false.

(** A registration of 0.5 m only. *)
Definition E_short : Env :=
  Sim.env (mkPose 0.5 0 0) 0.9 (mkKFOut true (Some 1%N)) true None None.

(** The back-end refuses to make a keyframe. *)
Definition E_no_kf : Env :=
  Sim.env (mkPose 1.2 0 0) 0.9 (mkKFOut false None) true None None.

(** The back-end mints keyframe 2 and accepts its factor. *)
Definition E_second : Env :=
  Sim.env (mkPose 1.2 0 0) 0.9 (mkKFOut true (Some 2%N)) true None None.

(** Keyframe 1 exists and the robot has moved 1.2 m since. *)
Definition s_moved : MethodState :=
  mkState 2000 (Some (scan 2000)) (Some cloud) TTwist3D_default 1
          (mkPose 1.2 0 0) [(1%N, Some cloud)] (mkGraph 0 [] []) [].

(** The four keyframes with three of them 1 m away, as the Dijkstra pass
    leaves them. *)
Definition s_tie_reached : MethodState :=
  mkState 4000 (Some (scan 4000)) (Some cloud) TTwist3D_default 4
          (mkPose 0 0 0)
          [(1, Some cloud); (2, Some cloud); (3, Some cloud); (4, Some cloud)]%N
          (mkGraph 4 reach_tie edges_tie) [].
Definition r_tie_loop : Result (list (float * TNodeID)) :=
  evict_loop (Sim.params 1 0.5 3) (getAdjacencyMatrix edges_tie)
             (rev (build_KF_distances reach_tie)) s_tie_reached.

(** The probe that the search sends on the row of five keyframes. *)
Definition d_row : DataForCheckEdges :=
  mkData 5 3 (Some cloud) (Some cloud) (mkTPose3D (-2) 0 0 0 0 0).

(** Clouds are to be thinned down to about 100 points. *)
Definition P_decimate : Parameters :=
  mkParameters 1 0 0.5 100 5
               (mkTConfigParams 50 false 1.25 0.017453292519943295 0.01 1) false.

(** A run of one task: the third scan, whose factor the back-end refuses. *)
Definition run_reject : list (Env * Task) :=
  [(E_reject, OdometryTask (scan 3000))].

(** *** Scenarios of the back-end's refusals and of the probes *)

(** The second scan, 1.2 m away with goodness 0.9, when the back-end
    refuses to make a keyframe. *)
Definition r_no_kf : Result unit :=
  register_and_promote P E_no_kf (scan 2000) 2000 1000 cloud cloud s_boot.
Definition icp_no_kf : ICP_Output :=
  run_one_icp P E_no_kf
    (mkICPIn cloud cloud
       (odometry_guess (last_iter_twist s_boot) (scan_dt 1000 2000))).

(** A third scan with the time stamp of the first two. *)
Definition s_same3 : MethodState :=
  state_of (doProcessNewObservation P E_first (scan 1000) s_same2).

(** On the row of five keyframes, the probe of keyframe 3 from keyframe
    5, guessed 2 m away, finds it 2.1 m away with goodness 0.9: a
    correction of 0.1 m, 5 % of the guess. *)
Definition E_probe_close : Env :=
  Sim.env (mkPose 2.1 0 0) 0.9 (mkKFOut true (Some 6%N)) true None None.
Definition r_probe_close : Result unit :=
  doCheckForNonAdjacentKFs P E_probe_close d_probe s_row.

(** The same probe, when the back-end turns the factor down. *)
Definition E_probe_refused : Env :=
  Sim.env (mkPose 2.1 0 0) 0.9 (mkKFOut true (Some 6%N)) false None None.
Definition r_probe_refused : Result unit :=
  doCheckForNonAdjacentKFs P E_probe_refused d_probe s_row.

(** A probe guessed 1.99 m away that finds its keyframe 2.69 m away with
    goodness 0.9: a correction of 0.7 m over 1.99 m + 0.01 m, that is 35 %. *)
Definition d_far : DataForCheckEdges :=
  mkData 5 3 (Some cloud) (Some cloud) (mkTPose3D 1.99 0 0 0 0 0).
Definition E_probe_far : Env :=
  Sim.env (mkPose 2.69 0 0) 0.9 (mkKFOut true (Some 6%N)) true None None.
Definition r_probe_far : Result unit :=
  doCheckForNonAdjacentKFs P E_probe_far d_far s_row.

(** Two keyframes whose ids are more than 2^63 apart as 64-bit signed
    numbers: keyframe 1, the root, and a keyframe whose id has the top bit
    set. *)
Definition far_id : TNodeID := 9223372036854775808%N.
Definition reach_far : list (TNodeID * Pose) :=
  [(1%N, mkPose 0 0 0); (far_id, mkPose 1 0 0)].
Definition s_far : MethodState :=
  mkState 2000 (Some (scan 2000)) (Some cloud) TTwist3D_default 1
          (mkPose 0 0 0) [(1%N, Some cloud); (far_id, Some cloud)]
          (mkGraph 1 [] [((far_id, 1%N), mkPose 1 0 0)]) [].
Definition E_far : Env :=
  Sim.env (mkPose 1 0 0) 0.9 (mkKFOut true (Some 2%N)) true None (Some reach_far).

(** *** Scenarios of the nodes and the clouds *)

(** A sixth keyframe after the row of five.  The scan is registered 1.2 m
    on, the back-end mints keyframe 6 and accepts its factor, and the
    Dijkstra pass places the six keyframes at 5.2, 4.2, 3.2, 2.2, 1.2 and
    0 m from keyframe 6; there is room for five. *)
Definition reach_six : list (TNodeID * Pose) :=
  [(1, mkPose (-5.2) 0 0); (2, mkPose (-4.2) 0 0); (3, mkPose (-3.2) 0 0);
   (4, mkPose (-2.2) 0 0); (5, mkPose (-1.2) 0 0); (6, mkPose 0 0 0)]%N.
Definition E_sixth : Env :=
  Sim.env (mkPose 1.2 0 0) 0.9 (mkKFOut true (Some 6%N)) true None (Some reach_six).
Definition r_sixth : Result unit :=
  doProcessNewObservation P E_sixth (scan 6000) s_row.

(** A run of two tasks on the row of five keyframes, with an outside that
    grants everything: the scan that makes keyframe 6, then the probe of
    keyframe 4 that the search has sent. *)
Definition run_granted : list (Env * Task) :=
  [(E_sixth, OdometryTask (scan 6000));
   (E_sixth, PastKFsTask
               (mkData 6 4 (Some cloud) (Some cloud) (mkTPose3D (-2.2) 0 0 0 0 0)))].

(** The promotion of keyframe 2 stopped half way: its cloud is stored and
    its factor was refused, so that no edge leads to it.  The robot moves
    on by 1.2 m; the back-end mints keyframe 3 and accepts the factor from
    keyframe 1, and the Dijkstra pass from keyframe 3 reaches keyframe 1
    over the one edge there is. *)
Definition s_half : MethodState := state_of r_reject.
Definition reach_third : list (TNodeID * Pose) :=
  [(1, mkPose (-2.4) 0 0); (3, mkPose 0 0 0)]%N.
Definition E_third : Env :=
  Sim.env (mkPose 1.2 0 0) 0.9 (mkKFOut true (Some 3%N)) true None (Some reach_third).
Definition r_third : Result unit :=
  doProcessNewObservation P E_third (scan 4000) s_half.

End Scenario.

(** * Properties *)

(** ** Binary64 facts used by the velocity model *)

Lemma timeDifference_same (t : time_point) : timeDifference t t = 0%float.
Proof.
  unfold timeDifference. rewrite Z.sub_diag. reflexivity.
Qed.

Lemma scan_dt_same (t : time_point) : scan_dt t t = 0%float.
Proof.
  unfold scan_dt. rewrite timeDifference_same. now destruct (negb _).
Qed.

Lemma div_zero_not_finite (x : float) : is_finite (x / 0) = false.
Proof.
  unfold is_finite, is_nan, is_infinity.
  rewrite !eqb_spec, abs_spec, div_spec.
  change (Prim2SF 0) with (S754_zero false).
  change (Prim2SF infinity) with (S754_infinity false).
  destruct (Prim2SF x) as [s | s | | s m e]; try destruct s; reflexivity.
Qed.

Lemma mul_zero_is_zero (x : float) : is_zero (x * 0) = is_finite x.
Proof.
  unfold is_finite, is_nan, is_infinity, is_zero.
  rewrite !eqb_spec, abs_spec, mul_spec.
  change (Prim2SF 0) with (S754_zero false).
  change (Prim2SF infinity) with (S754_infinity false).
  destruct (Prim2SF x) as [s | s | | s m e]; try destruct s;
    cbn; try reflexivity.
  all: unfold SFeqb, SFcompare; rewrite ?Z.compare_refl, ?Pos.compare_cont_refl;
    reflexivity.
Qed.

(** ** [std::map] keyed by node ids *)

Section NodeMaps.
Variable V : Type.
Implicit Types (m : list (TNodeID * V)) (k : TNodeID).

Lemma equiv_id k k' : StdMap.equiv N.ltb k k' = true <-> k = k'.
Proof.
  unfold StdMap.equiv.
  rewrite andb_true_iff, !negb_true_iff, !N.ltb_ge. lia.
Qed.

Lemma equiv_id_false k k' : StdMap.equiv N.ltb k k' = false <-> k <> k'.
Proof.
  rewrite <- equiv_id. destruct (StdMap.equiv N.ltb k k'); intuition congruence.
Qed.

Lemma find_none_keys k m :
  StdMap.find N.ltb k m = None <-> ~ In k (StdMap.keys m).
Proof.
  induction m as [|[k1 v1] r IH]; cbn.
  - tauto.
  - destruct (StdMap.equiv N.ltb k k1) eqn:Ek.
    + apply equiv_id in Ek. split; [discriminate | intros H; exfalso; auto].
    + apply equiv_id_false in Ek. rewrite IH. intuition congruence.
Qed.

Lemma keys_erase k k' m :
  In k (StdMap.keys (StdMap.erase N.ltb k' m)) <-> k <> k' /\ In k (StdMap.keys m).
Proof.
  unfold StdMap.keys, StdMap.erase. rewrite !in_map_iff. split.
  - intros [[k0 v] [<- H]]. apply filter_In in H as [H1 H2]. cbn in *.
    apply negb_true_iff, equiv_id_false in H2. split; [congruence|].
    exists (k0, v). auto.
  - intros [Hn [[k0 v] [<- H]]]. exists (k0, v). split; [reflexivity|].
    apply filter_In. split; [assumption|]. cbn in *.
    apply negb_true_iff, equiv_id_false. congruence.
Qed.

Lemma keys_assign k k' (v : V) m :
  In k (StdMap.keys (StdMap.assign N.ltb k' v m)) <-> k = k' \/ In k (StdMap.keys m).
Proof.
  induction m as [|[k1 v1] r IH]; cbn.
  - intuition.
  - destruct (k' <? k1)%N eqn:E1; cbn.
    + intuition.
    + destruct (k1 <? k')%N eqn:E2; cbn.
      * rewrite IH. tauto.
      * apply N.ltb_ge in E1, E2. assert (k1 = k') by lia. subst. intuition congruence.
Qed.

Lemma keys_subscript k k' (d : V) m :
  In k (StdMap.keys (snd (StdMap.subscript N.ltb d k' m))) <->
  k = k' \/ In k (StdMap.keys m).
Proof.
  unfold StdMap.subscript. destruct (StdMap.find N.ltb k' m) eqn:F; cbn.
  - split; [tauto|]. intros [->|H]; [|assumption].
    destruct (in_dec N.eq_dec k' (StdMap.keys m)) as [H|H]; [assumption|].
    apply find_none_keys in H. congruence.
  - apply keys_assign.
Qed.
End NodeMaps.

(** ** Relations that every step of a task respects *)

Section Frames.
Context {L : Mrpt}.

Context {R : MethodState -> list Event -> MethodState -> Prop} `{!Frame R}.

Lemma at_ret {A} (a : A) s : respects_at R (ret a) s.
Proof. apply frame_refl. Qed.

Lemma at_throw {A} s : respects_at R (@throw L A) s.
Proof. apply frame_refl. Qed.

Lemma at_undefined {A} s : respects_at R (@undefined L A) s.
Proof. apply frame_refl. Qed.

Lemma at_ASSERT b s : respects_at R (ASSERT_ b) s.
Proof. destruct b; apply frame_refl. Qed.

Lemma at_bind {A B} (m : M A) (k : A -> M B) s :
  respects_at R m s ->
  (forall a, flow_of (m s) = Normal a -> respects_at R (k a) (state_of (m s))) ->
  respects_at R (bind m k) s.
Proof.
  unfold respects_at, bind. intros Hm Hk.
  destruct (flow_of (m s)) eqn:F; cbn; try assumption.
  eapply frame_trans; [exact Hm | apply Hk; reflexivity].
Qed.

Lemma at_get_bind {B} (k : MethodState -> M B) s :
  respects_at R (k s) s -> respects_at R (bind get k) s.
Proof. intros H. apply at_bind; [apply frame_refl|]. cbn. now intros a [= <-]. Qed.

Lemma at_put_bind {B} (s' : MethodState) (k : unit -> M B) s :
  R s [] s' -> respects_at R (k tt) s' -> respects_at R (bind (put s') k) s.
Proof. intros H1 H2. apply at_bind; [exact H1|]. cbn. now intros [] _. Qed.

Lemma at_emit_bind {B} (e : Event) (k : unit -> M B) s :
  R s [e] s -> respects_at R (k tt) s -> respects_at R (bind (emit e) k) s.
Proof. intros H1 H2. apply at_bind; [exact H1|]. cbn. now intros [] _. Qed.

Lemma at_modify (f : MethodState -> MethodState) s :
  R s [] (f s) -> respects_at R (modify f) s.
Proof. intros H. unfold respects_at, modify, bind, get, put. cbn. exact H. Qed.

Lemma at_catch (m h : M unit) s :
  respects_at R m s -> (forall s', respects_at R h s') -> respects_at R (catch m h) s.
Proof.
  unfold respects_at, catch. intros Hm Hh.
  destruct (flow_of (m s)); cbn; try assumption.
  eapply frame_trans; [exact Hm | apply Hh].
Qed.

End Frames.

Section FrameTactics.
Context {L : Mrpt}.
Context {R : MethodState -> list Event -> MethodState -> Prop} `{!Frame R}.

Lemma at_ASSERT_bind {B} (b : bool) (k : unit -> M B) s :
  respects_at R (k tt) s -> respects_at R (bind (ASSERT_ b) k) s.
Proof.
  intros H. apply at_bind; [apply at_ASSERT|].
  destruct b; cbn; [now intros [] _ | discriminate].
Qed.

Lemma at_modify_bind {B} (f : MethodState -> MethodState) (k : unit -> M B) s :
  R s [] (f s) -> respects_at R (k tt) (f s) ->
  respects_at R (bind (modify f) k) s.
Proof.
  intros H1 H2. apply at_bind; [now apply at_modify|]. cbn. now intros [] _.
Qed.

Lemma at_emit (e : Event) s : R s [e] s -> respects_at R (emit e) s.
Proof. exact (fun H => H). Qed.

Lemma at_put (s' : MethodState) s : R s [] s' -> respects_at R (put s') s.
Proof. exact (fun H => H). Qed.
End FrameTactics.

(** Split conjunctions, and nothing else. *)
Ltac splits := repeat match goal with |- _ /\ _ => split end.

(** Peel one construct off a task; what is left are the state updates and
    the events, which each relation settles in its own way. *)
Ltac frame_step :=
  lazymatch goal with
  | |- respects_at _ (bind get _) _ => apply at_get_bind
  | |- respects_at _ (bind (put _) _) _ => apply at_put_bind
  | |- respects_at _ (bind (emit _) _) _ => apply at_emit_bind
  | |- respects_at _ (bind (ASSERT_ _) _) _ => apply at_ASSERT_bind
  | |- respects_at _ (bind (modify _) _) _ => apply at_modify_bind
  | |- respects_at _ (bind _ _) _ => apply at_bind; [|intros ? ?]
  | |- respects_at _ (ret _) _ => apply at_ret
  | |- respects_at _ throw _ => apply at_throw
  | |- respects_at _ undefined _ => apply at_undefined
  | |- respects_at _ (modify _) _ => apply at_modify
  | |- respects_at _ (emit _) _ => apply at_emit
  | |- respects_at _ (put _) _ => apply at_put
  | |- respects_at _ (if ?b then _ else _) _ => destruct b eqn:?
  | |- respects_at _ (match ?x with _ => _ end) _ => destruct x eqn:?
  | |- respects_at _ (let '(_, _) := ?x in _) _ => destruct x eqn:?
  end.

(** ** How [bind] runs past each primitive *)

Section Running.
Context {L : Mrpt}.

Lemma bind_get {B} (k : MethodState -> M B) s : bind get k s = k s s.
Proof. reflexivity. Qed.

Lemma bind_put {B} (s' : MethodState) (k : unit -> M B) s :
  bind (put s') k s = k tt s'.
Proof. reflexivity. Qed.

Lemma bind_modify {B} (f : MethodState -> MethodState) (k : unit -> M B) s :
  bind (modify f) k s = k tt (f s).
Proof. reflexivity. Qed.

Lemma bind_ret {A B} (a : A) (k : A -> M B) s : bind (ret a) k s = k a s.
Proof. reflexivity. Qed.

Lemma bind_emit {B} (e : Event) (k : unit -> M B) s :
  bind (emit e) k s = prepend [e] (k tt s).
Proof. reflexivity. Qed.

Lemma bind_ASSERT_true {B} (k : unit -> M B) s : bind (ASSERT_ true) k s = k tt s.
Proof. reflexivity. Qed.

Lemma bind_ASSERT_false {B} (k : unit -> M B) s :
  bind (ASSERT_ false) k s = mkResult Thrown s [].
Proof. reflexivity. Qed.

Lemma bind_throw {A B} (k : A -> M B) s : bind throw k s = mkResult Thrown s [].
Proof. reflexivity. Qed.

Lemma bind_normal {A B} (m : M A) (k : A -> M B) s a :
  flow_of (m s) = Normal a ->
  bind m k s = prepend (events_of (m s)) (k a (state_of (m s))).
Proof. unfold bind, prepend. now intros ->. Qed.

Lemma bind_thrown {A B} (m : M A) (k : A -> M B) s :
  flow_of (m s) = Thrown ->
  bind m k s = mkResult Thrown (state_of (m s)) (events_of (m s)).
Proof. unfold bind. now intros ->. Qed.

Lemma catch_thrown (m h : M unit) s :
  flow_of (m s) = Thrown ->
  catch m h s = prepend (events_of (m s)) (h (state_of (m s))).
Proof. unfold catch, prepend. now intros ->. Qed.

Lemma catch_normal (m h : M unit) s a :
  flow_of (m s) = Normal a -> catch m h s = m s.
Proof. unfold catch. now intros ->. Qed.

Lemma flow_of_prepend {A} ev (r : Result A) : flow_of (prepend ev r) = flow_of r.
Proof. reflexivity. Qed.

Lemma state_of_prepend {A} ev (r : Result A) : state_of (prepend ev r) = state_of r.
Proof. reflexivity. Qed.

Lemma events_of_prepend {A} ev (r : Result A) :
  events_of (prepend ev r) = ev ++ events_of r.
Proof. reflexivity. Qed.

End Running.

(** Run a task forward past its primitives. *)
Ltac run1 :=
  first [ rewrite bind_get | rewrite bind_put | rewrite bind_modify
        | rewrite bind_ret | rewrite bind_emit | rewrite bind_ASSERT_true
        | rewrite bind_ASSERT_false | rewrite bind_throw
        | rewrite flow_of_prepend | rewrite state_of_prepend
        | rewrite events_of_prepend ].
Ltac run := repeat (run1; cbv beta iota zeta).

Section Properties.
Context {L : Mrpt}.
Variable params_ : Parameters.

(** *** The motion estimate is out of reach of the keyframe search *)

#[local] Instance keeps_motion_frame : Frame keeps_motion.
Proof.
  split.
  - intros s. repeat split; auto.
  - intros s1 e1 s2 e2 s3 (A1 & B1 & C1 & D1) (A2 & B2 & C2 & D2).
    repeat split; try congruence.
    intros kf H. apply in_app_or in H as [H|H]; [eapply D1 | eapply D2]; eauto.
Qed.

Ltac motion_leaf :=
  repeat split; try reflexivity;
  let kf := fresh in let H := fresh in
  intros kf H; cbn in H; intuition discriminate.

Lemma evict_loop_keeps_motion adj from_far s :
  respects_at keeps_motion (evict_loop params_ adj from_far) s.
Proof.
  revert s. induction from_far as [|[d id] rest IH]; intros s; cbn [evict_loop];
    repeat frame_step; try motion_leaf; apply IH.
Qed.

Lemma checkForNearbyKFs_keeps_motion E s :
  respects_at keeps_motion (checkForNearbyKFs params_ E) s.
Proof.
  unfold checkForNearbyKFs, edge_already_exists, send_for_check.
  repeat first [ apply evict_loop_keeps_motion | frame_step ]; try motion_leaf.
Qed.

(** *** Keyframe promotion *)

Lemma register_and_promote_unfold E o t_this t_last pts lpts s :
  let dt := scan_dt t_last t_this in
  let icp_out := run_one_icp params_ E
                   (mkICPIn pts lpts (odometry_guess (last_iter_twist s) dt)) in
  let rel_pose := found_pose_to_wrt_from icp_out in
  let s2 := set_accum (compose (accum_since_last_kf s) rel_pose)
              (set_twist (updated_twist (last_iter_twist s) rel_pose dt) s) in
  register_and_promote params_ E o t_this t_last pts lpts s =
  bind (if should_create_KF params_ (goodness icp_out) (norm (accum_since_last_kf s2))
        then create_KF E o t_this pts else ret tt)
       (fun _ => bind get (fun s =>
          if (1 <? StdMap.size (local_pcs s))%N
          then checkForNearbyKFs params_ E else ret tt)) s2.
Proof.
  cbv zeta. unfold register_and_promote. cbv zeta.
  rewrite bind_get, bind_modify, bind_modify, bind_get. reflexivity.
Qed.

Lemma search_keeps_motion E s :
  respects_at keeps_motion
    (bind get (fun s => if (1 <? StdMap.size (local_pcs s))%N
                        then checkForNearbyKFs params_ E else ret tt)) s.
Proof.
  repeat first [ apply checkForNearbyKFs_keeps_motion | frame_step ].
Qed.

Lemma factor_accepted_asserts E f :
  factor_accepted E f <->
  f_success (addFactor E f) = true /\
  valid_factor_id (new_factor_id (addFactor E f)) = true.
Proof.
  unfold factor_accepted, valid_factor_id.
  destruct (new_factor_id (addFactor E f)) as [fid|].
  - split; intros [H1 H2]; (split; [exact H1|]).
    + destruct H2 as (fid' & [= <-] & Hv). now apply negb_true_iff, N.eqb_neq.
    + exists fid. split; [reflexivity|]. now apply negb_true_iff, N.eqb_neq in H2.
  - split; intros [H1 H2]; [destruct H2 as (fid & H & _)|]; discriminate.
Qed.

Lemma create_KF_requests E o t pts s :
  exists tl, events_of (create_KF E o t pts s) = EvAddKeyFrame (mkKFIn t [o]) :: tl.
Proof. unfold create_KF. cbv zeta. run. eexists. reflexivity. Qed.

#[local] Instance asks_only_for_frame kf0 : Frame (asks_only_for kf0).
Proof.
  split; unfold asks_only_for.
  - intros s kf [].
  - intros s1 e1 s2 e2 s3 H1 H2 kf H.
    apply in_app_or in H as [H|H]; auto.
Qed.

#[local] Instance completes_nothing_frame : Frame completes_nothing.
Proof.
  split; unfold completes_nothing, promotion_completed.
  - intros s [].
  - intros s1 e1 s2 e2 s3 H1 H2 H.
    apply in_app_or in H as [H|H]; auto.
Qed.

Lemma create_KF_asks_once E o t pts s :
  respects_at (asks_only_for (mkKFIn t [o])) (create_KF E o t pts) s.
Proof.
  unfold create_KF. repeat frame_step.
  all: let kf := fresh in let H := fresh in
       intros kf H; cbn in H;
       repeat (destruct H as [H|H]; [first [now injection H | discriminate H]|]);
       destruct H.
Qed.

Ltac quiet_leaf :=
  let H := fresh in
  intros H; cbn in H;
  repeat (destruct H as [H|H]; [discriminate H|]); destruct H.

Lemma evict_loop_completes_nothing adj from_far s :
  respects_at completes_nothing (evict_loop params_ adj from_far) s.
Proof.
  revert s. induction from_far as [|[d id] rest IH]; intros s; cbn [evict_loop];
    repeat frame_step; try quiet_leaf; apply IH.
Qed.

Lemma search_completes_nothing E s :
  respects_at completes_nothing
    (bind get (fun s => if (1 <? StdMap.size (local_pcs s))%N
                        then checkForNearbyKFs params_ E else ret tt)) s.
Proof.
  unfold checkForNearbyKFs, edge_already_exists, send_for_check.
  repeat first [ apply evict_loop_completes_nothing | frame_step ]; quiet_leaf.
Qed.

Lemma create_KF_success E o t pts s id :
  backend_mints E (mkKFIn t [o]) id ->
  (last_kf s = INVALID_ID \/
   factor_accepted E (mkFactor (last_kf s) id (asTPose (accum_since_last_kf s)))) ->
  let r := create_KF E o t pts s in
  flow_of r = Normal tt /\
  accum_since_last_kf (state_of r) = CPose3D_Identity /\
  last_kf (state_of r) = id /\
  promotion_completed (events_of r).
Proof.
  intros (Hs & Hid & Hv) Hf r. subst r. unfold create_KF, promotion_completed. cbv zeta.
  apply N.eqb_neq in Hv.
  rewrite Hs, Hid. unfold valid_kf_id. rewrite Hv. cbn [negb]. run.
  cbn [last_kf set_local_pcs accum_since_last_kf].
  destruct (last_kf s =? INVALID_ID)%N eqn:Ek; cbn [negb]; run.
  - cbn. auto 10.
  - destruct Hf as [Hf | Hf].
    + apply N.eqb_eq in Hf. congruence.
    + apply factor_accepted_asserts in Hf. destruct Hf as (Hf1 & Hf2).
      rewrite Hf1, Hf2. run. cbn. auto 10.
Qed.

Lemma events_of_bind {A B} (m : M A) (k : A -> M B) s :
  exists tl, events_of (bind m k s) = events_of (m s) ++ tl.
Proof.
  unfold bind. destruct (flow_of (m s)); cbn.
  - eexists. reflexivity.
  - exists []. now rewrite app_nil_r.
  - exists []. now rewrite app_nil_r.
Qed.

Lemma create_KF_keyframe_rejected E o t pts s :
  kf_success (addKeyFrame E (mkKFIn t [o])) = false \/
  valid_kf_id (new_kf_id (addKeyFrame E (mkKFIn t [o]))) = false ->
  create_KF E o t pts s = mkResult Thrown s [EvAddKeyFrame (mkKFIn t [o])].
Proof.
  intros H. unfold create_KF. cbv zeta. run.
  destruct (kf_success _) eqn:F1; run; [|reflexivity].
  destruct H as [H|H]; [discriminate|]. rewrite H. run. reflexivity.
Qed.

Lemma create_KF_factor_rejected E o t pts s id :
  backend_mints E (mkKFIn t [o]) id ->
  last_kf s <> INVALID_ID ->
  ~ factor_accepted E (mkFactor (last_kf s) id (asTPose (accum_since_last_kf s))) ->
  let r := create_KF E o t pts s in
  flow_of r = Thrown /\
  events_of r = [EvAddKeyFrame (mkKFIn t [o]);
                 EvAddFactor (mkFactor (last_kf s) id (asTPose (accum_since_last_kf s)))] /\
  state_of r = set_local_pcs (StdMap.assign N.ltb id (Some pts) (local_pcs s)) s.
Proof.
  intros (Hs & Hid & Hv) Hk Hf r. subst r. unfold create_KF. cbv zeta.
  apply N.eqb_neq in Hv. apply N.eqb_neq in Hk.
  rewrite Hs, Hid. unfold valid_kf_id. rewrite Hv. cbn [negb]. run.
  cbn [last_kf set_local_pcs accum_since_last_kf]. rewrite Hk. cbn [negb]. run.
  rewrite factor_accepted_asserts in Hf.
  destruct (f_success _) eqn:F1; run; [|cbn; auto].
  destruct (valid_factor_id _) eqn:F2; run; [|cbn; auto].
  exfalso. auto.
Qed.

(** The promotion block either goes through to its end, or stops at one
    of its assertions with the accumulated pose and [last_kf] as they
    were. *)
Lemma create_KF_cases E o t pts s :
  let kf := mkKFIn t [o] in
  let granted id :=
    backend_mints E kf id /\
    (last_kf s = INVALID_ID \/
     factor_accepted E (mkFactor (last_kf s) id (asTPose (accum_since_last_kf s)))) in
  let r := create_KF E o t pts s in
  (exists id, granted id /\ flow_of r = Normal tt /\ promotion_completed (events_of r)) \/
  ((forall id, ~ granted id) /\
   flow_of r = Thrown /\ ~ promotion_completed (events_of r) /\
   accum_since_last_kf (state_of r) = accum_since_last_kf s /\
   last_kf (state_of r) = last_kf s).
Proof.
  intros kf granted r.
  destruct (kf_success (addKeyFrame E kf)) eqn:F1.
  2: { right. subst r.
       rewrite (@create_KF_keyframe_rejected E o t pts s) by (left; exact F1).
       cbn [flow_of events_of state_of]. splits; auto.
       - intros id ((Hs & _) & _). fold kf in Hs. congruence.
       - quiet_leaf. }
  destruct (valid_kf_id (new_kf_id (addKeyFrame E kf))) eqn:F2.
  2: { right. subst r.
       rewrite (@create_KF_keyframe_rejected E o t pts s) by (right; exact F2).
       cbn [flow_of events_of state_of]. splits; auto.
       - intros id ((_ & Hid & Hv) & _). fold kf in Hid. rewrite Hid in F2.
         cbn in F2. apply negb_false_iff, N.eqb_eq in F2. contradiction.
       - quiet_leaf. }
  destruct (new_kf_id (addKeyFrame E kf)) as [id|] eqn:Fid; [|discriminate].
  assert (Hm : backend_mints E kf id).
  { unfold backend_mints. rewrite Fid. splits; auto.
    cbn in F2. now apply negb_true_iff, N.eqb_neq in F2. }
  assert (Hdec :
    (last_kf s = INVALID_ID \/
     factor_accepted E (mkFactor (last_kf s) id (asTPose (accum_since_last_kf s)))) \/
    (last_kf s <> INVALID_ID /\
     ~ factor_accepted E (mkFactor (last_kf s) id (asTPose (accum_since_last_kf s))))).
  { destruct (N.eq_dec (last_kf s) INVALID_ID) as [Hk|Hk]; [left; now left|].
    rewrite factor_accepted_asserts.
    destruct (f_success _); [destruct (valid_factor_id _)|].
    - left. right. auto.
    - right. split; [exact Hk | intros [_ H]; discriminate].
    - right. split; [exact Hk | intros [H _]; discriminate]. }
  destruct Hdec as [Hok | (Hk & Hrej)].
  - left. exists id.
    destruct (@create_KF_success E o t pts s id Hm Hok) as (Hfl & _ & _ & Hdone).
    subst r. unfold granted. auto.
  - right.
    destruct (@create_KF_factor_rejected E o t pts s id Hm Hk Hrej) as (Hfl & Hev & Hst).
    subst r. rewrite Hev, Hst. splits; auto.
    + intros id' ((_ & Hid' & _) & Hok). fold kf in Hid'. rewrite Fid in Hid'.
      injection Hid' as <-. destruct Hok as [Hok|Hok]; contradiction.
    + quiet_leaf.
Qed.

(** C3, amended. A registered scan pair asks the back-end for a new
    keyframe exactly when the goodness exceeds [min_icp_goodness] and the
    norm of the accumulated pose, the new relative pose composed on,
    exceeds [min_dist_xyz_between_keyframes].  The keyframe is minted
    exactly when, in addition, the back-end answers with success and a
    valid id, and the promotion is completed exactly when, further, there
    is no previous keyframe or the back-end accepts the odometry factor.
    After a completed promotion the accumulated pose is the identity and
    [last_kf] is the new id; otherwise the accumulated pose keeps the
    composed displacement and [last_kf] its value. *)
Theorem C3_keyframe_promotion E o t_this t_last pts lpts s :
  let dt := scan_dt t_last t_this in
  let icp_out := run_one_icp params_ E
                   (mkICPIn pts lpts (odometry_guess (last_iter_twist s) dt)) in
  let accum := compose (accum_since_last_kf s) (found_pose_to_wrt_from icp_out) in
  let wanted := (min_icp_goodness params_ <? goodness icp_out)%float = true /\
                (min_dist_xyz_between_keyframes params_ <? norm accum)%float = true in
  let kf := mkKFIn t_this [o] in
  let factor_granted id :=
    last_kf s = INVALID_ID \/
    factor_accepted E (mkFactor (last_kf s) id (asTPose accum)) in
  let r := register_and_promote params_ E o t_this t_last pts lpts s in
  (keyframe_requested (events_of r) <-> wanted) /\
  (forall id, keyframe_minted E (events_of r) id <-> wanted /\ backend_mints E kf id) /\
  (promotion_completed (events_of r) <->
     wanted /\ exists id, backend_mints E kf id /\ factor_granted id) /\
  (forall id,
     wanted -> backend_mints E kf id -> factor_granted id ->
     accum_since_last_kf (state_of r) = CPose3D_Identity /\
     last_kf (state_of r) = id) /\
  (~ promotion_completed (events_of r) ->
     accum_since_last_kf (state_of r) = accum /\
     last_kf (state_of r) = last_kf s).
Proof.
  intros dt icp_out accum wanted kf factor_granted r.
  pose proof (register_and_promote_unfold E o t_this t_last pts lpts s) as U.
  cbv zeta in U. fold dt icp_out in U. fold r in U.
  set (s2 := set_accum _ _) in U.
  change (accum_since_last_kf s2) with accum in U.
  set (tail := fun _ : unit => bind get _) in U.
  assert (Hw : wanted <-> should_create_KF params_ (goodness icp_out) (norm accum) = true).
  { unfold wanted, should_create_KF. now rewrite andb_true_iff. }
  pose proof (create_KF_cases E o t_this pts s2) as Hcases. cbv beta zeta in Hcases.
  change (accum_since_last_kf s2) with accum in Hcases.
  change (last_kf s2) with (last_kf s) in Hcases.
  fold kf in Hcases.
  pose proof (@create_KF_asks_once E o t_this pts s2) as Honce.
  unfold respects_at, asks_only_for in Honce. fold kf in Honce.
  destruct (create_KF_requests E o t_this pts s2) as [tl Htl]. fold kf in Htl.
  destruct (should_create_KF params_ (goodness icp_out) (norm accum)) eqn:C.
  - (* the keyframe is wanted *)
    assert (W : wanted) by now apply Hw.
    destruct Hcases as [(id & (Hm & Hg) & Hfl & Hdone) |
                        (Hno & Hfl & Hnot & Hacc & Hkf)].
    + (* ... and the promotion goes through *)
      destruct (@create_KF_success E o t_this pts s2 id Hm Hg) as (_ & Ha & Hk & _).
      pose proof (search_keeps_motion E (state_of (create_KF E o t_this pts s2)))
        as (Ha' & Hk' & _ & Hno').
      assert (Hev : events_of r =
                    events_of (create_KF E o t_this pts s2) ++
                    events_of (tail tt (state_of (create_KF E o t_this pts s2)))).
      { rewrite U, (bind_normal _ _ _ Hfl). reflexivity. }
      assert (Hst : state_of r = state_of (tail tt (state_of (create_KF E o t_this pts s2)))).
      { rewrite U, (bind_normal _ _ _ Hfl). reflexivity. }
      splits.
      * split; [intros _; exact W|]. intros _. exists kf. rewrite Hev, Htl. now left.
      * intros id'. split.
        -- intros (kf' & Hin & Hm'). split; [exact W|].
           rewrite Hev in Hin. apply in_app_or in Hin as [Hin|Hin].
           ++ now rewrite <- (Honce kf' Hin).
           ++ exfalso. exact (Hno' kf' Hin).
        -- intros (_ & Hm'). exists kf. split; [|exact Hm'].
           rewrite Hev, Htl. now left.
      * split; [intros _; split; [exact W | exists id; auto]|].
        intros _. unfold promotion_completed. rewrite Hev. apply in_or_app. now left.
      * intros id' _ Hm' Hg'.
        assert (id' = id).
        { destruct Hm as (_ & H1 & _), Hm' as (_ & H2 & _). congruence. }
        subst id'. rewrite Hst. unfold tail. split; congruence.
      * intros Hnot. exfalso. apply Hnot. unfold promotion_completed.
        rewrite Hev. apply in_or_app. now left.
    + (* ... and the promotion stops at an assertion *)
      assert (Hr : r = mkResult Thrown (state_of (create_KF E o t_this pts s2))
                                (events_of (create_KF E o t_this pts s2))).
      { rewrite U. apply (bind_thrown _ _ _ Hfl). }
      rewrite Hr. cbn [events_of state_of]. splits.
      * split; [intros _; exact W|]. intros _. exists kf. rewrite Htl. now left.
      * intros id'. split.
        -- intros (kf' & Hin & Hm'). split; [exact W|].
           now rewrite <- (Honce kf' Hin).
        -- intros (_ & Hm'). exists kf. split; [|exact Hm']. rewrite Htl. now left.
      * split; [intros H; contradiction|].
        intros (_ & id' & Hm' & Hg'). exfalso. apply (Hno id'). split; assumption.
      * intros id' _ Hm' Hg'. exfalso. apply (Hno id'). split; assumption.
      * intros _. split; assumption.
  - (* no keyframe is wanted *)
    assert (NW : ~ wanted) by (rewrite Hw; discriminate).
    assert (Hr : r = tail tt s2) by (rewrite U; reflexivity).
    pose proof (search_keeps_motion E s2) as (Ha' & Hk' & _ & Hno').
    pose proof (search_completes_nothing E s2) as Hquiet.
    unfold respects_at, completes_nothing in Hquiet.
    rewrite Hr. unfold tail. splits.
    + split; [|intros W; contradiction]. intros [kf' H]. exfalso. exact (Hno' kf' H).
    + intros id'. split; [|intros [W _]; contradiction].
      intros (kf' & H & _). exfalso. exact (Hno' kf' H).
    + split; [intros H; contradiction | intros [W _]; contradiction].
    + intros id' W. contradiction.
    + intros _. split; assumption.
Qed.

(** *** The task up to the registration *)

Lemma try_registers E o s lp pts :
  too_close_in_time params_ s (timestamp o) = false ->
  last_points s = Some lp ->
  insertObservationPtr E o = (true, pts) ->
  doProcessNewObservation_try params_ E o s =
  register_and_promote params_ E o (timestamp o) (last_obs_tim s) pts lp
    (set_obs (Some o) (timestamp o) (Some pts) s).
Proof.
  intros Hclose Hlp Hconv. unfold doProcessNewObservation_try.
  rewrite bind_get. cbv zeta. rewrite Hclose, Hconv. cbv beta iota.
  rewrite bind_put, Hlp. reflexivity.
Qed.

(** *** A factor turned down after the keyframe was minted *)

(** C10. When the keyframe has been minted but the back-end turns the
    odometry factor down (no success, or no valid factor id), the assertion
    ends the task at its catch: the new cloud is already in [local_pcs],
    the accumulated pose still holds the whole displacement and [last_kf]
    is the previous keyframe. *)
Theorem C10_promotion_not_atomic E o s lp pts id :
  too_close_in_time params_ s (timestamp o) = false ->
  last_points s = Some lp ->
  insertObservationPtr E o = (true, pts) ->
  let dt := scan_dt (last_obs_tim s) (timestamp o) in
  let icp_out := run_one_icp params_ E
                   (mkICPIn pts lp (odometry_guess (last_iter_twist s) dt)) in
  let accum := compose (accum_since_last_kf s) (found_pose_to_wrt_from icp_out) in
  should_create_KF params_ (goodness icp_out) (norm accum) = true ->
  backend_mints E (mkKFIn (timestamp o) [o]) id ->
  last_kf s <> INVALID_ID ->
  ~ factor_accepted E (mkFactor (last_kf s) id (asTPose accum)) ->
  let r := doProcessNewObservation params_ E o s in
  flow_of r = Normal tt /\
  events_of r = [EvAddKeyFrame (mkKFIn (timestamp o) [o]);
                 EvAddFactor (mkFactor (last_kf s) id (asTPose accum));
                 EvLog LVL_ERROR "Exception"] /\
  local_pcs (state_of r) = StdMap.assign N.ltb id (Some pts) (local_pcs s) /\
  accum_since_last_kf (state_of r) = accum /\
  last_kf (state_of r) = last_kf s.
Proof.
  intros Hclose Hlp Hconv dt icp_out accum Hcreate Hm Hk Hf r.
  assert (Hthrown :
    exists s3,
      flow_of (doProcessNewObservation_try params_ E o s) = Thrown /\
      events_of (doProcessNewObservation_try params_ E o s) =
        [EvAddKeyFrame (mkKFIn (timestamp o) [o]);
         EvAddFactor (mkFactor (last_kf s) id (asTPose accum))] /\
      state_of (doProcessNewObservation_try params_ E o s) = s3 /\
      local_pcs s3 = StdMap.assign N.ltb id (Some pts) (local_pcs s) /\
      accum_since_last_kf s3 = accum /\ last_kf s3 = last_kf s).
  { rewrite (try_registers E o s Hclose Hlp Hconv).
    rewrite register_and_promote_unfold. cbv zeta.
    cbn [last_iter_twist accum_since_last_kf set_obs set_accum set_twist].
    fold dt. fold icp_out. fold accum. rewrite Hcreate.
    match goal with
    | |- context [bind (create_KF E o (timestamp o) pts) ?k ?s2] =>
        destruct (@create_KF_factor_rejected E o (timestamp o) pts s2 id Hm Hk Hf)
          as (Hfl & Hev & Hst);
        rewrite (bind_thrown _ k s2 Hfl)
    end.
    eexists. split; [reflexivity|]. split; [exact Hev|].
    split; [exact Hst|]. cbn. auto. }
  destruct Hthrown as (s3 & Hfl & Hev & Hst & H1 & H2 & H3).
  subst r. unfold doProcessNewObservation.
  rewrite (catch_thrown _ _ _ Hfl), Hev, Hst.
  unfold log_exception, prepend, emit. cbn. auto.
Qed.

(** *** A scan that does not convert *)

Lemma failed_conversion_run E o s lp pts :
  too_close_in_time params_ s (timestamp o) = false ->
  last_points s = Some lp ->
  insertObservationPtr E o = (false, pts) ->
  doProcessNewObservation params_ E o s =
  mkResult (Normal tt) (set_obs (Some o) (timestamp o) (Some pts) s)
    [EvLog LVL_WARN
       "Observation could not be converted into a pointcloud. Doing nothing."].
Proof.
  intros Hclose Hlp Hconv.
  unfold doProcessNewObservation, doProcessNewObservation_try.
  erewrite catch_normal.
  - rewrite bind_get. cbv zeta. rewrite Hclose, Hconv. cbv beta iota.
    rewrite bind_put, Hlp. reflexivity.
  - rewrite bind_get. cbv zeta. rewrite Hclose, Hconv. cbv beta iota.
    rewrite bind_put, Hlp. reflexivity.
Qed.

(** *** Two scans with one time stamp *)

#[local] Instance keeps_twist_frame : Frame keeps_twist.
Proof.
  split; unfold keeps_twist; [reflexivity | congruence].
Qed.

Lemma create_KF_keeps_twist E o t pts s :
  respects_at keeps_twist (create_KF E o t pts) s.
Proof.
  unfold create_KF. repeat frame_step; reflexivity.
Qed.

Lemma search_keeps_twist E s :
  respects_at keeps_twist
    (bind get (fun s => if (1 <? StdMap.size (local_pcs s))%N
                        then checkForNearbyKFs params_ E else ret tt)) s.
Proof. apply (search_keeps_motion E s). Qed.

Lemma register_and_promote_twist E o t_this t_last pts lpts s :
  let dt := scan_dt t_last t_this in
  let icp_out := run_one_icp params_ E
                   (mkICPIn pts lpts (odometry_guess (last_iter_twist s) dt)) in
  last_iter_twist (state_of (register_and_promote params_ E o t_this t_last pts lpts s)) =
  updated_twist (last_iter_twist s) (found_pose_to_wrt_from icp_out) dt.
Proof.
  intros dt icp_out. rewrite register_and_promote_unfold. cbv zeta.
  match goal with
  | |- last_iter_twist (state_of (bind ?m ?k ?s2)) = _ =>
      assert (H : respects_at keeps_twist (bind m k) s2)
  end.
  { apply at_bind.
    - destruct (should_create_KF _ _ _);
        [apply create_KF_keeps_twist | apply at_ret].
    - intros _ _. apply search_keeps_twist. }
  exact H.
Qed.

Lemma state_of_catch_log (m : M unit) s :
  state_of (catch m log_exception s) = state_of (m s).
Proof. unfold catch. destruct (flow_of (m s)); reflexivity. Qed.

(** C9, amended. With [min_time_between_scans] at 0, a scan that carries
    the time stamp of the previous one is accepted and registered with
    [dt = 0]: the guess handed to the registration is the twist times 0,
    and the twist stored afterwards is the registered translation divided
    by 0, so that [vx], [vy], [vz] are not finite whatever the twist was
    before.  The guess is the identity exactly when the twist kept from
    before is finite. *)
Theorem C9_same_timestamp_twist E o s lp pts :
  min_time_between_scans params_ = 0%float ->
  timestamp o = last_obs_tim s ->
  last_points s = Some lp ->
  insertObservationPtr E o = (true, pts) ->
  let tw := last_iter_twist s in
  let guess := mkTPose3D (vx tw * 0) (vy tw * 0) (vz tw * 0) 0 0 0 in
  let rel_pose :=
    found_pose_to_wrt_from (run_one_icp params_ E (mkICPIn pts lp guess)) in
  let r := doProcessNewObservation params_ E o s in
  too_close_in_time params_ s (timestamp o) = false /\
  odometry_guess tw (scan_dt (last_obs_tim s) (timestamp o)) = guess /\
  last_iter_twist (state_of r) =
    mkTTwist3D (pose_x rel_pose / 0) (pose_y rel_pose / 0) (pose_z rel_pose / 0)
               (wx tw) (wy tw) (wz tw) /\
  linear_non_finite (last_iter_twist (state_of r)) /\
  (guess_is_identity guess <-> linear_finite tw).
Proof.
  intros Hmin Ht Hlp Hconv tw guess rel_pose r.
  assert (Hclose : too_close_in_time params_ s (timestamp o) = false).
  { unfold too_close_in_time. rewrite Hmin, Ht, timeDifference_same.
    apply andb_false_r. }
  assert (Htw : last_iter_twist (state_of r) =
                mkTTwist3D (pose_x rel_pose / 0) (pose_y rel_pose / 0)
                           (pose_z rel_pose / 0) (wx tw) (wy tw) (wz tw)).
  { subst r. unfold doProcessNewObservation.
    rewrite state_of_catch_log, (try_registers E o s Hclose Hlp Hconv).
    rewrite register_and_promote_twist.
    rewrite Ht, scan_dt_same. reflexivity. }
  splits.
  - exact Hclose.
  - rewrite Ht, scan_dt_same. reflexivity.
  - exact Htw.
  - rewrite Htw. unfold linear_non_finite. cbn [vx vy vz].
    splits; apply div_zero_not_finite.
  - unfold guess_is_identity, linear_finite, guess.
    cbn [tp_x tp_y tp_z tp_yaw tp_pitch tp_roll].
    rewrite !mul_zero_is_zero. split.
    + intros (Hx & Hy & Hz & _). auto.
    + intros (Hx & Hy & Hz). splits; auto.
Qed.

(** *** The probe worker *)

Lemma app_singleton_neq {A} (l : list A) (x : A) : l <> l ++ [x].
Proof.
  intros H. apply (f_equal (@List.length A)) in H.
  rewrite length_app in H. cbn in H. lia.
Qed.

Lemma probe_run E d s pf pt :
  from_pc d = Some pf ->
  to_pc d = Some pt ->
  let icp_out := run_one_icp params_ E (mkICPIn pt pf (d_init_guess_to_wrt_from d)) in
  let rel_pose := found_pose_to_wrt_from icp_out in
  let ratio := correction_percent rel_pose (CPose3D_from (d_init_guess_to_wrt_from d)) in
  let f := mkFactor (from_id d) (to_id d) (asTPose rel_pose) in
  doCheckForNonAdjacentKFs params_ E d s =
  if accept_edge params_ (goodness icp_out) ratio then
    if f_success (addFactor E f) && valid_factor_id (new_factor_id (addFactor E f))
    then mkResult (Normal tt)
           (set_graph (insertEdgeAtEnd (from_id d) (to_id d) rel_pose
                                       (local_pose_graph s)) s)
           [EvAddFactor f]
    else mkResult (Normal tt) s [EvAddFactor f; EvLog LVL_ERROR "Exception"]
  else mkResult (Normal tt) s [].
Proof.
  intros Hf Ht icp_out rel_pose ratio f.
  unfold doCheckForNonAdjacentKFs, doCheckForNonAdjacentKFs_try.
  rewrite Hf, Ht. cbv zeta. fold icp_out. fold rel_pose. fold ratio. fold f.
  destruct (accept_edge params_ (goodness icp_out) ratio); [|reflexivity].
  destruct (f_success (addFactor E f)) eqn:F1;
    [destruct (valid_factor_id (new_factor_id (addFactor E f))) eqn:F2|];
    cbn [andb].
  - erewrite catch_normal; run; rewrite ?F1, ?F2; run; reflexivity.
  - rewrite catch_thrown; run; rewrite ?F1, ?F2; run; reflexivity.
  - rewrite catch_thrown; run; rewrite ?F1; run; reflexivity.
Qed.

(** C6, amended. A probe task whose two clouds are there submits a factor
    exactly when the goodness exceeds [min_icp_goodness] and the correction
    ratio, the norm of the registered pose minus the guess over the norm of
    the guess plus 0.01, is below 0.20; the factor goes from [from_id] to
    [to_id] with the registered pose; and the edge enters the local graph
    exactly when, in addition, the back-end accepts that factor.  A probe
    with goodness 0.9 and ratio 0.35 submits nothing. *)
Theorem C6_probe_acceptance E d s pf pt :
  from_pc d = Some pf ->
  to_pc d = Some pt ->
  let icp_out := run_one_icp params_ E (mkICPIn pt pf (d_init_guess_to_wrt_from d)) in
  let rel_pose := found_pose_to_wrt_from icp_out in
  let init_guess := CPose3D_from (d_init_guess_to_wrt_from d) in
  let ratio :=
    (norm (inverse_compose rel_pose init_guess) / (norm init_guess + 0.01))%float in
  let accept := (min_icp_goodness params_ <? goodness icp_out)%float = true /\
                (ratio <? 0.20)%float = true in
  let r := doCheckForNonAdjacentKFs params_ E d s in
  (factor_submitted (events_of r) <-> accept) /\
  (forall f, In (EvAddFactor f) (events_of r) ->
             f = mkFactor (from_id d) (to_id d) (asTPose rel_pose)) /\
  (edge_inserted s (state_of r) (from_id d) (to_id d) rel_pose <->
     accept /\
     factor_accepted E (mkFactor (from_id d) (to_id d) (asTPose rel_pose))) /\
  (goodness icp_out = 0.9%float -> ratio = 0.35%float ->
     ~ factor_submitted (events_of r)).
Proof.
  intros Hf Ht icp_out rel_pose init_guess ratio accept r.
  assert (Hacc : accept <-> accept_edge params_ (goodness icp_out) ratio = true).
  { unfold accept, accept_edge. now rewrite andb_true_iff. }
  assert (H035 : ratio = 0.35%float ->
                 accept_edge params_ (goodness icp_out) ratio = false).
  { intros ->. unfold accept_edge. apply andb_false_r. }
  subst r. rewrite (probe_run E d s Hf Ht). cbv zeta.
  fold icp_out. fold rel_pose. fold init_guess.
  change (correction_percent rel_pose init_guess) with ratio.
  unfold factor_submitted, edge_inserted.
  rewrite factor_accepted_asserts, Hacc.
  destruct (accept_edge params_ (goodness icp_out) ratio) eqn:A.
  - destruct (f_success _) eqn:F1;
      [destruct (valid_factor_id _) eqn:F2|]; cbn [andb events_of state_of].
    + splits.
      * split; [reflexivity | intros _; eexists; left; reflexivity].
      * intros f [[= <-]|[]]. reflexivity.
      * split; [auto | reflexivity].
      * intros _ Hr. apply H035 in Hr. discriminate.
    + splits.
      * split; [reflexivity | intros _; eexists; left; reflexivity].
      * intros f [[= <-]|[[=]|[]]]. reflexivity.
      * split; [|intros (_ & _ & H); discriminate].
        intros H. exfalso. revert H. apply app_singleton_neq.
      * intros _ Hr. apply H035 in Hr. discriminate.
    + splits.
      * split; [reflexivity | intros _; eexists; left; reflexivity].
      * intros f [[= <-]|[[=]|[]]]. reflexivity.
      * split; [|intros (_ & H & _); discriminate].
        intros H. exfalso. revert H. apply app_singleton_neq.
      * intros _ Hr. apply H035 in Hr. discriminate.
  - cbn [events_of state_of]. splits.
    + split; [intros [f []] | discriminate].
    + intros f [].
    + split; [|intros [H _]; discriminate].
      intros H. exfalso. revert H. apply app_singleton_neq.
    + intros _ _ [f []].
Qed.

(** *** Nodes and clouds *)

#[local] Instance keeps_coherence_frame : Frame keeps_coherence.
Proof.
  split; unfold keeps_coherence.
  - auto.
  - intros s1 e1 s2 e2 s3 [A1 B1] [A2 B2]. split; [auto | congruence].
Qed.

#[local] Instance only_asks_frame : Frame only_asks.
Proof.
  split; unfold only_asks.
  - auto.
  - intros s1 e1 s2 e2 s3 [A1 B1] [A2 B2]. split; [congruence|].
    intros d H. apply in_app_or in H as [H|H]; [eapply B1 | eapply B2]; eauto.
Qed.

Lemma evict_one_same_keys adj id s : same_keys s -> same_keys (evict_one adj id s).
Proof.
  unfold same_keys, evict_one. intros H k.
  cbn [local_pose_graph local_pcs set_local_pcs set_graph nodes].
  rewrite !keys_erase, H. reflexivity.
Qed.

Lemma evict_loop_keeps_coherence adj from_far s :
  respects_at keeps_coherence (evict_loop params_ adj from_far) s.
Proof.
  revert s. induction from_far as [|[d id] rest IH]; intros s; cbn [evict_loop];
    repeat frame_step; try apply IH.
  split; [apply evict_one_same_keys | reflexivity].
Qed.

Lemma edge_already_exists_only_asks E kf_id s :
  respects_at only_asks (edge_already_exists E kf_id) s.
Proof.
  unfold edge_already_exists. repeat frame_step.
  all: split; [reflexivity|];
    let d := fresh "d" in let Hin := fresh "Hin" in
    intros d Hin; cbn in Hin; intuition discriminate.
Qed.

Lemma edge_already_exists_returns E kf_id s :
  (Z.abs (to_int64 kf_id - to_int64 (root (local_pose_graph s))) <? 2 ^ 63)%Z = true ->
  exists b, flow_of (edge_already_exists E kf_id s) = Normal b.
Proof.
  intros Hfit. unfold edge_already_exists. rewrite bind_get. cbv zeta.
  rewrite Hfit. cbn [negb].
  destruct (worldmodel_ E) as [wm|]; [|eexists; reflexivity].
  destruct (negb _); [|eexists; reflexivity].
  run. destruct (existsb _ _); run; eexists; reflexivity.
Qed.

Lemma edge_already_exists_overflow E kf_id s :
  (Z.abs (to_int64 kf_id - to_int64 (root (local_pose_graph s))) <? 2 ^ 63)%Z = false ->
  edge_already_exists E kf_id s = mkResult Undefined s [].
Proof.
  intros Hfit. unfold edge_already_exists. rewrite bind_get. cbv zeta.
  rewrite Hfit. reflexivity.
Qed.

Lemma edge_already_exists_flow E kf_id s :
  (exists b, flow_of (edge_already_exists E kf_id s) = Normal b) \/
  flow_of (edge_already_exists E kf_id s) = Undefined.
Proof.
  destruct (Z.abs (to_int64 kf_id - to_int64 (root (local_pose_graph s))) <? 2 ^ 63)%Z
    eqn:Hfit.
  - left. now apply edge_already_exists_returns.
  - right. now rewrite edge_already_exists_overflow.
Qed.

Lemma send_for_check_run kf_id s :
  let lpg := local_pose_graph s in
  let to := StdMap.subscript N.ltb None kf_id (local_pcs s) in
  let from := StdMap.subscript N.ltb None (root lpg) (snd to) in
  let guess := StdMap.subscript N.ltb CPose3D_Identity kf_id (nodes lpg) in
  send_for_check kf_id s =
  mkResult (Normal tt)
    (set_checked (pairs_insert (pair_ids kf_id (root lpg)) (checked_KF_pairs s))
       (set_local_pcs (snd from)
          (set_graph (mkGraph (root lpg) (snd guess) (edges lpg)) s)))
    [EvEnqueuePastKFs
       (mkData (root lpg) kf_id (fst from) (fst to) (asTPose (fst guess)))].
Proof.
  cbv zeta. unfold send_for_check. rewrite bind_get. cbv zeta.
  destruct (StdMap.subscript N.ltb None kf_id (local_pcs s)) as [a pcs1].
  cbn [fst snd].
  destruct (StdMap.subscript N.ltb None (root (local_pose_graph s)) pcs1) as [b pcs2].
  destruct (StdMap.subscript N.ltb CPose3D_Identity kf_id
              (nodes (local_pose_graph s))) as [g ns'].
  cbn [fst snd]. run. reflexivity.
Qed.

Lemma doCheckForNonAdjacentKFs_keeps_coherence E d s :
  respects_at keeps_coherence (doCheckForNonAdjacentKFs params_ E d) s.
Proof.
  unfold doCheckForNonAdjacentKFs, doCheckForNonAdjacentKFs_try, log_exception.
  apply at_catch; [|intros s'; apply at_emit; split; auto].
  repeat frame_step; split; auto.
Qed.

Lemma bind_undefined {A B} (m : M A) (k : A -> M B) s :
  flow_of (m s) = Undefined ->
  bind m k s = mkResult Undefined (state_of (m s)) (events_of (m s)).
Proof. unfold bind. now intros ->. Qed.

(** When [checkForNearbyKFs] runs to its end, the Dijkstra pass having
    reached exactly the keyframes that have a cloud, and the root is still
    a node, the nodes and the clouds have the same keys. *)
Lemma search_same_keys E s ns :
  dijkstra_nodes_estimate E (last_kf s) (edges (local_pose_graph s)) = Some ns ->
  (forall k, In k (StdMap.keys ns) <-> In k (StdMap.keys (local_pcs s))) ->
  flow_of (checkForNearbyKFs params_ E s) = Normal tt ->
  In (last_kf s)
     (StdMap.keys (nodes (local_pose_graph (state_of (checkForNearbyKFs params_ E s))))) ->
  same_keys (state_of (checkForNearbyKFs params_ E s)).
Proof.
  intros Hd Hns. unfold checkForNearbyKFs.
  rewrite bind_get. cbv zeta. rewrite bind_put, Hd, bind_modify.
  set (es := edges (local_pose_graph s)).
  set (s1 := set_graph (mkGraph (last_kf s) ns es) _).
  assert (H1 : same_keys s1) by exact Hns.
  set (loop := evict_loop params_ (getAdjacencyMatrix es) (rev (build_KF_distances ns))).
  destruct (evict_loop_keeps_coherence (getAdjacencyMatrix es)
              (rev (build_KF_distances ns)) s1) as [H2 Hroot].
  fold loop in H2, Hroot. specialize (H2 H1).
  change (root (local_pose_graph s1)) with (last_kf s) in Hroot.
  destruct (flow_of (loop s1)) as [rest| |] eqn:Fl.
  2: { rewrite (bind_thrown _ _ _ Fl). discriminate. }
  2: { rewrite (bind_undefined _ _ _ Fl). discriminate. }
  rewrite (bind_normal _ _ _ Fl), flow_of_prepend, state_of_prepend.
  set (s2 := state_of (loop s1)) in *.
  destruct (nth_error (rev rest) _) as [[d kf_id]|]; [|intros _ _; exact H2].
  destruct (edge_already_exists_flow E kf_id s2) as [[b Fb]|Fb].
  2: { rewrite (bind_undefined _ _ _ Fb). discriminate. }
  destruct (edge_already_exists_only_asks E kf_id s2) as [Hs _].
  rewrite (bind_normal _ _ _ Fb), flow_of_prepend, state_of_prepend, Hs.
  destruct b; cbn [negb]; [intros _ _; exact H2|].
  rewrite send_for_check_run. cbv zeta.
  cbn [state_of local_pose_graph nodes set_checked set_local_pcs set_graph].
  intros _ Hin k.
  cbn [local_pose_graph nodes local_pcs set_checked set_local_pcs set_graph].
  rewrite keys_subscript in Hin. rewrite !keys_subscript, <- (H2 k).
  intuition congruence.
Qed.

(** *** No pair is probed twice *)

Lemma probe_pairs_app ev1 ev2 :
  probe_pairs (ev1 ++ ev2) = probe_pairs ev1 ++ probe_pairs ev2.
Proof. unfold probe_pairs, probes_sent. now rewrite flat_map_app, map_app. Qed.

#[local] Instance dedup_frame : Frame dedup.
Proof.
  split; unfold dedup.
  - intros s. cbn. splits; [constructor | tauto | auto].
  - intros s1 e1 s2 e2 s3 (N1 & I1 & F1) (N2 & I2 & F2).
    rewrite probe_pairs_app. splits.
    + apply NoDup_app; splits; try assumption.
      intros p H1 H2. apply (F2 p); [|assumption]. apply I1. now right.
    + intros p. rewrite I2, I1, in_app_iff. tauto.
    + intros p H H'. apply in_app_or in H' as [H'|H'].
      * exact (F1 p H H').
      * apply (F2 p); [|assumption]. apply I1. now left.
Qed.

Lemma dedup_quiet s ev s' :
  checked_KF_pairs s' = checked_KF_pairs s -> probe_pairs ev = [] -> dedup s ev s'.
Proof.
  unfold dedup. intros -> ->. cbn. splits; [constructor | tauto | auto].
Qed.

Ltac quiet := apply dedup_quiet; reflexivity.

Lemma pairs_count_zero p c : pairs_count p c = 0%nat -> ~ In p c.
Proof.
  unfold pairs_count. destruct (existsb (pair_eqb p) c) eqn:Ex; [discriminate|].
  intros _ H. assert (Hx : existsb (pair_eqb p) c = true).
  { apply existsb_exists. exists p. split; [assumption|].
    unfold pair_eqb. now rewrite !N.eqb_refl. }
  congruence.
Qed.

Lemma pairs_insert_new p c : ~ In p c -> pairs_insert p c = c ++ [p].
Proof.
  unfold pairs_insert. destruct (existsb (pair_eqb p) c) eqn:Ex; [|reflexivity].
  intros H. exfalso. apply H. apply existsb_exists in Ex as [[a b] [Hin Heq]].
  unfold pair_eqb in Heq. apply andb_true_iff in Heq as [H1 H2].
  apply N.eqb_eq in H1, H2. destruct p as [pa pb]. cbn in H1, H2. now subst.
Qed.

Lemma edge_already_exists_false E kf_id s :
  flow_of (edge_already_exists E kf_id s) = Normal false ->
  pairs_count (pair_ids kf_id (root (local_pose_graph s))) (checked_KF_pairs s) = 0%nat.
Proof.
  unfold edge_already_exists. rewrite bind_get. cbv zeta.
  destruct (negb (Z.abs _ <? 2 ^ 63)%Z); [discriminate|].
  destruct (pairs_count _ _) as [|n]; [reflexivity|]. cbn [Nat.eqb negb].
  destruct (worldmodel_ E); cbn; discriminate.
Qed.

Lemma send_for_check_dedup kf_id s :
  pairs_count (pair_ids kf_id (root (local_pose_graph s))) (checked_KF_pairs s) = 0%nat ->
  respects_at dedup (send_for_check kf_id) s.
Proof.
  intros H. apply pairs_count_zero in H.
  unfold respects_at. rewrite send_for_check_run. cbv zeta.
  cbn [events_of state_of checked_KF_pairs set_checked].
  rewrite (pairs_insert_new _ _ H).
  unfold dedup, probe_pairs, probes_sent, normalized_pair.
  cbn [flat_map app map from_id to_id].
  unfold pair_ids in *.
  rewrite (N.min_comm (root (local_pose_graph s))),
          (N.max_comm (root (local_pose_graph s))).
  cbn [checked_KF_pairs set_checked]. splits.
  - constructor; [intros [] | constructor].
  - intros p. rewrite in_app_iff. cbn. tauto.
  - intros p Hp [<-|[]]. exact (H Hp).
Qed.

Lemma evict_loop_dedup adj from_far s :
  respects_at dedup (evict_loop params_ adj from_far) s.
Proof.
  revert s. induction from_far as [|[d id] rest IH]; intros s; cbn [evict_loop];
    repeat frame_step; try quiet; apply IH.
Qed.

Lemma edge_already_exists_dedup E kf_id s :
  respects_at dedup (edge_already_exists E kf_id) s.
Proof.
  unfold edge_already_exists. repeat frame_step; quiet.
Qed.

Lemma checkForNearbyKFs_dedup E s :
  respects_at dedup (checkForNearbyKFs params_ E) s.
Proof.
  unfold checkForNearbyKFs.
  apply at_get_bind. cbv zeta. apply at_put_bind; [quiet|].
  destruct (dijkstra_nodes_estimate E _ _) as [ns|]; [|apply at_throw].
  apply at_modify_bind; [quiet|].
  apply at_bind; [apply evict_loop_dedup|]. intros rest _.
  set (s2 := state_of _).
  destruct (nth_error _ _) as [[d kf_id]|]; [|apply at_ret].
  apply at_bind; [apply edge_already_exists_dedup|]. intros b Hb.
  destruct (edge_already_exists_only_asks E kf_id s2) as [Hs _]. rewrite Hs.
  destruct b; cbn [negb]; [apply at_ret|].
  apply send_for_check_dedup. exact (edge_already_exists_false _ _ _ Hb).
Qed.

Lemma create_KF_dedup E o t pts s : respects_at dedup (create_KF E o t pts) s.
Proof. unfold create_KF. repeat frame_step; quiet. Qed.

Lemma register_and_promote_dedup E o t_this t_last pts lpts s :
  respects_at dedup (register_and_promote params_ E o t_this t_last pts lpts) s.
Proof.
  unfold register_and_promote.
  repeat first [ apply create_KF_dedup | apply checkForNearbyKFs_dedup | frame_step ];
    quiet.
Qed.

Lemma doProcessNewObservation_dedup E o s :
  respects_at dedup (doProcessNewObservation params_ E o) s.
Proof.
  unfold doProcessNewObservation, doProcessNewObservation_try, log_exception.
  apply at_catch; [|intros s'; apply at_emit; quiet].
  repeat first [ apply register_and_promote_dedup | frame_step ]; quiet.
Qed.

Lemma doCheckForNonAdjacentKFs_dedup E d s :
  respects_at dedup (doCheckForNonAdjacentKFs params_ E d) s.
Proof.
  unfold doCheckForNonAdjacentKFs, doCheckForNonAdjacentKFs_try, log_exception.
  apply at_catch; [|intros s'; apply at_emit; quiet].
  repeat frame_step; quiet.
Qed.

Lemma run_tasks_dedup tasks s : respects_at dedup (run_tasks params_ tasks) s.
Proof.
  revert s. induction tasks as [|[E t] rest IH]; intros s; cbn [run_tasks].
  - apply at_ret.
  - apply at_bind; [|intros _ _; apply IH].
    destruct t; [apply doProcessNewObservation_dedup
                | apply doCheckForNonAdjacentKFs_dedup].
Qed.

Lemma NoDup_map_nth_error {A B} (f : A -> B) (l : list A) i j a b :
  NoDup (map f l) ->
  nth_error l i = Some a -> nth_error l j = Some b -> f a = f b -> i = j.
Proof.
  intros Hn Hi Hj Hf.
  apply (proj1 (NoDup_nth_error (map f l)) Hn).
  - rewrite length_map. apply nth_error_Some. congruence.
  - rewrite !nth_error_map, Hi, Hj. cbn. now rewrite Hf.
Qed.

Lemma same_unordered_pair_normalized (d1 d2 : DataForCheckEdges) :
  same_unordered_pair d1 d2 -> normalized_pair d1 = normalized_pair d2.
Proof.
  unfold same_unordered_pair, normalized_pair. intros [[H1 H2]|[H1 H2]].
  - now rewrite H1, H2.
  - now rewrite H1, H2, N.min_comm, N.max_comm.
Qed.

(** C7. Over a run of tasks, whatever the outside answers, no two probe
    tasks sent to the pool are for the same unordered pair of keyframes,
    in either order; [checked_KF_pairs] gains exactly the normalized pairs,
    smaller id first, of the tasks sent; and a pair that was already in it
    is not sent. *)
Theorem C7_no_pair_probed_twice tasks s :
  let r := run_tasks params_ tasks s in
  let sent := probes_sent (events_of r) in
  (forall i j d1 d2,
     nth_error sent i = Some d1 -> nth_error sent j = Some d2 ->
     same_unordered_pair d1 d2 -> i = j) /\
  (forall p,
     In p (checked_KF_pairs (state_of r)) <->
     In p (checked_KF_pairs s) \/
     exists d, In d sent /\
               p = (N.min (from_id d) (to_id d), N.max (from_id d) (to_id d))) /\
  (forall d,
     In d sent ->
     ~ In (N.min (from_id d) (to_id d), N.max (from_id d) (to_id d))
          (checked_KF_pairs s)).
Proof.
  intros r sent.
  destruct (run_tasks_dedup tasks s) as (Hn & Hi & Hf).
  fold r in Hn, Hi, Hf. unfold probe_pairs in Hn, Hi, Hf. fold sent in Hn, Hi, Hf.
  splits.
  - intros i j d1 d2 H1 H2 Hsame.
    apply (NoDup_map_nth_error normalized_pair sent i j Hn H1 H2).
    now apply same_unordered_pair_normalized.
  - intros p. rewrite Hi, in_map_iff. unfold normalized_pair.
    split; (intros [H|(d & H1 & H2)]; [now left | right; exists d; auto]).
  - intros d Hd Hp. apply (Hf _ Hp). apply in_map_iff. exists d. auto.
Qed.

(** *** Nodes and clouds, operation by operation *)

Lemma probe_without_cloud E d s :
  from_pc d = None \/ to_pc d = None ->
  doCheckForNonAdjacentKFs params_ E d s =
  mkResult (Normal tt) s [EvLog LVL_ERROR "Exception"].
Proof.
  intros H. unfold doCheckForNonAdjacentKFs, doCheckForNonAdjacentKFs_try.
  destruct (from_pc d) as [pf|]; [destruct (to_pc d) as [pt|]|].
  - destruct H; discriminate.
  - reflexivity.
  - reflexivity.
Qed.


Lemma evict_loop_never_throws adj from_far s :
  flow_of (evict_loop params_ adj from_far s) <> Thrown.
Proof.
  revert s. induction from_far as [|[d id] rest IH]; intros s;
    cbn [evict_loop]; rewrite bind_get; destruct (_ <? _)%N;
    try discriminate.
  rewrite bind_put. apply IH.
Qed.

Lemma send_for_check_returns kf_id s : flow_of (send_for_check kf_id s) = Normal tt.
Proof. rewrite send_for_check_run. reflexivity. Qed.

(** The search throws only when the Dijkstra pass does. *)
Lemma checkForNearbyKFs_never_throws E s :
  dijkstra_nodes_estimate E (last_kf s) (edges (local_pose_graph s)) <> None ->
  flow_of (checkForNearbyKFs params_ E s) <> Thrown.
Proof.
  intros Hd. unfold checkForNearbyKFs.
  rewrite bind_get. cbv zeta. rewrite bind_put.
  destruct (dijkstra_nodes_estimate E _ _) as [ns|]; [|contradiction].
  rewrite bind_modify.
  match goal with |- flow_of (bind ?m _ ?s1) <> _ =>
    pose proof (evict_loop_never_throws (getAdjacencyMatrix (edges (local_pose_graph s)))
                  (rev (build_KF_distances ns)) s1) as Hl;
    destruct (flow_of (m s1)) as [rest| |] eqn:Fl
  end; [|contradiction|rewrite (bind_undefined _ _ _ Fl); discriminate].
  rewrite (bind_normal _ _ _ Fl), flow_of_prepend.
  destruct (nth_error _ _) as [[d kf_id]|]; [|cbn; discriminate].
  match goal with |- flow_of (bind _ _ ?s2) <> _ =>
    destruct (edge_already_exists_flow E kf_id s2) as [[b Fb]|Fb]
  end; [|rewrite (bind_undefined _ _ _ Fb); discriminate].
  rewrite (bind_normal _ _ _ Fb), flow_of_prepend.
  destruct b; cbn [negb]; [cbn; discriminate|].
  rewrite send_for_check_returns. discriminate.
Qed.

(** The state in which a granted promotion leaves the task. *)
Lemma create_KF_granted E o t pts s id :
  backend_mints E (mkKFIn t [o]) id ->
  (last_kf s = INVALID_ID \/
   factor_accepted E (mkFactor (last_kf s) id (asTPose (accum_since_last_kf s)))) ->
  flow_of (create_KF E o t pts s) = Normal tt /\
  state_of (create_KF E o t pts s) =
    set_last_kf id
      (set_accum CPose3D_Identity
         (set_graph
            (if (last_kf s =? INVALID_ID)%N then local_pose_graph s
             else insertEdgeAtEnd id (last_kf s) (accum_since_last_kf s)
                                  (local_pose_graph s))
            (set_local_pcs (StdMap.assign N.ltb id (Some pts) (local_pcs s)) s))).
Proof.
  intros (Hs & Hid & Hv) Hf. unfold create_KF. cbv zeta.
  apply N.eqb_neq in Hv.
  rewrite Hs, Hid. unfold valid_kf_id. rewrite Hv. cbn [negb]. run.
  cbn [last_kf set_local_pcs accum_since_last_kf].
  destruct (last_kf s =? INVALID_ID)%N eqn:Ek; cbn [negb]; run.
  - split; [reflexivity|]. destruct s as [? ? ? ? ? ? ? [? ? ?] ?]. reflexivity.
  - destruct Hf as [Hf | Hf].
    + apply N.eqb_eq in Hf. congruence.
    + apply factor_accepted_asserts in Hf. destruct Hf as (Hf1 & Hf2).
      rewrite Hf1, Hf2. run. split; reflexivity.
Qed.

Lemma dropped_run E o s :
  too_close_in_time params_ s (timestamp o) = true ->
  doProcessNewObservation params_ E o s = mkResult (Normal tt) s [].
Proof.
  intros H. unfold doProcessNewObservation, doProcessNewObservation_try.
  erewrite catch_normal; rewrite bind_get; cbv zeta; rewrite H; reflexivity.
Qed.

Lemma first_scan_run E o s :
  too_close_in_time params_ s (timestamp o) = false ->
  last_points s = None ->
  doProcessNewObservation params_ E o s =
  mkResult (Normal tt)
    (set_obs (Some o) (timestamp o) (Some (snd (insertObservationPtr E o))) s)
    [EvLog LVL_DEBUG "First pointcloud: skipping ICP."].
Proof.
  intros Hclose Hlp. unfold doProcessNewObservation, doProcessNewObservation_try.
  destruct (insertObservationPtr E o) as [have pts] eqn:Hconv. cbn [snd].
  erewrite catch_normal; rewrite bind_get; cbv zeta; rewrite Hclose;
    cbv beta iota; rewrite bind_put, Hlp; reflexivity.
Qed.

(** A registered scan that comes to the search with more than one cloud
    stored ends where the search ends. *)
Lemma task_ends_with_search E o s lp pts s1 :
  too_close_in_time params_ s (timestamp o) = false ->
  last_points s = Some lp ->
  insertObservationPtr E o = (true, pts) ->
  let dt := scan_dt (last_obs_tim s) (timestamp o) in
  let icp_out := run_one_icp params_ E
                   (mkICPIn pts lp (odometry_guess (last_iter_twist s) dt)) in
  let accum := compose (accum_since_last_kf s) (found_pose_to_wrt_from icp_out) in
  let s2 := set_accum accum
              (set_twist (updated_twist (last_iter_twist s)
                            (found_pose_to_wrt_from icp_out) dt)
                 (set_obs (Some o) (timestamp o) (Some pts) s)) in
  (if should_create_KF params_ (goodness icp_out) (norm accum)
   then flow_of (create_KF E o (timestamp o) pts s2) = Normal tt /\
        state_of (create_KF E o (timestamp o) pts s2) = s1
   else s1 = s2) ->
  (1 < StdMap.size (local_pcs s1))%N ->
  dijkstra_nodes_estimate E (last_kf s1) (edges (local_pose_graph s1)) <> None ->
  flow_of (doProcessNewObservation params_ E o s) =
    flow_of (checkForNearbyKFs params_ E s1) /\
  state_of (doProcessNewObservation params_ E o s) =
    state_of (checkForNearbyKFs params_ E s1).
Proof.
  intros Hclose Hlp Hconv dt icp_out accum s2 Hs1 Hsize Hd.
  pose proof (checkForNearbyKFs_never_throws E s1 Hd) as Hnt.
  unfold doProcessNewObservation.
  rewrite state_of_catch_log.
  assert (Hflow : forall m : M unit,
            flow_of (m s) <> Thrown -> flow_of (catch m log_exception s) = flow_of (m s)).
  { intros m Hm. unfold catch. cbv zeta.
    destruct (flow_of (m s)) eqn:F; try reflexivity; try exact F. contradiction. }
  assert (Hbody : flow_of (doProcessNewObservation_try params_ E o s) =
                    flow_of (checkForNearbyKFs params_ E s1) /\
                  state_of (doProcessNewObservation_try params_ E o s) =
                    state_of (checkForNearbyKFs params_ E s1)).
  { rewrite (try_registers E o s Hclose Hlp Hconv).
    rewrite register_and_promote_unfold. cbv zeta.
    cbn [last_iter_twist accum_since_last_kf set_obs set_accum set_twist].
    fold dt. fold icp_out. fold accum. fold s2.
    apply N.ltb_lt in Hsize.
    destruct (should_create_KF params_ (goodness icp_out) (norm accum)).
    - destruct Hs1 as [Hfl Hst].
      rewrite (bind_normal _ _ _ Hfl), flow_of_prepend, state_of_prepend, Hst.
      rewrite bind_get, Hsize. split; reflexivity.
    - subst s1. rewrite bind_ret, bind_get, Hsize. split; reflexivity. }
  destruct Hbody as [Hf Hst]. split; [|exact Hst].
  rewrite Hflow; [exact Hf | rewrite Hf; exact Hnt].
Qed.

(** C4, amended. [reset] leaves both maps empty; [onNewObservation] and the
    probe tasks leave them as they are, and so does an odometry task that
    registers nothing, or that asks for no keyframe while at most one
    cloud is stored.  When an odometry task runs [checkForNearbyKFs] to
    its end, without a promotion or after one that the back-end granted,
    the Dijkstra pass having reached exactly the keyframes that have a
    cloud, and the root is still a node, then the nodes and the clouds
    have the same keys: each eviction erases its id from both maps.  The
    last part is what [checkForNearbyKFs] does in whatever state it is
    called. *)
Theorem C4_search_leaves_same_keys :
  (forall s, same_keys (state_of (reset s))) /\
  (forall label now o m, state_ (onNewObservation label now o m) = state_ m) /\
  (forall E d s,
     nodes (local_pose_graph (state_of (doCheckForNonAdjacentKFs params_ E d s))) =
       nodes (local_pose_graph s) /\
     local_pcs (state_of (doCheckForNonAdjacentKFs params_ E d s)) = local_pcs s) /\
  (forall E o s,
     let r := doProcessNewObservation params_ E o s in
     too_close_in_time params_ s (timestamp o) = true \/
     last_points s = None \/
     fst (insertObservationPtr E o) = false \/
     (~ keyframe_requested (events_of r) /\ (StdMap.size (local_pcs s) <= 1)%N) ->
     nodes (local_pose_graph (state_of r)) = nodes (local_pose_graph s) /\
     local_pcs (state_of r) = local_pcs s) /\
  (forall E o s lp pts ns,
     too_close_in_time params_ s (timestamp o) = false ->
     last_points s = Some lp ->
     insertObservationPtr E o = (true, pts) ->
     let dt := scan_dt (last_obs_tim s) (timestamp o) in
     let icp_out := run_one_icp params_ E
                      (mkICPIn pts lp (odometry_guess (last_iter_twist s) dt)) in
     let accum := compose (accum_since_last_kf s) (found_pose_to_wrt_from icp_out) in
     let r := doProcessNewObservation params_ E o s in
     ((min_icp_goodness params_ <? goodness icp_out)%float &&
      (min_dist_xyz_between_keyframes params_ <? norm accum)%float = false) ->
     (1 < StdMap.size (local_pcs s))%N ->
     dijkstra_nodes_estimate E (last_kf s) (edges (local_pose_graph s)) = Some ns ->
     (forall k, In k (StdMap.keys ns) <-> In k (StdMap.keys (local_pcs s))) ->
     flow_of r = Normal tt ->
     In (last_kf s) (StdMap.keys (nodes (local_pose_graph (state_of r)))) ->
     same_keys (state_of r)) /\
  (forall E o s lp pts id ns,
     too_close_in_time params_ s (timestamp o) = false ->
     last_points s = Some lp ->
     insertObservationPtr E o = (true, pts) ->
     let dt := scan_dt (last_obs_tim s) (timestamp o) in
     let icp_out := run_one_icp params_ E
                      (mkICPIn pts lp (odometry_guess (last_iter_twist s) dt)) in
     let accum := compose (accum_since_last_kf s) (found_pose_to_wrt_from icp_out) in
     let r := doProcessNewObservation params_ E o s in
     let clouds := StdMap.assign N.ltb id (Some pts) (local_pcs s) in
     let edges_then :=
       if (last_kf s =? INVALID_ID)%N then edges (local_pose_graph s)
       else edges (local_pose_graph s) ++ [((id, last_kf s), accum)] in
     ((min_icp_goodness params_ <? goodness icp_out)%float &&
      (min_dist_xyz_between_keyframes params_ <? norm accum)%float = true) ->
     backend_mints E (mkKFIn (timestamp o) [o]) id ->
     (last_kf s = INVALID_ID \/
      factor_accepted E (mkFactor (last_kf s) id (asTPose accum))) ->
     (1 < StdMap.size clouds)%N ->
     dijkstra_nodes_estimate E id edges_then = Some ns ->
     (forall k, In k (StdMap.keys ns) <-> In k (StdMap.keys clouds)) ->
     flow_of r = Normal tt ->
     In id (StdMap.keys (nodes (local_pose_graph (state_of r)))) ->
     same_keys (state_of r)) /\
  (forall E s ns,
     dijkstra_nodes_estimate E (last_kf s) (edges (local_pose_graph s)) = Some ns ->
     (forall k, In k (StdMap.keys ns) <-> In k (StdMap.keys (local_pcs s))) ->
     flow_of (checkForNearbyKFs params_ E s) = Normal tt ->
     In (last_kf s)
        (StdMap.keys (nodes (local_pose_graph (state_of (checkForNearbyKFs params_ E s))))) ->
     same_keys (state_of (checkForNearbyKFs params_ E s))).
Proof.
  splits.
  - (* reset *)
    intros s k. cbn. tauto.
  - (* the ingress *)
    intros label now o m. unfold onNewObservation.
    destruct (negb _); [reflexivity|].
    destruct (1 <? pendingTasks m)%N; [|reflexivity].
    unfold MRPT_LOG_THROTTLE_WARN.
    destruct (match last_throttled_warn m with Some _ => _ | None => _ end);
      reflexivity.
  - (* the probe tasks *)
    intros E d s.
    destruct (from_pc d) as [pf|] eqn:Hf; [destruct (to_pc d) as [pt|] eqn:Ht|].
    + rewrite (probe_run E d s Hf Ht). cbv zeta.
      destruct (accept_edge _ _ _); [destruct (_ && _)|]; split; reflexivity.
    + rewrite probe_without_cloud by auto. split; reflexivity.
    + rewrite probe_without_cloud by auto. split; reflexivity.
  - (* odometry tasks that do not come to the search *)
    intros E o s r H. subst r.
    destruct (too_close_in_time params_ s (timestamp o)) eqn:Hclose.
    { rewrite (dropped_run E o s Hclose). split; reflexivity. }
    destruct (last_points s) as [lp|] eqn:Hlp.
    2: { rewrite (first_scan_run E o s Hclose Hlp). split; reflexivity. }
    destruct (insertObservationPtr E o) as [[|] pts] eqn:Hconv.
    2: { rewrite (failed_conversion_run E o s Hclose Hlp Hconv). split; reflexivity. }
    destruct H as [H|[H|[H|[Hreq Hsize]]]]; try discriminate.
    unfold doProcessNewObservation in *.
    rewrite state_of_catch_log.
    assert (Hreq' : ~ keyframe_requested
                        (events_of (doProcessNewObservation_try params_ E o s))).
    { intros [kf Hin]. apply Hreq. exists kf. unfold catch. cbv zeta.
      destruct (flow_of _); try exact Hin. cbn. apply in_or_app. now left. }
    rewrite (try_registers E o s Hclose Hlp Hconv) in *.
    rewrite register_and_promote_unfold in *. cbv zeta in *.
    destruct (should_create_KF _ _ _).
    + exfalso. apply Hreq'.
      match goal with
      | |- keyframe_requested (events_of (bind (create_KF E o ?t pts) ?k ?s2)) =>
          destruct (create_KF_requests E o t pts s2) as [tl Htl];
          destruct (events_of_bind (create_KF E o t pts) k s2) as [tl' ->];
          exists (mkKFIn t [o]); rewrite Htl; now left
      end.
    + rewrite bind_ret, bind_get.
      cbn [local_pcs set_accum set_twist set_obs].
      apply N.ltb_ge in Hsize. rewrite Hsize. split; reflexivity.
  - (* an odometry task through the search, no keyframe wanted *)
    intros E o s lp pts ns Hclose Hlp Hconv dt icp_out accum r Hno Hsize Hd Hkeys.
    set (s2 := set_accum accum
                 (set_twist (updated_twist (last_iter_twist s)
                               (found_pose_to_wrt_from icp_out) dt)
                    (set_obs (Some o) (timestamp o) (Some pts) s))).
    destruct (@task_ends_with_search E o s lp pts s2 Hclose Hlp Hconv) as [Hf Hs].
    + cbv zeta. fold dt. fold icp_out. fold accum.
      unfold should_create_KF. rewrite Hno. reflexivity.
    + exact Hsize.
    + cbn [last_kf local_pose_graph set_accum set_twist set_obs s2]. congruence.
    + subst r. rewrite Hf, Hs. intros Hflow Hin.
      apply (@search_same_keys E s2 ns); [exact Hd | exact Hkeys | exact Hflow | exact Hin].
  - (* an odometry task through the search, after a granted promotion *)
    intros E o s lp pts id ns Hclose Hlp Hconv dt icp_out accum r clouds edges_then
      Hyes Hm Hg Hsize Hd Hkeys.
    set (s2 := set_accum accum
                 (set_twist (updated_twist (last_iter_twist s)
                               (found_pose_to_wrt_from icp_out) dt)
                    (set_obs (Some o) (timestamp o) (Some pts) s))).
    destruct (@create_KF_granted E o (timestamp o) pts s2 id Hm Hg) as [Hfl Hst].
    cbn [last_kf accum_since_last_kf local_pose_graph local_pcs
         set_accum set_twist set_obs s2] in Hst.
    assert (Hedges : edges (local_pose_graph (state_of (create_KF E o (timestamp o) pts s2)))
                     = edges_then).
    { rewrite Hst. unfold edges_then. destruct (last_kf s =? INVALID_ID)%N; reflexivity. }
    assert (Hroot : last_kf (state_of (create_KF E o (timestamp o) pts s2)) = id)
      by (rewrite Hst; reflexivity).
    assert (Hpcs : local_pcs (state_of (create_KF E o (timestamp o) pts s2)) = clouds)
      by (rewrite Hst; reflexivity).
    destruct (@task_ends_with_search E o s lp pts
                (state_of (create_KF E o (timestamp o) pts s2))
                Hclose Hlp Hconv) as [Hf Hs].
    + cbv zeta. fold dt. fold icp_out. fold accum. fold s2.
      unfold should_create_KF. rewrite Hyes. split; [exact Hfl | reflexivity].
    + rewrite Hpcs. exact Hsize.
    + rewrite Hroot, Hedges. congruence.
    + subst r. rewrite Hf, Hs. intros Hflow Hin.
      apply (@search_same_keys E _ ns).
      * rewrite Hroot, Hedges. exact Hd.
      * rewrite Hpcs. exact Hkeys.
      * exact Hflow.
      * rewrite Hroot. exact Hin.
  - (* the search *)
    intros E s ns. apply search_same_keys.
Qed.

End Properties.

(** ** The ingress *)

Section Ingress.
Context {L : Mrpt}.
Variable raw_sensor_label_ : string.

Lemma throttle_keeps_throttled now msg m :
  throttled m -> throttled (MRPT_LOG_THROTTLE_WARN 5.0 now msg m).
Proof.
  unfold throttled, MRPT_LOG_THROTTLE_WARN, warning_times. intros [Hs Hl].
  destruct (last_throttled_warn m) as [last|] eqn:El.
  - destruct (5 <? now - last)%float eqn:Ep; [|split; congruence].
    cbn [console last_throttled_warn]. rewrite map_app, rev_app_distr. cbn [map rev app fst].
    split; [|reflexivity].
    destruct (rev (map fst (console m))) as [|t1 rest]; [exact I|].
    cbn in Hl. injection Hl as <-. cbn [spaced]. split; [exact Ep | exact Hs].
  - cbn [console last_throttled_warn]. rewrite map_app, rev_app_distr. cbn [map rev app fst].
    split; [|reflexivity].
    destruct (rev (map fst (console m))) as [|t1 rest]; [exact I | discriminate].
Qed.

Lemma onNewObservation_keeps_throttled now o m :
  throttled m -> throttled (onNewObservation raw_sensor_label_ now o m).
Proof.
  intros H. unfold onNewObservation.
  destruct (negb _); [assumption|].
  destruct (1 <? pendingTasks m)%N; [now apply throttle_keeps_throttled | exact H].
Qed.

Lemma fresh_throttled : throttled LidarICP_fresh.
Proof. split; [exact I | reflexivity]. Qed.

(** Whatever the driver sends and whenever, the drop warnings printed
    since construction are more than 5 s apart. *)
Lemma ingress_throttled calls : throttled (ingress raw_sensor_label_ calls).
Proof.
  unfold ingress. generalize fresh_throttled. generalize LidarICP_fresh.
  induction calls as [|[now o] rest IH]; intros m Hm; cbn [fold_left].
  - exact Hm.
  - apply IH. now apply onNewObservation_keeps_throttled.
Qed.

(** C8. An observation with the configured label that finds more than one
    pending task in the odometry pool is dropped: nothing is enqueued and
    the state is as before, [last_obs_tim] included.  The warning goes
    through the throttle with a period of 5 s: it is printed at most once,
    and the warnings stay more than 5 s apart. *)
Theorem C8_load_shed now o m :
  sensorLabel o = raw_sensor_label_ ->
  (1 < pendingTasks m)%N ->
  worker_pool_ (onNewObservation raw_sensor_label_ now o m) = worker_pool_ m /\
  state_ (onNewObservation raw_sensor_label_ now o m) = state_ m /\
  last_obs_tim (state_ (onNewObservation raw_sensor_label_ now o m)) =
    last_obs_tim (state_ m) /\
  (console (onNewObservation raw_sensor_label_ now o m) = console m \/
   console (onNewObservation raw_sensor_label_ now o m) =
     console m ++ [(now, "Dropping observation due to worker threads too busy."%string)]) /\
  (throttled m -> throttled (onNewObservation raw_sensor_label_ now o m)).
Proof.
  intros Hl Hq.
  assert (Hpre : forall m', state_ m' = state_ m ->
            state_ m' = state_ m /\ last_obs_tim (state_ m') = last_obs_tim (state_ m))
    by (intros m' ->; auto).
  pose proof (@onNewObservation_keeps_throttled now o m) as Ht.
  revert Ht. unfold onNewObservation.
  rewrite Hl, String.eqb_refl. cbn [negb].
  apply N.ltb_lt in Hq. rewrite Hq.
  unfold MRPT_LOG_THROTTLE_WARN.
  destruct (match last_throttled_warn m with
            | Some last => (5 <? now - last)%float
            | None => true
            end); intros Ht; cbn [worker_pool_ state_ console]; auto 10.
Qed.

End Ingress.

(** ** The scenarios, run *)

(** C3, on the bootstrap scenario: the second scan, 1.2 m away with
    goodness 0.9, makes keyframe 1. *)
Lemma C3_keyframe_promotion_witness :
  keyframe_requested (events_of Scenario.r_second) /\
  keyframe_minted Scenario.E_first (events_of Scenario.r_second) 1 /\
  promotion_completed (events_of Scenario.r_second) /\
  accum_since_last_kf (state_of Scenario.r_second) = CPose3D_Identity /\
  last_kf (state_of Scenario.r_second) = 1%N.
Proof.
  destruct (@C3_keyframe_promotion Sim.mrpt Scenario.P Scenario.E_first
              (Sim.scan 2000) 2000 1000 Scenario.cloud Scenario.cloud
              Scenario.s_boot) as (H1 & H2 & H3 & H4 & _).
  fold Scenario.r_second in H1, H2, H3, H4.
  assert (Hm : backend_mints Scenario.E_first
                 (@mkKFIn Sim.mrpt 2000 [Sim.scan 2000]) 1%N)
    by (vm_compute; splits; first [reflexivity | discriminate]).
  splits.
  - apply H1. split; vm_compute; reflexivity.
  - apply H2. split; [split; vm_compute; reflexivity | exact Hm].
  - apply H3. split; [split; vm_compute; reflexivity|].
    exists 1%N. split; [exact Hm | left; vm_compute; reflexivity].
  - apply (H4 1%N); [split; vm_compute; reflexivity | exact Hm
                    | left; vm_compute; reflexivity].
  - apply (H4 1%N); [split; vm_compute; reflexivity | exact Hm
                    | left; vm_compute; reflexivity].
Defined.

(** C3 as stated fails when the back-end refuses the keyframe: the
    goodness, 0.9, and the distance, 1.2 m, are above their thresholds and
    the task asks for a keyframe, but none is minted.  The task stops at
    the assertion: no cloud is stored, [last_kf] is still [INVALID_ID] and
    the accumulated pose keeps the 1.2 m. *)
Lemma C3_backend_refuses_keyframe :
  (min_icp_goodness Scenario.P <? goodness Scenario.icp_no_kf)%float = true /\
  (min_dist_xyz_between_keyframes Scenario.P <?
   norm (compose (accum_since_last_kf Scenario.s_boot)
                 (found_pose_to_wrt_from Scenario.icp_no_kf)))%float = true /\
  keyframe_requested (events_of Scenario.r_no_kf) /\
  (forall id, ~ keyframe_minted Scenario.E_no_kf (events_of Scenario.r_no_kf) id) /\
  ~ promotion_completed (events_of Scenario.r_no_kf) /\
  flow_of Scenario.r_no_kf = Thrown /\
  local_pcs (state_of Scenario.r_no_kf) = [] /\
  last_kf (state_of Scenario.r_no_kf) = INVALID_ID /\
  accum_since_last_kf (state_of Scenario.r_no_kf) = Sim.mkPose 1.2 0 0.
Proof.
  splits; try (vm_compute; reflexivity).
  - exists (@mkKFIn Sim.mrpt 2000 [Sim.scan 2000]). vm_compute. left. reflexivity.
  - intros id (kf & _ & Hs & _). cbn in Hs. discriminate.
  - intros H. vm_compute in H. destruct H as [H|[]]. discriminate.
Qed.

(** C10, on a scenario: keyframe 2 is minted, its factor is turned down. *)
Lemma C10_promotion_not_atomic_witness :
  flow_of Scenario.r_reject = Normal tt /\
  StdMap.find N.ltb 2%N (local_pcs (state_of Scenario.r_reject)) = Some (Some Scenario.cloud) /\
  accum_since_last_kf (state_of Scenario.r_reject) = Sim.mkPose 1.2 0 0 /\
  last_kf (state_of Scenario.r_reject) = 1%N.
Proof.
  destruct (@C10_promotion_not_atomic Sim.mrpt Scenario.P Scenario.E_reject
              (Sim.scan 3000) Scenario.s_one_kf Scenario.cloud Scenario.cloud 2%N)
    as (H1 & _ & H3 & H4 & H5).
  - vm_compute; reflexivity.
  - vm_compute; reflexivity.
  - vm_compute; reflexivity.
  - vm_compute; reflexivity.
  - vm_compute; splits; first [reflexivity | discriminate].
  - vm_compute; discriminate.
  - intros [H _]. vm_compute in H. discriminate.
  - fold Scenario.r_reject in H1, H3, H4, H5.
    splits.
    + exact H1.
    + rewrite H3. vm_compute. reflexivity.
    + rewrite H4. vm_compute. reflexivity.
    + rewrite H5. vm_compute. reflexivity.
Defined.

(** C2, at the failing input: a scan without points follows the first scan.
    The task warns and returns, but [last_obs], [last_obs_tim] and
    [last_points] have already been overwritten with the new scan and its
    empty cloud. *)
Theorem C2_failed_conversion_advances_state :
  too_close_in_time Scenario.P Scenario.s_boot 2000 = false /\
  insertObservationPtr Scenario.E_first (Sim.blank 2000) = (false, []) /\
  (last_obs Scenario.s_boot = Some (Sim.scan 1000) /\
   last_obs_tim Scenario.s_boot = 1000%Z /\
   last_points Scenario.s_boot = Some Scenario.cloud) /\
  events_of Scenario.r_blank =
    [EvLog LVL_WARN
       "Observation could not be converted into a pointcloud. Doing nothing."] /\
  last_obs (state_of Scenario.r_blank) = Some (Sim.blank 2000) /\
  last_obs_tim (state_of Scenario.r_blank) = 2000%Z /\
  last_points (state_of Scenario.r_blank) = Some [].
Proof.
  assert (H : Scenario.r_blank = _) by
    (apply (@failed_conversion_run Sim.mrpt Scenario.P Scenario.E_first
              (Sim.blank 2000) Scenario.s_boot Scenario.cloud []);
     vm_compute; reflexivity).
  rewrite H. splits; vm_compute; reflexivity.
Qed.

(** C9, on a scenario: the scan after the first one carries its time
    stamp, and so does the one after that.  The second scan is registered
    from the identity and leaves a twist that is not finite; so does the
    third, whose twist before was not finite already. *)
Lemma C9_same_timestamp_twist_witness :
  guess_is_identity
    (odometry_guess (last_iter_twist Scenario.s_boot) (scan_dt 1000 1000)) /\
  linear_non_finite (last_iter_twist Scenario.s_same2) /\
  linear_non_finite (last_iter_twist Scenario.s_same3).
Proof.
  destruct (@C9_same_timestamp_twist Sim.mrpt Scenario.P Scenario.E_first
              (Sim.scan 1000) Scenario.s_boot Scenario.cloud Scenario.cloud)
    as (_ & H2 & _ & H4 & H5).
  - vm_compute; reflexivity.
  - vm_compute; reflexivity.
  - vm_compute; reflexivity.
  - vm_compute; reflexivity.
  - destruct (@C9_same_timestamp_twist Sim.mrpt Scenario.P Scenario.E_first
                (Sim.scan 1000) Scenario.s_same2 Scenario.cloud Scenario.cloud)
      as (_ & _ & _ & K4 & _).
    + vm_compute; reflexivity.
    + vm_compute; reflexivity.
    + vm_compute; reflexivity.
    + vm_compute; reflexivity.
    + splits.
      * change (last_obs_tim Scenario.s_boot) with 1000%Z in H2.
        change (@timestamp Sim.mrpt (Sim.scan 1000)) with 1000%Z in H2.
        rewrite H2. apply H5. vm_compute. splits; reflexivity.
      * exact H4.
      * exact K4.
Defined.

(** C9 as stated fails at the third of three scans with one time stamp:
    the scan is accepted, the twist left by the second is not finite, and
    the initial guess is made of NaNs. *)
Lemma C9_third_scan_guess_not_identity :
  min_time_between_scans Scenario.P = 0%float /\
  last_obs_tim Scenario.s_same2 = 1000%Z /\
  too_close_in_time Scenario.P Scenario.s_same2 1000 = false /\
  ~ guess_is_identity
      (odometry_guess (last_iter_twist Scenario.s_same2)
                      (scan_dt (last_obs_tim Scenario.s_same2) 1000)).
Proof.
  splits; try (vm_compute; reflexivity).
  intros (Hx & _). vm_compute in Hx. discriminate.
Qed.

(** C6, on two scenarios.  A probe that finds its keyframe 2.1 m away
    where 2 m were guessed, with goodness 0.9, is 5 % off: the factor is
    submitted and, the back-end accepting it, the edge is inserted.  A
    probe 35 % off its guess, with goodness 0.9, submits nothing. *)
Lemma C6_probe_acceptance_witness :
  (factor_submitted (events_of Scenario.r_probe_close) /\
   edge_inserted Scenario.s_row (state_of Scenario.r_probe_close) 5 3
                 (Sim.mkPose 2.1 0 0)) /\
  ((@norm Sim.mrpt
      (@inverse_compose Sim.mrpt (Sim.mkPose 2.69 0 0) (Sim.mkPose 1.99 0 0)) /
    (@norm Sim.mrpt (Sim.mkPose 1.99 0 0) + 0.01))%float = 0.35%float /\
   ~ factor_submitted (events_of Scenario.r_probe_far)).
Proof.
  split.
  - destruct (@C6_probe_acceptance Sim.mrpt Scenario.P Scenario.E_probe_close
                Scenario.d_probe Scenario.s_row Scenario.cloud Scenario.cloud)
      as (H1 & _ & H3 & _).
    + reflexivity.
    + reflexivity.
    + split.
      * apply H1. split; vm_compute; reflexivity.
      * apply H3. split; [split; vm_compute; reflexivity|].
        split; [reflexivity|]. exists 7%N. split; [reflexivity | discriminate].
  - destruct (@C6_probe_acceptance Sim.mrpt Scenario.P Scenario.E_probe_far
                Scenario.d_far Scenario.s_row Scenario.cloud Scenario.cloud)
      as (_ & _ & _ & H4).
    + reflexivity.
    + reflexivity.
    + split.
      * vm_compute. reflexivity.
      * apply H4; vm_compute; reflexivity.
Defined.

(** C6 as stated fails when the back-end turns the factor down: the
    goodness is 0.9, the probe is 5 % off its guess and the factor is
    submitted, and yet no edge is inserted. *)
Lemma C6_rejected_factor_inserts_no_edge :
  (min_icp_goodness Scenario.P <? 0.9)%float = true /\
  ((@norm Sim.mrpt
      (@inverse_compose Sim.mrpt (Sim.mkPose 2.1 0 0) (Sim.mkPose 2 0 0)) /
    (@norm Sim.mrpt (Sim.mkPose 2 0 0) + 0.01))%float <? 0.20)%float = true /\
  events_of Scenario.r_probe_refused =
    [EvAddFactor (mkFactor 5 3 (mkTPose3D 2.1 0 0 0 0 0));
     EvLog LVL_ERROR "Exception"] /\
  factor_submitted (events_of Scenario.r_probe_refused) /\
  edges (local_pose_graph (state_of Scenario.r_probe_refused)) =
    Scenario.edges_row /\
  ~ edge_inserted Scenario.s_row (state_of Scenario.r_probe_refused) 5 3
                  (Sim.mkPose 2.1 0 0).
Proof.
  splits; try (vm_compute; reflexivity).
  - eexists. vm_compute. left. reflexivity.
  - intros H. vm_compute in H. discriminate.
Qed.

(** C1, at the failing input: keyframe 3 is the median candidate for root
    5; the two ids are not neighbours, the pair has not been sent before,
    and the world model lists 5 among the neighbours of 3.  The function
    logs that it discards the pair, and sends it to the pool all the same. *)
Theorem C1_world_model_edge_is_probed :
  (Z.abs (to_int64 3 - to_int64 5) <? 2)%Z = false /\
  pairs_count (pair_ids 3 5) (checked_KF_pairs Scenario.s_row) = 0%nat /\
  existsb (N.eqb 5) (Scenario.neighbours_row 3) = true /\
  flow_of Scenario.r_row = Normal tt /\
  events_of Scenario.r_row =
    [EvEntitiesLock;
     EvLog LVL_DEBUG
       "[checkForNearbyKFs] Discarding pair check since a factor already exists";
     EvEntitiesUnlock;
     EvEnqueuePastKFs
       (@mkData Sim.mrpt 5 3 (Some Scenario.cloud) (Some Scenario.cloud)
                (mkTPose3D (-2) 0 0 0 0 0))] /\
  checked_KF_pairs (state_of Scenario.r_row) = [(3, 5)%N].
Proof.
  splits; vm_compute; reflexivity.
Qed.

(** C5, at the failing input: three keyframes are at the same distance
    from the root.  The map from distance to id keeps one of them.  With
    room for two keyframes the loop evicts keyframe 3 and then the root
    itself, at distance 0, while keyframes 1 and 2 stay; with room for one
    it then reads the last entry of an emptied map, with two keyframes
    still in the graph. *)
Theorem C5_eviction_with_repeated_distances :
  @build_KF_distances Sim.mrpt Scenario.reach_tie = [(0%float, 4%N); (1%float, 3%N)] /\
  (flow_of Scenario.r_tie_2 = Normal tt /\
   StdMap.keys (nodes (local_pose_graph (state_of Scenario.r_tie_2))) = [1; 2]%N /\
   root (local_pose_graph (state_of Scenario.r_tie_2)) = 4%N) /\
  (flow_of Scenario.r_tie_1 = Undefined /\
   StdMap.keys (nodes (local_pose_graph (state_of Scenario.r_tie_1))) = [1; 2]%N /\
   max_KFs_local_graph (Sim.params 1 0.5 1) = 1%N).
Proof.
  splits; vm_compute; reflexivity.
Qed.

(** C4 as stated fails right after the first promotion: the cloud of
    keyframe 1 is stored, and the graph has no node yet.  It also fails
    after a search that ran to its end, when a stored keyframe is out of
    reach of the Dijkstra pass: keyframe 2, whose factor was refused, keeps
    its cloud and is no node. *)
Lemma C4_cloud_without_node :
  (keyframe_requested (events_of Scenario.r_second) /\
   StdMap.keys (local_pcs Scenario.s_one_kf) = [1%N] /\
   StdMap.keys (nodes (local_pose_graph Scenario.s_one_kf)) = [] /\
   ~ same_keys Scenario.s_one_kf) /\
  (StdMap.keys (local_pcs Scenario.s_half) = [1; 2]%N /\
   edges (local_pose_graph Scenario.s_half) = [] /\
   flow_of Scenario.r_third = Normal tt /\
   events_of Scenario.r_third =
     [EvAddKeyFrame (@mkKFIn Sim.mrpt 4000 [Sim.scan 4000]);
      EvAddFactor (mkFactor 1 3 (mkTPose3D 2.4 0 0 0 0 0));
      EvLog LVL_INFO "New KF";
      EvEnqueuePastKFs
        (@mkData Sim.mrpt 3 1 (Some Scenario.cloud) (Some Scenario.cloud)
                 (mkTPose3D (-2.4) 0 0 0 0 0))] /\
   edges (local_pose_graph (state_of Scenario.r_third)) =
     [((3, 1)%N, Sim.mkPose 2.4 0 0)] /\
   StdMap.keys (local_pcs (state_of Scenario.r_third)) = [1; 2; 3]%N /\
   StdMap.keys (nodes (local_pose_graph (state_of Scenario.r_third))) = [1; 3]%N /\
   ~ same_keys (state_of Scenario.r_third)).
Proof.
  splits; try (vm_compute; reflexivity).
  - exists (@mkKFIn Sim.mrpt 2000 [Sim.scan 2000]). vm_compute. left. reflexivity.
  - intros H. destruct (H 1%N) as [_ H1]. apply H1. vm_compute. left. reflexivity.
  - intros H. destruct (H 2%N) as [_ H1].
    assert (Hin : In 2%N (StdMap.keys (nodes (local_pose_graph
                                                 (state_of Scenario.r_third)))))
      by (apply H1; vm_compute; tauto).
    vm_compute in Hin. intuition discriminate.
Qed.

(** C4, on the sixth promotion after the row of five keyframes: the search
    evicts keyframe 1, the farthest, from the nodes and from the clouds,
    and sends keyframe 4 to be probed. *)
Lemma C4_search_leaves_same_keys_witness :
  same_keys (state_of Scenario.r_sixth) /\
  StdMap.keys (local_pcs Scenario.s_row) = [1; 2; 3; 4; 5]%N /\
  StdMap.keys (local_pcs (state_of Scenario.r_sixth)) = [2; 3; 4; 5; 6]%N /\
  StdMap.keys (nodes (local_pose_graph (state_of Scenario.r_sixth))) =
    [2; 3; 4; 5; 6]%N.
Proof.
  splits; try (vm_compute; reflexivity).
  destruct (@C4_search_leaves_same_keys Sim.mrpt Scenario.P)
    as (_ & _ & _ & _ & _ & H & _).
  apply (H Scenario.E_sixth (Sim.scan 6000) Scenario.s_row Scenario.cloud
           Scenario.cloud 6%N Scenario.reach_six).
  - vm_compute. reflexivity.
  - vm_compute. reflexivity.
  - vm_compute. reflexivity.
  - vm_compute. reflexivity.
  - vm_compute. splits; first [reflexivity | discriminate].
  - right. split; [reflexivity|]. exists 7%N. split; [reflexivity | discriminate].
  - vm_compute. reflexivity.
  - vm_compute. reflexivity.
  - intros k. vm_compute. tauto.
  - vm_compute. reflexivity.
  - vm_compute. tauto.
Defined.

(** C8, on a scenario: two tasks wait in the pool, the last warning was
    printed at second 100 and the clock reads 102. *)
Lemma C8_load_shed_witness :
  worker_pool_ Scenario.m_shed =
    worker_pool_ Scenario.m_busy /\
  last_obs_tim (state_ Scenario.m_shed) =
    1000%Z /\
  console Scenario.m_shed =
    console Scenario.m_busy /\
  throttled Scenario.m_shed.
Proof.
  destruct (@C8_load_shed Sim.mrpt "lidar" 102%float (Sim.scan 4000) Scenario.m_busy)
    as (H1 & _ & H3 & _ & H5).
  - reflexivity.
  - vm_compute. reflexivity.
  - fold Scenario.m_shed in H1, H3, H5. splits.
    + exact H1.
    + rewrite H3. vm_compute. reflexivity.
    + vm_compute. reflexivity.
    + apply H5. vm_compute. auto.
Defined.

(** * Further properties of the front-end *)

Section FurtherFrames.
Context {L : Mrpt}.
Context {R : MethodState -> list Event -> MethodState -> Prop} `{!Frame R}.

Lemma at_ASSERT_bind_true {B} (b : bool) (k : unit -> M B) s :
  (b = true -> respects_at R (k tt) s) -> respects_at R (bind (ASSERT_ b) k) s.
Proof.
  intros H. unfold respects_at. destruct b.
  - rewrite bind_ASSERT_true. now apply H.
  - rewrite bind_ASSERT_false. apply frame_refl.
Qed.

End FurtherFrames.

Section Further.
Context {L : Mrpt}.
Variable params_ : Parameters.

(** ** What a run never does to the twist and to the last keyframe *)

#[local] Instance keeps_angular_frame : Frame keeps_angular.
Proof.
  split; unfold keeps_angular.
  - auto.
  - intros s1 e1 s2 e2 s3 (A1 & B1 & C1) (A2 & B2 & C2). splits; congruence.
Qed.

#[local] Instance kf_stays_valid_frame : Frame kf_stays_valid.
Proof.
  split; unfold kf_stays_valid.
  - auto.
  - intros s1 e1 s2 e2 s3 [A1|A1] [A2|A2]; try (right; congruence).
    left; congruence.
Qed.

#[local] Instance kf_moves_on_request_frame : Frame kf_moves_on_request.
Proof.
  split; unfold kf_moves_on_request, keyframe_requested.
  - auto.
  - intros s1 e1 s2 e2 s3 A1 A2 H.
    rewrite A2, A1; [reflexivity | |]; intros [kf Hk]; apply H; exists kf;
      apply in_or_app; auto.
Qed.

Ltac angular_leaf := unfold keeps_angular; splits; reflexivity.
Ltac valid_leaf := left; reflexivity.
Ltac request_leaf := intros _; reflexivity.
Ltac steady_leaf := first [ angular_leaf | valid_leaf | request_leaf ].

Lemma evict_loop_keeps_angular adj from_far s :
  respects_at keeps_angular (evict_loop params_ adj from_far) s.
Proof.
  revert s. induction from_far as [|[d id] rest IH]; intros s; cbn [evict_loop];
    repeat frame_step; try angular_leaf; apply IH.
Qed.

Lemma evict_loop_kf_stays_valid adj from_far s :
  respects_at kf_stays_valid (evict_loop params_ adj from_far) s.
Proof.
  revert s. induction from_far as [|[d id] rest IH]; intros s; cbn [evict_loop];
    repeat frame_step; try valid_leaf; apply IH.
Qed.

Lemma evict_loop_kf_moves_on_request adj from_far s :
  respects_at kf_moves_on_request (evict_loop params_ adj from_far) s.
Proof.
  revert s. induction from_far as [|[d id] rest IH]; intros s; cbn [evict_loop];
    repeat frame_step; try request_leaf; apply IH.
Qed.

Lemma checkForNearbyKFs_steady E s :
  respects_at keeps_angular (checkForNearbyKFs params_ E) s /\
  respects_at kf_stays_valid (checkForNearbyKFs params_ E) s /\
  respects_at kf_moves_on_request (checkForNearbyKFs params_ E) s.
Proof.
  unfold checkForNearbyKFs, edge_already_exists, send_for_check. splits.
  - repeat first [ apply evict_loop_keeps_angular | frame_step ]; angular_leaf.
  - repeat first [ apply evict_loop_kf_stays_valid | frame_step ]; valid_leaf.
  - repeat first [ apply evict_loop_kf_moves_on_request | frame_step ]; request_leaf.
Qed.

Lemma create_KF_steady E o t pts s :
  respects_at keeps_angular (create_KF E o t pts) s /\
  respects_at kf_stays_valid (create_KF E o t pts) s /\
  respects_at kf_moves_on_request (create_KF E o t pts) s.
Proof.
  splits.
  - unfold create_KF. repeat frame_step; angular_leaf.
  - unfold create_KF. cbv zeta.
    apply at_emit_bind; [valid_leaf|]. apply at_ASSERT_bind.
    apply at_ASSERT_bind_true. intros Hv.
    destruct (new_kf_id _) as [id|]; [|apply at_throw].
    repeat frame_step; try valid_leaf.
    right. cbn. unfold valid_kf_id in Hv. apply negb_true_iff, N.eqb_neq in Hv.
    exact Hv.
  - intros H. exfalso. apply H.
    destruct (create_KF_requests E o t pts s) as [tl ->].
    eexists. left. reflexivity.
Qed.

Lemma register_and_promote_steady E o t_this t_last pts lpts s :
  respects_at keeps_angular (register_and_promote params_ E o t_this t_last pts lpts) s /\
  respects_at kf_stays_valid (register_and_promote params_ E o t_this t_last pts lpts) s /\
  respects_at kf_moves_on_request (register_and_promote params_ E o t_this t_last pts lpts) s.
Proof.
  unfold register_and_promote. splits.
  - repeat first [ apply create_KF_steady | apply checkForNearbyKFs_steady
                 | frame_step ]; angular_leaf.
  - repeat first [ apply create_KF_steady | apply checkForNearbyKFs_steady
                 | frame_step ]; valid_leaf.
  - repeat first [ apply create_KF_steady | apply checkForNearbyKFs_steady
                 | frame_step ]; request_leaf.
Qed.

Lemma exec_task_steady E t s :
  respects_at keeps_angular (exec_task params_ E t) s /\
  respects_at kf_stays_valid (exec_task params_ E t) s /\
  respects_at kf_moves_on_request (exec_task params_ E t) s.
Proof.
  destruct t as [o|d]; cbn [exec_task];
    unfold doProcessNewObservation, doProcessNewObservation_try,
      doCheckForNonAdjacentKFs, doCheckForNonAdjacentKFs_try, log_exception.
  all: splits; (apply at_catch; [|intros s'; apply at_emit; steady_leaf]).
  all: repeat first [ apply register_and_promote_steady | frame_step ];
    steady_leaf.
Qed.

Lemma run_tasks_steady tasks s :
  respects_at keeps_angular (run_tasks params_ tasks) s /\
  respects_at kf_stays_valid (run_tasks params_ tasks) s /\
  respects_at kf_moves_on_request (run_tasks params_ tasks) s.
Proof.
  revert s. induction tasks as [|[E t] rest IH]; intros s; cbn [run_tasks].
  - splits; apply at_ret.
  - splits; (apply at_bind; [apply exec_task_steady | intros _ _; apply IH]).
Qed.

(** X1. No task ever writes the angular part of the twist: over a run it
    keeps the values it had. *)
Theorem X1_angular_velocity_is_never_written tasks s :
  wx (last_iter_twist (state_of (run_tasks params_ tasks s))) = wx (last_iter_twist s) /\
  wy (last_iter_twist (state_of (run_tasks params_ tasks s))) = wy (last_iter_twist s) /\
  wz (last_iter_twist (state_of (run_tasks params_ tasks s))) = wz (last_iter_twist s).
Proof. exact (proj1 (run_tasks_steady tasks s)). Qed.

(** X2. Over a run, [last_kf] changes only if the back-end was asked for a
    keyframe, and once it holds a valid id it never goes back to
    [INVALID_ID]. *)
Theorem X2_last_kf_is_never_unset tasks s :
  (~ keyframe_requested (events_of (run_tasks params_ tasks s)) ->
   last_kf (state_of (run_tasks params_ tasks s)) = last_kf s) /\
  (last_kf s <> INVALID_ID ->
   last_kf (state_of (run_tasks params_ tasks s)) <> INVALID_ID).
Proof.
  destruct (run_tasks_steady tasks s) as (_ & Hv & Hr). split.
  - exact Hr.
  - intros Hs. destruct Hv as [Hv|Hv]; [congruence | exact Hv].
Qed.

(** ** Exceptions stop at the task boundary *)

Lemma flow_of_catch_log (m : M unit) s :
  flow_of (catch m log_exception s) =
  match flow_of (m s) with Thrown => Normal tt | f => f end.
Proof.
  unfold catch. cbv zeta. destruct (flow_of (m s)) eqn:F; try reflexivity.
  all: exact F.
Qed.

Lemma exec_task_catches E t :
  exec_task params_ E t = catch (task_body params_ E t) log_exception.
Proof. destruct t; reflexivity. Qed.

Lemma exec_task_flow E t s :
  flow_of (exec_task params_ E t s) = Normal tt \/
  flow_of (exec_task params_ E t s) = Undefined.
Proof.
  rewrite exec_task_catches, flow_of_catch_log.
  destruct (flow_of (task_body params_ E t s)) as [[]| |]; auto.
Qed.

#[local] Instance logs_no_exception_frame : Frame logs_no_exception.
Proof.
  split; unfold logs_no_exception, exception_logged.
  - intros s [].
  - intros s1 e1 s2 e2 s3 H1 H2 H.
    apply in_app_or in H as [H|H]; auto.
Qed.

Ltac silent_leaf :=
  let H := fresh in
  intros H; cbn in H;
  repeat (destruct H as [H|H]; [discriminate H|]); destruct H.

Lemma evict_loop_logs_no_exception adj from_far s :
  respects_at logs_no_exception (evict_loop params_ adj from_far) s.
Proof.
  revert s. induction from_far as [|[d id] rest IH]; intros s; cbn [evict_loop];
    repeat frame_step; try silent_leaf; apply IH.
Qed.

(** None of the entries that the code itself writes to the log is the one
    of the catch block. *)
Lemma task_body_logs_no_exception E t s :
  respects_at logs_no_exception (task_body params_ E t) s.
Proof.
  destruct t as [o|d]; cbn [task_body];
    unfold doProcessNewObservation_try, register_and_promote, create_KF,
      checkForNearbyKFs, edge_already_exists, send_for_check,
      doCheckForNonAdjacentKFs_try.
  all: repeat first [ apply evict_loop_logs_no_exception | frame_step ];
    silent_leaf.
Qed.

Lemma flow_of_bind_never_throws {A B} (m : M A) (k : A -> M B) s :
  flow_of (m s) <> Thrown ->
  (forall a, flow_of (m s) = Normal a -> flow_of (k a (state_of (m s))) <> Thrown) ->
  flow_of (bind m k s) <> Thrown.
Proof.
  intros Hm Hk. unfold bind. cbv zeta.
  destruct (flow_of (m s)) as [a| |] eqn:F; cbn [flow_of];
    [now apply Hk | contradiction | discriminate].
Qed.

(** With an outside that grants everything, the promotion goes through. *)
Lemma create_KF_when_granted E o t pts s :
  outside_grants E -> flow_of (create_KF E o t pts s) = Normal tt.
Proof.
  intros (Hkf & Hf & _).
  destruct (Hkf (mkKFIn t [o])) as [id Hm].
  apply (@create_KF_granted L E o t pts s id Hm).
  right. apply Hf.
Qed.

(** With an outside that grants everything, and its clouds at hand, the
    body of a task raises no exception. *)
Lemma task_body_never_throws E t s :
  outside_grants E -> carries_clouds t ->
  flow_of (task_body params_ E t s) <> Thrown.
Proof.
  intros HE Ht. destruct t as [o|d]; cbn [task_body].
  - (* the odometry task *)
    unfold doProcessNewObservation_try. rewrite bind_get. cbv zeta.
    destruct (too_close_in_time params_ s (timestamp o)); [cbn; discriminate|].
    destruct (insertObservationPtr E o) as [have pts]. rewrite bind_put.
    destruct (last_points s) as [lp|]; [|cbn; discriminate].
    destruct (negb have); [cbn; discriminate|].
    rewrite (@register_and_promote_unfold L params_). cbv zeta.
    apply flow_of_bind_never_throws.
    + destruct (should_create_KF _ _ _); [|cbn; discriminate].
      rewrite create_KF_when_granted by exact HE. discriminate.
    + intros _ _. rewrite bind_get.
      destruct (1 <? _)%N; [|cbn; discriminate].
      apply (@checkForNearbyKFs_never_throws L params_). apply HE.
  - (* the probe task *)
    destruct Ht as [Hf Hp]. unfold doCheckForNonAdjacentKFs_try.
    destruct (from_pc d) as [pf|]; [|contradiction].
    destruct (to_pc d) as [pt|]; [|contradiction].
    cbv zeta. destruct (accept_edge _ _ _); [|cbn; discriminate].
    destruct HE as (_ & Hfac & _).
    match goal with |- context [addFactor E ?f] =>
      destruct (proj1 (@factor_accepted_asserts L E f) (Hfac f)) as [H1 H2]
    end.
    run. rewrite H1. run. rewrite H2. run. cbn. discriminate.
Qed.

Lemma exec_task_logs_no_exception E t s :
  outside_grants E -> carries_clouds t ->
  respects_at logs_no_exception (exec_task params_ E t) s.
Proof.
  intros HE Ht. pose proof (@task_body_never_throws E t s HE Ht) as Hnt.
  pose proof (task_body_logs_no_exception E t s) as Hq.
  unfold respects_at in *. rewrite exec_task_catches. unfold catch. cbv zeta.
  destruct (flow_of (task_body params_ E t s)); [exact Hq | contradiction | exact Hq].
Qed.

(** X3. No exception leaves a task.  A run of tasks ends normally, unless
    it ran into undefined behaviour: the eviction loop reading the last
    entry of an emptied map, or the difference of two ids overflowing.  An
    exception raised in a task is caught at its boundary, where the task
    logs it, exactly once and as the last thing it does, keeps the state
    as the exception left it, and returns; no other entry of a task's log
    is that one.  And exceptions come from the outside only: over a run in
    which the back-end grants every keyframe and every factor, the
    Dijkstra pass answers, and every probe task carries its two clouds, no
    exception is logged. *)
Theorem X3_no_exception_leaves_a_task tasks s :
  (flow_of (run_tasks params_ tasks s) = Normal tt \/
   flow_of (run_tasks params_ tasks s) = Undefined) /\
  (forall E t s0,
     let r := exec_task params_ E t s0 in
     let body := task_body params_ E t s0 in
     flow_of r <> Thrown /\
     (exception_logged (events_of r) <-> flow_of body = Thrown) /\
     (flow_of body = Thrown ->
      flow_of r = Normal tt /\ state_of r = state_of body /\
      events_of r = events_of body ++ [EvLog LVL_ERROR "Exception"]) /\
     (flow_of body <> Thrown -> r = body)) /\
  (Forall (fun Et => outside_grants (fst Et) /\ carries_clouds (snd Et)) tasks ->
   ~ exception_logged (events_of (run_tasks params_ tasks s))).
Proof.
  splits.
  - revert s. induction tasks as [|[E t] rest IH]; intros s; cbn [run_tasks].
    + left. reflexivity.
    + destruct (exec_task_flow E t s) as [H|H].
      * rewrite (bind_normal _ _ _ H), flow_of_prepend. apply IH.
      * rewrite (bind_undefined _ _ _ H). right. reflexivity.
  - intros E t s0 r body. subst r body.
    pose proof (task_body_logs_no_exception E t s0) as Hq.
    unfold respects_at, logs_no_exception in Hq.
    rewrite exec_task_catches. unfold catch. cbv zeta.
    destruct (flow_of (task_body params_ E t s0)) as [[]| |] eqn:F; splits.
    + rewrite F. discriminate.
    + split; [intros H; contradiction | discriminate].
    + discriminate.
    + reflexivity.
    + cbn. discriminate.
    + split; [reflexivity|]. intros _. unfold exception_logged. cbn.
      apply in_or_app. right. now left.
    + intros _. cbn. auto.
    + intros H. contradiction.
    + rewrite F. discriminate.
    + split; [intros H; contradiction | discriminate].
    + discriminate.
    + reflexivity.
  - revert s. induction tasks as [|[E t] rest IH]; intros s Hall; cbn [run_tasks].
    + intros [].
    + inversion Hall as [|? ? [HE Ht] Hrest]; subst. cbn [fst snd] in HE, Ht.
      change (respects_at logs_no_exception
                (bind (exec_task params_ E t) (fun _ => run_tasks params_ rest)) s).
      apply at_bind; [now apply exec_task_logs_no_exception|].
      intros _ _. apply IH. exact Hrest.
Qed.

(** ** The probe worker and the state *)

(** X4. A probe task always returns normally, and all it can change in the
    state is the list of edges of the local graph, by appending the edge
    from [from_id] to [to_id]. *)
Theorem X4_probe_only_appends_an_edge E d s :
  flow_of (doCheckForNonAdjacentKFs params_ E d s) = Normal tt /\
  (state_of (doCheckForNonAdjacentKFs params_ E d s) = s \/
   exists p,
     state_of (doCheckForNonAdjacentKFs params_ E d s) =
     set_graph (insertEdgeAtEnd (from_id d) (to_id d) p (local_pose_graph s)) s).
Proof.
  destruct (from_pc d) as [pf|] eqn:Hf; [destruct (to_pc d) as [pt|] eqn:Ht|].
  - rewrite (@probe_run L params_ E d s pf pt Hf Ht). cbv zeta.
    destruct (accept_edge _ _ _); [destruct (_ && _)|]; cbn [flow_of state_of];
      split; auto.
    right. eexists. reflexivity.
  - rewrite (@probe_without_cloud L params_ E d s) by auto. cbn. auto.
  - rewrite (@probe_without_cloud L params_ E d s) by auto. cbn. auto.
Qed.

(** X5. A probe task that lacks one of its two clouds registers nothing:
    it submits no factor, leaves the state as it is and logs the failed
    assertion. *)
Theorem X5_probe_without_cloud_does_nothing E d s :
  from_pc d = None \/ to_pc d = None ->
  flow_of (doCheckForNonAdjacentKFs params_ E d s) = Normal tt /\
  state_of (doCheckForNonAdjacentKFs params_ E d s) = s /\
  events_of (doCheckForNonAdjacentKFs params_ E d s) =
    [EvLog LVL_ERROR "Exception"].
Proof.
  intros H. rewrite (@probe_without_cloud L params_ E d s H). cbn. auto.
Qed.

(** ** The odometry task, path by path *)

#[local] Instance calls_no_backend_frame : Frame calls_no_backend.
Proof.
  split; unfold calls_no_backend, backend_calls.
  - reflexivity.
  - intros s1 e1 s2 e2 s3 H1 H2. now rewrite filter_app, H1, H2.
Qed.

Lemma evict_loop_calls_no_backend adj from_far s :
  respects_at calls_no_backend (evict_loop params_ adj from_far) s.
Proof.
  revert s. induction from_far as [|[d id] rest IH]; intros s; cbn [evict_loop];
    repeat frame_step; try reflexivity; apply IH.
Qed.

Lemma search_calls_no_backend E s :
  respects_at calls_no_backend
    (bind get (fun s => if (1 <? StdMap.size (local_pcs s))%N
                        then checkForNearbyKFs params_ E else ret tt)) s.
Proof.
  unfold checkForNearbyKFs, edge_already_exists, send_for_check.
  repeat first [ apply evict_loop_calls_no_backend | frame_step ]; reflexivity.
Qed.

(** X6. A scan that follows the previous one by less than
    [min_time_between_scans] is dropped at once: the task changes nothing
    and calls nobody. *)
Theorem X6_scan_too_close_in_time_is_dropped E o s :
  too_close_in_time params_ s (timestamp o) = true ->
  doProcessNewObservation params_ E o s = mkResult (Normal tt) s [].
Proof.
  intros H. unfold doProcessNewObservation, doProcessNewObservation_try.
  erewrite catch_normal; rewrite bind_get; cbv zeta; rewrite H; reflexivity.
Qed.

(** X7. With no previous cloud the task only stores the scan, its time
    stamp and its cloud, and says so: no registration, no keyframe, and no
    warning either when the scan did not convert. *)
Theorem X7_first_scan_is_only_stored E o s :
  too_close_in_time params_ s (timestamp o) = false ->
  last_points s = None ->
  doProcessNewObservation params_ E o s =
  mkResult (Normal tt)
    (set_obs (Some o) (timestamp o) (Some (snd (insertObservationPtr E o))) s)
    [EvLog LVL_DEBUG "First pointcloud: skipping ICP."].
Proof.
  intros Hclose Hlp. unfold doProcessNewObservation, doProcessNewObservation_try.
  destruct (insertObservationPtr E o) as [have pts] eqn:Hconv. cbn [snd].
  erewrite catch_normal; rewrite bind_get; cbv zeta; rewrite Hclose;
    cbv beta iota; rewrite bind_put, Hlp; reflexivity.
Qed.

(** X8. A registered scan that does not make a keyframe composes the
    registered pose onto the accumulated one and stores the new twist;
    [last_kf] stays and the back-end is not called. *)
Theorem X8_scan_without_promotion E o s lp pts :
  too_close_in_time params_ s (timestamp o) = false ->
  last_points s = Some lp ->
  insertObservationPtr E o = (true, pts) ->
  let dt := scan_dt (last_obs_tim s) (timestamp o) in
  let icp_out := run_one_icp params_ E
                   (mkICPIn pts lp (odometry_guess (last_iter_twist s) dt)) in
  let rel_pose := found_pose_to_wrt_from icp_out in
  should_create_KF params_ (goodness icp_out)
    (norm (compose (accum_since_last_kf s) rel_pose)) = false ->
  let r := doProcessNewObservation params_ E o s in
  accum_since_last_kf (state_of r) = compose (accum_since_last_kf s) rel_pose /\
  last_iter_twist (state_of r) = updated_twist (last_iter_twist s) rel_pose dt /\
  last_kf (state_of r) = last_kf s /\
  backend_calls (events_of r) = [].
Proof.
  intros Hclose Hlp Hconv dt icp_out rel_pose Hno r. subst r.
  unfold doProcessNewObservation.
  rewrite state_of_catch_log.
  assert (Hev : forall m : M unit, backend_calls (events_of (m s)) = [] ->
            backend_calls (events_of (catch m log_exception s)) = []).
  { intros m Hm. unfold catch. cbv zeta.
    destruct (flow_of (m s)); try exact Hm.
    cbn. unfold backend_calls in *. now rewrite filter_app, Hm. }
  rewrite (@try_registers L params_ E o s lp pts Hclose Hlp Hconv) in *.
  assert (Hm : backend_calls (events_of
                 (register_and_promote params_ E o (timestamp o) (last_obs_tim s)
                    pts lp (set_obs (Some o) (timestamp o) (Some pts) s))) = [] /\
               keeps_motion
                 (set_accum (compose (accum_since_last_kf s) rel_pose)
                    (set_twist (updated_twist (last_iter_twist s) rel_pose dt)
                       (set_obs (Some o) (timestamp o) (Some pts) s)))
                 (events_of
                    (register_and_promote params_ E o (timestamp o) (last_obs_tim s)
                       pts lp (set_obs (Some o) (timestamp o) (Some pts) s)))
                 (state_of
                    (register_and_promote params_ E o (timestamp o) (last_obs_tim s)
                       pts lp (set_obs (Some o) (timestamp o) (Some pts) s)))).
  { rewrite register_and_promote_unfold. cbv zeta.
    cbn [last_iter_twist accum_since_last_kf set_obs set_accum set_twist].
    fold dt. fold icp_out. fold rel_pose. rewrite Hno, bind_ret.
    split; [apply search_calls_no_backend | apply search_keeps_motion]. }
  destruct Hm as (Hb & Ha & Hk & Ht & _).
  splits; [exact Ha | exact Ht | exact Hk |].
  rewrite <- (@try_registers L params_ E o s lp pts Hclose Hlp Hconv) in Hb.
  apply Hev in Hb. exact Hb.
Qed.

(** X9. When the back-end turns the keyframe down (no success, no id or
    the invalid id), the task stops at the assertion with the registration
    already applied: the accumulated pose holds the displacement, while
    [local_pcs], the local graph and [last_kf] are as before and no factor
    is submitted. *)
Theorem X9_keyframe_turned_down E o s lp pts :
  too_close_in_time params_ s (timestamp o) = false ->
  last_points s = Some lp ->
  insertObservationPtr E o = (true, pts) ->
  let dt := scan_dt (last_obs_tim s) (timestamp o) in
  let icp_out := run_one_icp params_ E
                   (mkICPIn pts lp (odometry_guess (last_iter_twist s) dt)) in
  let rel_pose := found_pose_to_wrt_from icp_out in
  let accum := compose (accum_since_last_kf s) rel_pose in
  should_create_KF params_ (goodness icp_out) (norm accum) = true ->
  (kf_success (addKeyFrame E (mkKFIn (timestamp o) [o])) = false \/
   valid_kf_id (new_kf_id (addKeyFrame E (mkKFIn (timestamp o) [o]))) = false) ->
  doProcessNewObservation params_ E o s =
  mkResult (Normal tt)
    (set_accum accum
       (set_twist (updated_twist (last_iter_twist s) rel_pose dt)
          (set_obs (Some o) (timestamp o) (Some pts) s)))
    [EvAddKeyFrame (mkKFIn (timestamp o) [o]); EvLog LVL_ERROR "Exception"].
Proof.
  intros Hclose Hlp Hconv dt icp_out rel_pose accum Hcreate Hrej.
  assert (Htry : doProcessNewObservation_try params_ E o s =
                 mkResult Thrown
                   (set_accum accum
                      (set_twist (updated_twist (last_iter_twist s) rel_pose dt)
                         (set_obs (Some o) (timestamp o) (Some pts) s)))
                   [EvAddKeyFrame (mkKFIn (timestamp o) [o])]).
  { rewrite (@try_registers L params_ E o s lp pts Hclose Hlp Hconv).
    rewrite register_and_promote_unfold. cbv zeta.
    cbn [last_iter_twist accum_since_last_kf set_obs set_accum set_twist].
    fold dt. fold icp_out. fold rel_pose. fold accum. rewrite Hcreate.
    rewrite bind_thrown;
      rewrite (@create_KF_keyframe_rejected L E o (timestamp o) pts _ Hrej);
      reflexivity. }
  unfold doProcessNewObservation. rewrite catch_thrown; rewrite Htry; reflexivity.
Qed.

(** ** The promotion block *)

(** X10. When the keyframe is minted, a previous keyframe exists and the
    back-end accepts the factor, the promotion stores the cloud under the
    new id, submits one factor from the previous keyframe to the new one
    with the accumulated pose, appends to the local graph the edge from
    the new keyframe to the previous one with that same pose, and only then
    resets the accumulated pose and moves [last_kf]. *)
Theorem X10_promotion_with_previous_keyframe E o t pts s id :
  backend_mints E (mkKFIn t [o]) id ->
  last_kf s <> INVALID_ID ->
  factor_accepted E (mkFactor (last_kf s) id (asTPose (accum_since_last_kf s))) ->
  create_KF E o t pts s =
  mkResult (Normal tt)
    (set_last_kf id
       (set_accum CPose3D_Identity
          (set_graph
             (insertEdgeAtEnd id (last_kf s) (accum_since_last_kf s)
                              (local_pose_graph s))
             (set_local_pcs (StdMap.assign N.ltb id (Some pts) (local_pcs s)) s))))
    [EvAddKeyFrame (mkKFIn t [o]);
     EvAddFactor (mkFactor (last_kf s) id (asTPose (accum_since_last_kf s)));
     EvLog LVL_INFO "New KF"].
Proof.
  intros (Hs & Hid & Hv) Hk Hf. unfold create_KF. cbv zeta.
  apply (@factor_accepted_asserts L) in Hf. destruct Hf as (Hf1 & Hf2).
  apply N.eqb_neq in Hv. apply N.eqb_neq in Hk.
  rewrite Hs, Hid. unfold valid_kf_id. rewrite Hv. cbn [negb]. run.
  cbn [last_kf set_local_pcs accum_since_last_kf]. rewrite Hk. cbn [negb]. run.
  rewrite Hf1, Hf2. run. reflexivity.
Qed.

(** X11. The first keyframe has no previous one to tie to: the promotion
    stores the cloud, resets the accumulated pose and sets [last_kf], and
    neither submits a factor nor adds an edge. *)
Theorem X11_first_keyframe_has_no_factor E o t pts s id :
  backend_mints E (mkKFIn t [o]) id ->
  last_kf s = INVALID_ID ->
  create_KF E o t pts s =
  mkResult (Normal tt)
    (set_last_kf id
       (set_accum CPose3D_Identity
          (set_local_pcs (StdMap.assign N.ltb id (Some pts) (local_pcs s)) s)))
    [EvAddKeyFrame (mkKFIn t [o]); EvLog LVL_INFO "New KF"].
Proof.
  intros (Hs & Hid & Hv) Hk. unfold create_KF. cbv zeta.
  apply N.eqb_neq in Hv.
  rewrite Hs, Hid. unfold valid_kf_id. rewrite Hv. cbn [negb]. run.
  cbn [last_kf set_local_pcs accum_since_last_kf]. rewrite Hk.
  change (INVALID_ID =? INVALID_ID)%N with true. cbn [negb]. run. reflexivity.
Qed.

(** ** The eviction loop *)

#[local] Instance shrinks_frame : Frame shrinks.
Proof.
  split; unfold shrinks.
  - intros s. splits; apply incl_refl.
  - intros s1 e1 s2 e2 s3 (A1 & B1 & C1) (A2 & B2 & C2).
    splits; eapply incl_tran; eassumption.
Qed.

Lemma edges_erase_incl k (es : list ((TNodeID * TNodeID) * CPose3D)) :
  incl (edges_erase k es) es.
Proof. unfold edges_erase. intros e H. now apply filter_In in H. Qed.

Lemma edges_erase_gone k (es : list ((TNodeID * TNodeID) * CPose3D)) e :
  In e (edges_erase k es) -> fst e <> k.
Proof.
  unfold edges_erase. intros H Heq. apply filter_In in H as [_ H].
  apply negb_true_iff in H. unfold pair_eqb in H. rewrite Heq in H.
  now rewrite !N.eqb_refl in H.
Qed.

Lemma erase_around (id : TNodeID) others (es : list ((TNodeID * TNodeID) * CPose3D)) e :
  In e (fold_left (fun es other_id =>
                     edges_erase (other_id, id) (edges_erase (id, other_id) es))
                  others es) ->
  In e es /\
  forall other_id, In other_id others ->
                   fst e <> (id, other_id) /\ fst e <> (other_id, id).
Proof.
  revert es. induction others as [|b rest IH]; intros es H; cbn [fold_left] in H.
  - split; [exact H | intros ? []].
  - apply IH in H as [H1 H2].
    pose proof (@edges_erase_gone _ _ _ H1) as G1.
    apply edges_erase_incl in H1.
    pose proof (@edges_erase_gone _ _ _ H1) as G2.
    apply edges_erase_incl in H1.
    split; [exact H1|]. intros b' [<-|Hb]; [auto | now apply H2].
Qed.

Lemma adjacency_complete (es : list ((TNodeID * TNodeID) * CPose3D)) e :
  In e es ->
  In (snd (fst e)) (getAdjacencyMatrix es (fst (fst e))) /\
  In (fst (fst e)) (getAdjacencyMatrix es (snd (fst e))).
Proof.
  intros H. unfold getAdjacencyMatrix. split; apply in_flat_map; exists e;
    (split; [exact H|]); apply in_or_app.
  - left. rewrite N.eqb_refl. now left.
  - right. rewrite N.eqb_refl. now left.
Qed.

Lemma evict_one_untouched es0 id s e :
  incl (edges (local_pose_graph s)) es0 ->
  In e (edges (local_pose_graph (evict_one (getAdjacencyMatrix es0) id s))) ->
  ~ touches id e.
Proof.
  intros Hin H. unfold evict_one in H.
  cbn [local_pose_graph edges set_local_pcs set_graph] in H.
  apply erase_around in H as [H1 H2]. apply Hin in H1.
  destruct (@adjacency_complete _ _ H1) as [A1 A2].
  destruct e as [[a b] p]. cbn [fst snd] in *. intros [T|T]; subst.
  - destruct (H2 b A1) as [G _]. now apply G.
  - destruct (H2 a A2) as [_ G]. now apply G.
Qed.

Lemma evict_one_shrinks adj id s : shrinks s [] (evict_one adj id s).
Proof.
  unfold shrinks, evict_one.
  cbn [local_pose_graph edges nodes local_pcs set_local_pcs set_graph]. splits.
  - intros e H. now apply erase_around in H.
  - intros k H. now apply keys_erase in H.
  - intros k H. now apply keys_erase in H.
Qed.

Lemma evict_loop_shrinks adj from_far s :
  respects_at shrinks (evict_loop params_ adj from_far) s.
Proof.
  revert s. induction from_far as [|[d id] rest IH]; intros s; cbn [evict_loop];
    repeat frame_step; try apply IH.
  apply evict_one_shrinks.
Qed.

Lemma evict_loop_removes es0 from_far s k :
  incl (edges (local_pose_graph s)) es0 ->
  In k (StdMap.keys (nodes (local_pose_graph s))) ->
  ~ In k (StdMap.keys (nodes (local_pose_graph
            (state_of (evict_loop params_ (getAdjacencyMatrix es0) from_far s))))) ->
  ~ In k (StdMap.keys (local_pcs
            (state_of (evict_loop params_ (getAdjacencyMatrix es0) from_far s)))) /\
  forall e,
    In e (edges (local_pose_graph
            (state_of (evict_loop params_ (getAdjacencyMatrix es0) from_far s)))) ->
    ~ touches k e.
Proof.
  revert s. induction from_far as [|[d id] rest IH]; intros s Hes Hin Hout;
    cbn [evict_loop] in *; rewrite bind_get in *;
    destruct (_ <? _)%N; try (exfalso; exact (Hout Hin)).
  rewrite bind_put in *.
  set (s1 := evict_one (getAdjacencyMatrix es0) id s) in *.
  assert (Hes1 : incl (edges (local_pose_graph s1)) es0).
  { eapply incl_tran; [|exact Hes]. apply (@evict_one_shrinks (getAdjacencyMatrix es0) id s). }
  destruct (N.eq_dec k id) as [->|Hne].
  - destruct (evict_loop_shrinks (getAdjacencyMatrix es0) rest s1) as (Se & Sp & _).
    split.
    + intros H. apply Sp in H. unfold s1, evict_one in H.
      cbn [local_pcs set_local_pcs] in H. apply keys_erase in H. now destruct H.
    + intros e H. apply Se in H. now apply (@evict_one_untouched _ _ _ _ Hes) in H.
  - apply IH; [exact Hes1 | | exact Hout].
    unfold s1, evict_one. cbn [local_pose_graph nodes set_local_pcs set_graph].
    apply keys_erase. auto.
Qed.

(** X12. Every node that the eviction loop takes out of the graph loses
    its point cloud and every edge that touches it, in either direction;
    and the loop only ever takes away. *)
Theorem X12_evicted_nodes_lose_cloud_and_edges from_far s k :
  let r := evict_loop params_ (getAdjacencyMatrix (edges (local_pose_graph s)))
                      from_far s in
  In k (StdMap.keys (nodes (local_pose_graph s))) ->
  ~ In k (StdMap.keys (nodes (local_pose_graph (state_of r)))) ->
  ~ In k (StdMap.keys (local_pcs (state_of r))) /\
  (forall e, In e (edges (local_pose_graph (state_of r))) -> ~ touches k e) /\
  incl (edges (local_pose_graph (state_of r))) (edges (local_pose_graph s)) /\
  incl (StdMap.keys (local_pcs (state_of r))) (StdMap.keys (local_pcs s)).
Proof.
  intros r Hin Hout.
  destruct (@evict_loop_removes _ from_far s k (incl_refl _) Hin Hout) as [H1 H2].
  destruct (evict_loop_shrinks (getAdjacencyMatrix (edges (local_pose_graph s)))
              from_far s) as (Se & Sp & _).
  splits; assumption.
Qed.

(** *** Ids in the map of distances *)

Lemma assign_ids_incl {K} (lt : K -> K -> bool) k (v : TNodeID) m :
  incl (map snd (StdMap.assign lt k v m)) (v :: map snd m).
Proof.
  induction m as [|[k1 v1] r IH]; cbn [StdMap.assign].
  - apply incl_refl.
  - destruct (lt k k1); [apply incl_refl|].
    destruct (lt k1 k); cbn [map snd].
    + intros x [<-|H]; [right; now left|].
      apply IH in H as [<-|H]; [now left | right; now right].
    + intros x [<-|H]; [now left | right; now right].
Qed.

Lemma assign_ids_NoDup {K} (lt : K -> K -> bool) k (v : TNodeID) m :
  NoDup (map snd m) -> ~ In v (map snd m) ->
  NoDup (map snd (StdMap.assign lt k v m)).
Proof.
  induction m as [|[k1 v1] r IH]; cbn [StdMap.assign map snd]; intros Hn Hv.
  - constructor; [intros [] | constructor].
  - inversion Hn as [|? ? Hv1 Hr]; subst.
    destruct (lt k k1); [constructor; assumption|].
    destruct (lt k1 k); cbn [map snd].
    + constructor.
      * intros H. apply assign_ids_incl in H as [<-|H]; [|contradiction].
        apply Hv. now left.
      * apply IH; [assumption|]. intros H. apply Hv. now right.
    + constructor; [|assumption]. intros H. apply Hv. now right.
Qed.

Lemma build_ids (ns : list (TNodeID * CPose3D)) m :
  NoDup (StdMap.keys ns) -> NoDup (map snd m) ->
  (forall k, In k (StdMap.keys ns) -> ~ In k (map snd m)) ->
  let r := fold_left
             (fun m kfs => StdMap.assign PrimFloat.ltb (norm (snd kfs)) (fst kfs) m)
             ns m in
  NoDup (map snd r) /\ incl (map snd r) (map snd m ++ StdMap.keys ns).
Proof.
  revert m. induction ns as [|[k p] rest IH]; intros m Hk Hm Hd; cbn [fold_left].
  - split; [assumption|]. rewrite app_nil_r. apply incl_refl.
  - cbn [StdMap.keys map fst snd] in *. inversion Hk as [|? ? Hk1 Hk2]; subst.
    destruct (IH (StdMap.assign PrimFloat.ltb (norm p) k m)) as [N1 I1].
    + exact Hk2.
    + apply assign_ids_NoDup; [assumption|]. apply Hd. now left.
    + intros k' Hk' H. apply assign_ids_incl in H as [<-|H].
      * now apply Hk1.
      * apply (Hd k'); [now right | assumption].
    + split; [exact N1|]. intros x Hx. apply I1 in Hx.
      apply in_app_or in Hx as [Hx|Hx].
      * apply assign_ids_incl in Hx as [<-|Hx]; apply in_or_app;
          [right; now left | now left].
      * apply in_or_app. right. now right.
Qed.

Lemma build_KF_distances_ids (ns : list (TNodeID * CPose3D)) :
  NoDup (StdMap.keys ns) ->
  NoDup (map snd (build_KF_distances ns)) /\
  incl (map snd (build_KF_distances ns)) (StdMap.keys ns).
Proof.
  intros H. destruct (@build_ids ns [] H) as [N1 I1].
  - constructor.
  - intros ? ? [].
  - split; assumption.
Qed.

(** *** Counting nodes *)

Lemma keys_erase_NoDup {V} k (m : list (TNodeID * V)) :
  NoDup (StdMap.keys m) -> NoDup (StdMap.keys (StdMap.erase N.ltb k m)).
Proof.
  unfold StdMap.keys, StdMap.erase.
  induction m as [|[k1 v1] r IH]; cbn [filter map fst]; intros H.
  - constructor.
  - inversion H as [|? ? H1 H2]; subst.
    destruct (negb _); cbn [map fst]; [|now apply IH].
    constructor; [|now apply IH]. intros Hin. apply H1.
    apply in_map_iff in Hin as [[k2 v2] [<- Hf]]. apply filter_In in Hf as [Hf _].
    apply in_map_iff. exists (k2, v2). auto.
Qed.

Lemma erase_length {V} k (m : list (TNodeID * V)) :
  NoDup (StdMap.keys m) -> In k (StdMap.keys m) ->
  S (List.length (StdMap.erase N.ltb k m)) = List.length m.
Proof.
  unfold StdMap.keys, StdMap.erase.
  induction m as [|[k1 v1] r IH]; cbn [filter map fst List.length]; intros H Hin.
  - destruct Hin.
  - inversion H as [|? ? H1 H2]; subst. cbn [fst].
    destruct (StdMap.equiv N.ltb k k1) eqn:Ek; cbn [negb List.length].
    + apply equiv_id in Ek. subst k1. f_equal.
      clear IH H Hin H2. induction r as [|[k2 v2] r IH]; [reflexivity|].
      cbn [filter fst map] in *.
      destruct (StdMap.equiv N.ltb k k2) eqn:Ek2.
      * apply equiv_id in Ek2. subst. exfalso. apply H1. now left.
      * cbn [negb List.length]. f_equal. apply IH. intros Hin. apply H1. now right.
    + f_equal. apply IH; [assumption|]. destruct Hin as [->|Hin]; [|assumption].
      apply equiv_id_false in Ek. congruence.
Qed.

Lemma subscript_present {V} (d : V) k (m : list (TNodeID * V)) :
  In k (StdMap.keys m) -> snd (StdMap.subscript N.ltb d k m) = m.
Proof.
  intros H. unfold StdMap.subscript.
  destruct (StdMap.find N.ltb k m) eqn:F; [reflexivity|].
  apply find_none_keys in F. contradiction.
Qed.

(** *** The cap *)

Lemma evict_loop_cap adj from_far s rest :
  flow_of (evict_loop params_ adj from_far s) = Normal rest ->
  (StdMap.size (nodes (local_pose_graph
      (state_of (evict_loop params_ adj from_far s)))) <= max_KFs_local_graph params_)%N.
Proof.
  revert s. induction from_far as [|[d id] more IH]; intros s;
    cbn [evict_loop]; rewrite bind_get;
    destruct (_ <? _)%N eqn:C; try (intros _; apply N.ltb_ge in C; exact C).
  - intros H. unfold undefined in H. cbn in H. inversion H.
  - rewrite bind_put. apply IH.
Qed.

Lemma evict_loop_rest_are_nodes adj from_far s rest :
  NoDup (map snd from_far) ->
  incl (map snd from_far) (StdMap.keys (nodes (local_pose_graph s))) ->
  flow_of (evict_loop params_ adj from_far s) = Normal rest ->
  incl (map snd rest)
       (StdMap.keys (nodes (local_pose_graph
          (state_of (evict_loop params_ adj from_far s))))).
Proof.
  revert s. induction from_far as [|[d id] more IH]; intros s Hn Hi;
    cbn [evict_loop]; rewrite bind_get;
    destruct (_ <? _)%N;
    try (intros H; unfold ret in H; cbn in H; injection H as <-; exact Hi).
  - intros H. unfold undefined in H. cbn in H. inversion H.
  - rewrite bind_put. cbn [map snd] in Hn, Hi.
    inversion Hn as [|? ? Hid Hmore]; subst.
    apply IH; [exact Hmore|].
    intros k Hk. unfold evict_one.
    cbn [local_pose_graph nodes set_local_pcs set_graph].
    apply keys_erase. split.
    + intros ->. contradiction.
    + apply Hi. now right.
Qed.

Lemma evict_loop_without_ties adj from_far s :
  NoDup (StdMap.keys (nodes (local_pose_graph s))) ->
  NoDup (map snd from_far) ->
  (forall k, In k (map snd from_far) <->
             In k (StdMap.keys (nodes (local_pose_graph s)))) ->
  exists rest,
    flow_of (evict_loop params_ adj from_far s) = Normal rest /\
    StdMap.size (nodes (local_pose_graph
       (state_of (evict_loop params_ adj from_far s)))) =
    N.min (StdMap.size (nodes (local_pose_graph s))) (max_KFs_local_graph params_).
Proof.
  revert s. induction from_far as [|[d id] more IH]; intros s Hk Hn Hiff;
    cbn [evict_loop]; rewrite bind_get;
    destruct (_ <? _)%N eqn:C.
  - exfalso. apply N.ltb_lt in C.
    destruct (nodes (local_pose_graph s)) as [|[k v] r]; [cbn in C; lia|].
    apply (Hiff k). now left.
  - apply N.ltb_ge in C. eexists. split; [reflexivity|].
    unfold ret. cbn [state_of]. now rewrite N.min_l.
  - rewrite bind_put.
    cbn [map snd] in Hn, Hiff. inversion Hn as [|? ? Hid Hmore]; subst.
    assert (Hin : In id (StdMap.keys (nodes (local_pose_graph s))))
      by (apply Hiff; now left).
    set (s1 := evict_one adj id s).
    assert (Hs1 : nodes (local_pose_graph s1) =
                  StdMap.erase N.ltb id (nodes (local_pose_graph s))) by reflexivity.
    destruct (IH s1) as (rest & Hfl & Hsz).
    + rewrite Hs1. now apply keys_erase_NoDup.
    + exact Hmore.
    + intros k. rewrite Hs1, keys_erase, <- Hiff. split.
      * intros H. split; [intros ->; contradiction | now right].
      * intros [Hne [->|H]]; [contradiction | exact H].
    + exists rest. split; [exact Hfl|]. rewrite Hsz, Hs1.
      pose proof (@erase_length _ id (nodes (local_pose_graph s)) Hk Hin) as Hl.
      apply N.ltb_lt in C. unfold StdMap.size in *.
      rewrite !N.min_r; [reflexivity | now apply N.lt_le_incl |].
      rewrite <- Hl, Nat2N.inj_succ in C. now apply N.lt_succ_r.
  - apply N.ltb_ge in C. eexists. split; [reflexivity|].
    unfold ret. cbn [state_of]. now rewrite N.min_l.
Qed.

Lemma search_tail E (rest : list (float * TNodeID)) s2 :
  let tail :=
    match nth_error (rev rest) (Nat.div (List.length (rev rest)) 2) with
    | None => ret tt
    | Some (_, kf_id) =>
        bind (edge_already_exists E kf_id)
             (fun exists_already =>
                if negb exists_already then send_for_check kf_id else ret tt)
    end in
  ((forall d kf_id, In (d, kf_id) rest ->
      (Z.abs (to_int64 kf_id - to_int64 (root (local_pose_graph s2))) < 2 ^ 63)%Z) ->
   flow_of (tail s2) = Normal tt) /\
  (nodes (local_pose_graph (state_of (tail s2))) = nodes (local_pose_graph s2) \/
   exists d kf_id,
     In (d, kf_id) rest /\
     nodes (local_pose_graph (state_of (tail s2))) =
     snd (StdMap.subscript N.ltb CPose3D_Identity kf_id
            (nodes (local_pose_graph s2)))).
Proof.
  cbv zeta. destruct (nth_error _ _) as [[d kf_id]|] eqn:Hn; [|cbn; auto].
  apply nth_error_In, in_rev in Hn.
  destruct (edge_already_exists_only_asks E kf_id s2) as [Hs _].
  destruct (Z.abs (to_int64 kf_id - to_int64 (root (local_pose_graph s2))) <? 2 ^ 63)%Z
    eqn:Hfit.
  - destruct (edge_already_exists_returns E kf_id s2 Hfit) as [b Fb].
    rewrite (bind_normal _ _ _ Fb), flow_of_prepend, state_of_prepend, Hs.
    destruct b; cbn [negb]; [cbn; auto|].
    rewrite send_for_check_run. cbv zeta.
    cbn [flow_of state_of local_pose_graph nodes set_checked set_local_pcs set_graph].
    split; [reflexivity|]. right. exists d, kf_id. auto.
  - rewrite bind_undefined by now rewrite edge_already_exists_overflow.
    rewrite edge_already_exists_overflow by exact Hfit.
    cbn [flow_of state_of]. split; [|now left].
    intros Hall. apply Z.ltb_ge in Hfit. specialize (Hall d kf_id Hn). lia.
Qed.

(** X13. Whenever [checkForNearbyKFs] returns normally after a Dijkstra
    pass that names each node once, the local graph holds at most
    [max_KFs_local_graph] nodes. *)
Theorem X13_graph_cap_on_return E s ns :
  dijkstra_nodes_estimate E (last_kf s) (edges (local_pose_graph s)) = Some ns ->
  NoDup (StdMap.keys ns) ->
  flow_of (checkForNearbyKFs params_ E s) = Normal tt ->
  (StdMap.size (nodes (local_pose_graph (state_of (checkForNearbyKFs params_ E s))))
   <= max_KFs_local_graph params_)%N.
Proof.
  intros Hd Hk. unfold checkForNearbyKFs.
  rewrite bind_get. cbv zeta. rewrite bind_put, Hd, bind_modify.
  set (es := edges (local_pose_graph s)).
  set (s1 := set_graph (mkGraph (last_kf s) ns es) _).
  set (loop := evict_loop params_ (getAdjacencyMatrix es) (rev (build_KF_distances ns))).
  destruct (build_KF_distances_ids ns Hk) as [Hn Hi].
  destruct (flow_of (loop s1)) as [rest| |] eqn:Fl.
  2: { rewrite (bind_thrown _ _ _ Fl). discriminate. }
  2: { rewrite (bind_undefined _ _ _ Fl). discriminate. }
  rewrite (bind_normal _ _ _ Fl), flow_of_prepend, state_of_prepend.
  pose proof (evict_loop_cap _ _ _ Fl) as Hcap. fold loop in Hcap.
  assert (Hrest : incl (map snd rest)
                    (StdMap.keys (nodes (local_pose_graph (state_of (loop s1)))))).
  { apply (@evict_loop_rest_are_nodes (getAdjacencyMatrix es)
             (rev (build_KF_distances ns)) s1 rest); [| |exact Fl].
    - rewrite map_rev. now apply NoDup_rev.
    - rewrite map_rev. intros k H. apply in_rev in H. now apply Hi. }
  destruct (search_tail E rest (state_of (loop s1))) as [_ [Hsame|(d & kf & Hin & Hsub)]];
    intros _.
  - rewrite Hsame. exact Hcap.
  - rewrite Hsub, subscript_present; [exact Hcap|].
    apply Hrest. apply in_map_iff. exists (d, kf). auto.
Qed.

(** X14. When the Dijkstra pass names each node once, no two nodes fall on
    the same entry of the map of distances, and the ids it names are less
    than 2^63 away from the root, as 64-bit signed numbers, then
    [checkForNearbyKFs] returns normally, never reading an emptied map nor
    overflowing the difference of two ids, and leaves exactly the smaller
    of the number of nodes reached and [max_KFs_local_graph]. *)
Theorem X14_eviction_without_ties E s ns :
  dijkstra_nodes_estimate E (last_kf s) (edges (local_pose_graph s)) = Some ns ->
  NoDup (StdMap.keys ns) ->
  List.length (build_KF_distances ns) = List.length ns ->
  (forall k, In k (StdMap.keys ns) ->
             (Z.abs (to_int64 k - to_int64 (last_kf s)) < 2 ^ 63)%Z) ->
  flow_of (checkForNearbyKFs params_ E s) = Normal tt /\
  StdMap.size (nodes (local_pose_graph (state_of (checkForNearbyKFs params_ E s)))) =
  N.min (StdMap.size ns) (max_KFs_local_graph params_).
Proof.
  intros Hd Hk Hlen Hfit. unfold checkForNearbyKFs.
  rewrite bind_get. cbv zeta. rewrite bind_put, Hd, bind_modify.
  set (es := edges (local_pose_graph s)).
  set (s1 := set_graph (mkGraph (last_kf s) ns es) _).
  set (loop := evict_loop params_ (getAdjacencyMatrix es) (rev (build_KF_distances ns))).
  destruct (build_KF_distances_ids ns Hk) as [Hn Hi].
  assert (Hall : incl (StdMap.keys ns) (map snd (build_KF_distances ns))).
  { apply NoDup_length_incl; [exact Hn | | exact Hi].
    unfold StdMap.keys. rewrite !length_map, Hlen. apply le_n. }
  assert (Hrn : NoDup (map snd (rev (build_KF_distances ns))))
    by (rewrite map_rev; now apply NoDup_rev).
  assert (Hri : incl (map snd (rev (build_KF_distances ns))) (StdMap.keys ns))
    by (rewrite map_rev; intros k H; apply in_rev in H; now apply Hi).
  destruct (@evict_loop_without_ties (getAdjacencyMatrix es)
              (rev (build_KF_distances ns)) s1) as (rest & Fl & Hsz).
  - exact Hk.
  - exact Hrn.
  - intros k. split; [apply Hri|]. intros H. rewrite map_rev. apply -> in_rev.
    now apply Hall.
  - fold loop in Fl, Hsz.
    rewrite (bind_normal _ _ _ Fl), flow_of_prepend, state_of_prepend.
    assert (Hrest : incl (map snd rest)
                      (StdMap.keys (nodes (local_pose_graph (state_of (loop s1)))))).
    { apply (@evict_loop_rest_are_nodes (getAdjacencyMatrix es)
               (rev (build_KF_distances ns)) s1 rest); [exact Hrn | exact Hri | exact Fl]. }
    destruct (evict_loop_keeps_coherence params_ (getAdjacencyMatrix es)
                (rev (build_KF_distances ns)) s1) as [_ Hroot].
    destruct (evict_loop_shrinks (getAdjacencyMatrix es)
                (rev (build_KF_distances ns)) s1) as (_ & _ & Hsub).
    fold loop in Hroot, Hsub.
    change (root (local_pose_graph s1)) with (last_kf s) in Hroot.
    change (nodes (local_pose_graph s1)) with ns in Hsub.
    destruct (search_tail E rest (state_of (loop s1)))
      as [Hflow [Hsame|(d & kf & Hin & Hsubs)]].
    + split.
      * apply Hflow. intros d kf Hin. rewrite Hroot. apply Hfit, Hsub, Hrest.
        apply in_map_iff. exists (d, kf). auto.
      * rewrite Hsame. exact Hsz.
    + split.
      * apply Hflow. intros d' kf' Hin'. rewrite Hroot. apply Hfit, Hsub, Hrest.
        apply in_map_iff. exists (d', kf'). auto.
      * rewrite Hsubs, subscript_present; [exact Hsz|].
        apply Hrest. apply in_map_iff. exists (d, kf). auto.
Qed.

(** ** What the search sends to the pool *)

Section Lookup.
Variable V : Type.
Implicit Types (m : list (TNodeID * V)) (k : TNodeID).

Lemma find_assign_same k (v : V) m :
  StdMap.find N.ltb k (StdMap.assign N.ltb k v m) = Some v.
Proof.
  induction m as [|[k1 v1] r IH]; cbn [StdMap.assign StdMap.find].
  - assert (E : StdMap.equiv N.ltb k k = true) by now apply equiv_id.
    now rewrite E.
  - destruct (k <? k1)%N eqn:E1; cbn [StdMap.find].
    + assert (E : StdMap.equiv N.ltb k k = true) by now apply equiv_id.
      now rewrite E.
    + destruct (k1 <? k)%N eqn:E2; cbn [StdMap.find].
      * assert (E : StdMap.equiv N.ltb k k1 = false)
          by (apply equiv_id_false; apply N.ltb_lt in E2; lia).
        now rewrite E.
      * assert (E : StdMap.equiv N.ltb k k1 = true)
          by (unfold StdMap.equiv; now rewrite E1, E2).
        now rewrite E.
Qed.

Lemma find_assign_other k k' (v : V) m :
  k <> k' ->
  StdMap.find N.ltb k (StdMap.assign N.ltb k' v m) = StdMap.find N.ltb k m.
Proof.
  intros Hne. induction m as [|[k1 v1] r IH]; cbn [StdMap.assign StdMap.find].
  - apply equiv_id_false in Hne. now rewrite Hne.
  - destruct (k' <? k1)%N eqn:E1; cbn [StdMap.find].
    + apply equiv_id_false in Hne. now rewrite Hne.
    + destruct (k1 <? k')%N eqn:E2; cbn [StdMap.find].
      * now rewrite IH.
      * apply N.ltb_ge in E1, E2. assert (k1 = k') by lia. subst k1.
        apply equiv_id_false in Hne. now rewrite Hne.
Qed.

Lemma find_subscript k (d : V) m :
  StdMap.find N.ltb k (snd (StdMap.subscript N.ltb d k m)) =
  Some (fst (StdMap.subscript N.ltb d k m)).
Proof.
  unfold StdMap.subscript. destruct (StdMap.find N.ltb k m) eqn:F; cbn [fst snd].
  - exact F.
  - apply find_assign_same.
Qed.

Lemma find_subscript_other k k' (d : V) m :
  k <> k' ->
  StdMap.find N.ltb k (snd (StdMap.subscript N.ltb d k' m)) = StdMap.find N.ltb k m.
Proof.
  intros Hne. unfold StdMap.subscript.
  destruct (StdMap.find N.ltb k' m); cbn [snd]; [reflexivity|].
  now apply find_assign_other.
Qed.
End Lookup.

#[local] Instance sends_no_probe_frame : Frame sends_no_probe.
Proof.
  split; unfold sends_no_probe, probes_sent.
  - reflexivity.
  - intros s1 e1 s2 e2 s3 H1 H2. now rewrite flat_map_app, H1, H2.
Qed.

Lemma evict_loop_sends_no_probe adj from_far s :
  respects_at sends_no_probe (evict_loop params_ adj from_far) s.
Proof.
  revert s. induction from_far as [|[d id] rest IH]; intros s; cbn [evict_loop];
    repeat frame_step; try reflexivity; apply IH.
Qed.

Lemma edge_already_exists_sends_no_probe E kf_id s :
  respects_at sends_no_probe (edge_already_exists E kf_id) s.
Proof. unfold edge_already_exists. repeat frame_step; reflexivity. Qed.

Lemma edge_already_exists_false_means E kf_id s :
  flow_of (edge_already_exists E kf_id s) = Normal false ->
  (Z.abs (to_int64 kf_id - to_int64 (root (local_pose_graph s))) <? 2)%Z = false /\
  pairs_count (pair_ids kf_id (root (local_pose_graph s))) (checked_KF_pairs s) = 0%nat.
Proof.
  intros H. split; [|exact (edge_already_exists_false _ _ _ H)].
  pose proof (edge_already_exists_false _ _ _ H) as Hc. revert H.
  unfold edge_already_exists. rewrite bind_get. cbv zeta. rewrite Hc.
  cbn [Nat.eqb negb].
  destruct (negb (Z.abs _ <? 2 ^ 63)%Z); [discriminate|].
  destruct (Z.abs _ <? 2)%Z; [|reflexivity].
  destruct (worldmodel_ E); cbn; discriminate.
Qed.

(** X15. A call of [checkForNearbyKFs] sends at most one probe task.  The
    task goes from the last keyframe, the root, to a keyframe whose id
    differs from the root's by two or more and whose pair with the root had
    not been sent before; it carries the clouds that [local_pcs] holds
    under the two ids on return. *)
Theorem X15_what_the_search_sends E s d :
  In d (probes_sent (events_of (checkForNearbyKFs params_ E s))) ->
  probes_sent (events_of (checkForNearbyKFs params_ E s)) = [d] /\
  from_id d = last_kf s /\
  (2 <= Z.abs (to_int64 (to_id d) - to_int64 (last_kf s)))%Z /\
  ~ In (pair_ids (to_id d) (last_kf s)) (checked_KF_pairs s) /\
  StdMap.find N.ltb (from_id d)
    (local_pcs (state_of (checkForNearbyKFs params_ E s))) = Some (from_pc d) /\
  StdMap.find N.ltb (to_id d)
    (local_pcs (state_of (checkForNearbyKFs params_ E s))) = Some (to_pc d).
Proof.
  unfold checkForNearbyKFs.
  rewrite bind_get. cbv zeta. rewrite bind_put.
  destruct (dijkstra_nodes_estimate E _ _) as [ns|]; [|intros []].
  rewrite bind_modify.
  set (es := edges (local_pose_graph s)).
  set (s1 := set_graph (mkGraph (last_kf s) ns es) _).
  set (loop := evict_loop params_ (getAdjacencyMatrix es) (rev (build_KF_distances ns))).
  pose proof (evict_loop_sends_no_probe (getAdjacencyMatrix es)
                (rev (build_KF_distances ns)) s1) as Hquiet.
  destruct (evict_loop_keeps_coherence params_ (getAdjacencyMatrix es)
              (rev (build_KF_distances ns)) s1) as [_ Hroot].
  destruct (evict_loop_dedup params_ (getAdjacencyMatrix es)
              (rev (build_KF_distances ns)) s1) as (_ & Hchk & _).
  fold loop in Hquiet, Hroot, Hchk. unfold sends_no_probe in Hquiet.
  change (root (local_pose_graph s1)) with (last_kf s) in Hroot.
  change (checked_KF_pairs s1) with (checked_KF_pairs s) in Hchk.
  destruct (flow_of (loop s1)) as [rest| |] eqn:Fl.
  2: { rewrite (bind_thrown _ _ _ Fl). cbn [events_of]. rewrite Hquiet. intros []. }
  2: { rewrite (bind_undefined _ _ _ Fl). cbn [events_of]. rewrite Hquiet. intros []. }
  rewrite (bind_normal _ _ _ Fl), events_of_prepend, state_of_prepend.
  unfold probes_sent at 1 2. rewrite !flat_map_app. fold (probes_sent (events_of (loop s1))).
  rewrite Hquiet. cbn [app].
  set (s2 := state_of (loop s1)) in *.
  destruct (nth_error (rev rest) _) as [[dist kf_id]|]; [|intros []].
  destruct (edge_already_exists_only_asks E kf_id s2) as [Hs _].
  pose proof (edge_already_exists_sends_no_probe E kf_id s2) as Hq2.
  unfold sends_no_probe in Hq2.
  destruct (edge_already_exists_flow E kf_id s2) as [[b Fb]|Fb].
  2: { rewrite (bind_undefined _ _ _ Fb). cbn [events_of]. rewrite Hq2. intros []. }
  rewrite (bind_normal _ _ _ Fb), events_of_prepend, state_of_prepend, Hs.
  rewrite flat_map_app. fold (probes_sent (events_of (edge_already_exists E kf_id s2))).
  rewrite Hq2. cbn [app].
  destruct b; cbn [negb]; [intros []|].
  destruct (edge_already_exists_false_means _ _ _ Fb) as [Hadj Hcount].
  rewrite Hroot in Hadj, Hcount.
  rewrite send_for_check_run. cbv zeta. rewrite Hroot.
  cbn [events_of state_of flat_map app local_pcs set_checked set_local_pcs].
  intros [<-|[]]. cbn [from_id to_id from_pc to_pc]. splits.
  - reflexivity.
  - reflexivity.
  - apply Z.ltb_ge in Hadj. exact Hadj.
  - apply pairs_count_zero in Hcount. intros H. apply Hcount. apply Hchk. now left.
  - apply find_subscript.
  - destruct (N.eq_dec kf_id (last_kf s)) as [->|Hne].
    + rewrite find_subscript. f_equal.
      unfold StdMap.subscript at 1. now rewrite find_subscript.
    + rewrite find_subscript_other by exact Hne. apply find_subscript.
Qed.

(** ** The registration adapter *)

(** X16. With [decimate_to_point_count] set, the decimation handed to the
    ICP kernel is the number of points of the cloud to align divided by
    that count, rounded down: a cloud with fewer points than the count is
    registered with a decimation of 0.  The pose and the goodness are the
    kernel's, as they come. *)
Theorem X16_small_cloud_gets_decimation_zero E i :
  (0 < decimate_to_point_count params_)%N ->
  (points_size (in_to_pc i) < decimate_to_point_count params_)%N ->
  run_one_icp params_ E i =
  mkICPOut
    (fst (Align3DPDF E (with_decimation 0 (mrpt_icp params_)) (in_from_pc i)
            (in_to_pc i) (CPose3D_from (init_guess_to_wrt_from i))))
    (snd (Align3DPDF E (with_decimation 0 (mrpt_icp params_)) (in_from_pc i)
            (in_to_pc i) (CPose3D_from (init_guess_to_wrt_from i)))).
Proof.
  intros Hpos Hsmall. unfold run_one_icp. cbv zeta.
  apply N.ltb_lt in Hpos. rewrite Hpos.
  rewrite (N.div_small _ _ Hsmall). reflexivity.
Qed.

End Further.

(** ** The queue of the odometry pool *)

Section FurtherIngress.
Context {L : Mrpt}.
Variable raw_sensor_label_ : string.

Lemma onNewObservation_keeps_queue_short now o m :
  (pendingTasks m <= 2)%N /\
  Forall (fun o' => sensorLabel o' = raw_sensor_label_) (worker_pool_ m) /\
  state_ m = MethodState_default ->
  (pendingTasks (onNewObservation raw_sensor_label_ now o m) <= 2)%N /\
  Forall (fun o' => sensorLabel o' = raw_sensor_label_)
         (worker_pool_ (onNewObservation raw_sensor_label_ now o m)) /\
  state_ (onNewObservation raw_sensor_label_ now o m) = MethodState_default.
Proof.
  intros (Hq & Hl & Hs). unfold onNewObservation.
  destruct (String.eqb (sensorLabel o) raw_sensor_label_) eqn:El; cbn [negb];
    [|auto].
  apply String.eqb_eq in El.
  destruct (1 <? pendingTasks m)%N eqn:Eq.
  - unfold MRPT_LOG_THROTTLE_WARN. destruct (match last_throttled_warn m with
                                              | Some _ => _ | None => _ end);
      cbn [worker_pool_ state_]; auto.
  - apply N.ltb_ge in Eq. unfold pendingTasks in *.
    cbn [worker_pool_ state_]. splits.
    + rewrite length_app. cbn [List.length]. lia.
    + apply Forall_app. split; [exact Hl|]. constructor; [exact El | constructor].
    + exact Hs.
Qed.

(** X17. However many observations the driver sends to a module that has
    just been constructed, and from whatever sensors, the odometry pool
    never counts more than two pending tasks while none is started, every
    one of them carries the configured sensor label, and [state_] is not
    touched. *)
Theorem X17_pool_never_holds_more_than_two calls :
  (pendingTasks (ingress raw_sensor_label_ calls) <= 2)%N /\
  Forall (fun o => sensorLabel o = raw_sensor_label_)
         (worker_pool_ (ingress raw_sensor_label_ calls)) /\
  state_ (ingress raw_sensor_label_ calls) = MethodState_default.
Proof.
  unfold ingress.
  assert (H0 : (pendingTasks LidarICP_fresh <= 2)%N /\
               Forall (fun o => sensorLabel o = raw_sensor_label_)
                      (worker_pool_ LidarICP_fresh) /\
               state_ LidarICP_fresh = MethodState_default).
  { splits; [cbn; lia | constructor | reflexivity]. }
  revert H0. generalize LidarICP_fresh.
  induction calls as [|[now o] rest IH]; intros m Hm; cbn [fold_left].
  - exact Hm.
  - apply IH. cbn [fst snd]. now apply onNewObservation_keeps_queue_short.
Qed.

End FurtherIngress.

(** ** The further properties on the scenarios *)

(** X2, on a run: keyframe 1 is made, and [last_kf] stays valid when the
    next promotion fails half way. *)
Lemma X2_last_kf_is_never_unset_witness :
  last_kf Scenario.s_one_kf <> INVALID_ID /\
  last_kf (state_of (run_tasks Scenario.P Scenario.run_reject
                       Scenario.s_one_kf)) <> INVALID_ID.
Proof.
  assert (H : last_kf Scenario.s_one_kf <> INVALID_ID) by (vm_compute; discriminate).
  split; [exact H|].
  exact (proj2 (@X2_last_kf_is_never_unset Sim.mrpt Scenario.P
                  Scenario.run_reject Scenario.s_one_kf) H).
Defined.

(** X3, on a run that the outside lets through: the scan that makes
    keyframe 6 on the row of five, then the probe that the search sent. *)
Lemma X3_no_exception_leaves_a_task_witness :
  flow_of (run_tasks Scenario.P Scenario.run_granted Scenario.s_row) = Normal tt /\
  ~ exception_logged
      (events_of (run_tasks Scenario.P Scenario.run_granted Scenario.s_row)).
Proof.
  split; [vm_compute; reflexivity|].
  apply (proj2 (proj2 (@X3_no_exception_leaves_a_task Sim.mrpt Scenario.P
                         Scenario.run_granted Scenario.s_row))).
  assert (HE : outside_grants Scenario.E_sixth).
  { unfold outside_grants. splits.
    - intros kf. exists 6%N. unfold backend_mints.
      splits; first [reflexivity | discriminate].
    - intros f. split; [reflexivity|]. exists 7%N.
      split; [reflexivity | discriminate].
    - intros root es. discriminate. }
  unfold Scenario.run_granted.
  constructor; [split; [exact HE | exact I]|].
  constructor; [split; [exact HE | split; discriminate]|].
  constructor.
Defined.

(** X5, on a probe without its second cloud. *)
Lemma X5_probe_without_cloud_does_nothing_witness :
  state_of (doCheckForNonAdjacentKFs Scenario.P Scenario.E_probe_accept
              Scenario.d_no_cloud Scenario.s_one_kf) = Scenario.s_one_kf /\
  events_of (doCheckForNonAdjacentKFs Scenario.P Scenario.E_probe_accept
               Scenario.d_no_cloud Scenario.s_one_kf) =
    [EvLog LVL_ERROR "Exception"].
Proof.
  destruct (@X5_probe_without_cloud_does_nothing Sim.mrpt Scenario.P
              Scenario.E_probe_accept Scenario.d_no_cloud Scenario.s_one_kf)
    as (_ & H2 & H3).
  - right. reflexivity.
  - split; assumption.
Defined.

(** X6, on a scan 100 microseconds after the first, with 0.1 s wanted. *)
Lemma X6_scan_too_close_in_time_is_dropped_witness :
  doProcessNewObservation Scenario.P_gap Scenario.E_first (Sim.scan 2000)
    Scenario.s_boot = mkResult (Normal tt) Scenario.s_boot [].
Proof.
  apply (@X6_scan_too_close_in_time_is_dropped Sim.mrpt Scenario.P_gap
           Scenario.E_first (Sim.scan 2000) Scenario.s_boot).
  vm_compute. reflexivity.
Defined.

(** X7, on the very first scan. *)
Lemma X7_first_scan_is_only_stored_witness :
  doProcessNewObservation Scenario.P Scenario.E_first (Sim.scan 1000)
    MethodState_default =
  mkResult (Normal tt)
    (@set_obs Sim.mrpt (Some (Sim.scan 1000)) 1000 (Some Scenario.cloud)
              MethodState_default)
    [EvLog LVL_DEBUG "First pointcloud: skipping ICP."].
Proof.
  apply (@X7_first_scan_is_only_stored Sim.mrpt Scenario.P Scenario.E_first
           (Sim.scan 1000) MethodState_default).
  - vm_compute. reflexivity.
  - reflexivity.
Defined.

(** X8, on a second scan only 0.5 m away. *)
Lemma X8_scan_without_promotion_witness :
  accum_since_last_kf
    (state_of (doProcessNewObservation Scenario.P Scenario.E_short
                 (Sim.scan 2000) Scenario.s_boot)) = Sim.mkPose 0.5 0 0 /\
  last_kf (state_of (doProcessNewObservation Scenario.P Scenario.E_short
                       (Sim.scan 2000) Scenario.s_boot)) = INVALID_ID /\
  backend_calls (events_of (doProcessNewObservation Scenario.P Scenario.E_short
                              (Sim.scan 2000) Scenario.s_boot)) = [].
Proof.
  destruct (@X8_scan_without_promotion Sim.mrpt Scenario.P Scenario.E_short
              (Sim.scan 2000) Scenario.s_boot Scenario.cloud Scenario.cloud)
    as (H1 & _ & H3 & H4).
  - vm_compute. reflexivity.
  - vm_compute. reflexivity.
  - vm_compute. reflexivity.
  - vm_compute. reflexivity.
  - splits.
    + rewrite H1. vm_compute. reflexivity.
    + rewrite H3. vm_compute. reflexivity.
    + exact H4.
Defined.

(** X9, on a second scan whose keyframe the back-end refuses. *)
Lemma X9_keyframe_turned_down_witness :
  events_of (doProcessNewObservation Scenario.P Scenario.E_no_kf
               (Sim.scan 2000) Scenario.s_boot) =
    [EvAddKeyFrame (@mkKFIn Sim.mrpt 2000 [Sim.scan 2000]);
     EvLog LVL_ERROR "Exception"] /\
  local_pcs (state_of (doProcessNewObservation Scenario.P Scenario.E_no_kf
                         (Sim.scan 2000) Scenario.s_boot)) = [] /\
  accum_since_last_kf
    (state_of (doProcessNewObservation Scenario.P Scenario.E_no_kf
                 (Sim.scan 2000) Scenario.s_boot)) = Sim.mkPose 1.2 0 0.
Proof.
  rewrite (@X9_keyframe_turned_down Sim.mrpt Scenario.P Scenario.E_no_kf
             (Sim.scan 2000) Scenario.s_boot Scenario.cloud Scenario.cloud).
  - splits; vm_compute; reflexivity.
  - vm_compute. reflexivity.
  - vm_compute. reflexivity.
  - vm_compute. reflexivity.
  - vm_compute. reflexivity.
  - left. vm_compute. reflexivity.
Defined.

(** X10, on the promotion of keyframe 2 after keyframe 1. *)
Lemma X10_promotion_with_previous_keyframe_witness :
  events_of (create_KF Scenario.E_second (Sim.scan 3000) 3000 Scenario.cloud
               Scenario.s_moved) =
    [EvAddKeyFrame (@mkKFIn Sim.mrpt 3000 [Sim.scan 3000]);
     EvAddFactor (mkFactor 1 2 (mkTPose3D 1.2 0 0 0 0 0));
     EvLog LVL_INFO "New KF"] /\
  edges (local_pose_graph
           (state_of (create_KF Scenario.E_second (Sim.scan 3000) 3000
                        Scenario.cloud Scenario.s_moved))) =
    [((2, 1)%N, Sim.mkPose 1.2 0 0)].
Proof.
  rewrite (@X10_promotion_with_previous_keyframe Sim.mrpt Scenario.E_second
             (Sim.scan 3000) 3000 Scenario.cloud Scenario.s_moved 2%N).
  - split; vm_compute; reflexivity.
  - vm_compute. splits; first [reflexivity | discriminate].
  - vm_compute. discriminate.
  - split; [reflexivity|]. exists 7%N. split; [reflexivity | discriminate].
Defined.

(** X11, on the promotion of the first keyframe. *)
Lemma X11_first_keyframe_has_no_factor_witness :
  events_of (create_KF Scenario.E_first (Sim.scan 2000) 2000 Scenario.cloud
               Scenario.s_boot) =
    [EvAddKeyFrame (@mkKFIn Sim.mrpt 2000 [Sim.scan 2000]);
     EvLog LVL_INFO "New KF"] /\
  edges (local_pose_graph
           (state_of (create_KF Scenario.E_first (Sim.scan 2000) 2000
                        Scenario.cloud Scenario.s_boot))) = [].
Proof.
  rewrite (@X11_first_keyframe_has_no_factor Sim.mrpt Scenario.E_first
             (Sim.scan 2000) 2000 Scenario.cloud Scenario.s_boot 1%N).
  - split; vm_compute; reflexivity.
  - vm_compute. splits; first [reflexivity | discriminate].
  - vm_compute. reflexivity.
Defined.

(** X12, on the four keyframes with room for three: keyframe 3 goes, with
    its cloud and its edge. *)
Lemma X12_evicted_nodes_lose_cloud_and_edges_witness :
  ~ In 3%N (StdMap.keys (local_pcs (state_of Scenario.r_tie_loop))) /\
  (forall e, In e (edges (local_pose_graph (state_of Scenario.r_tie_loop))) ->
             ~ touches 3%N e).
Proof.
  destruct (@X12_evicted_nodes_lose_cloud_and_edges Sim.mrpt (Sim.params 1 0.5 3)
              (rev (@build_KF_distances Sim.mrpt Scenario.reach_tie))
              Scenario.s_tie_reached 3%N) as (H1 & H2 & _).
  - vm_compute. tauto.
  - vm_compute. intuition discriminate.
  - split; [exact H1 | exact H2].
Defined.

(** X13, on the row of five keyframes. *)
Lemma X13_graph_cap_on_return_witness :
  flow_of Scenario.r_row = Normal tt /\
  (StdMap.size (nodes (local_pose_graph (state_of Scenario.r_row))) <= 5)%N.
Proof.
  assert (H : flow_of Scenario.r_row = Normal tt) by (vm_compute; reflexivity).
  split; [exact H|].
  apply (@X13_graph_cap_on_return Sim.mrpt Scenario.P Scenario.E_row
           Scenario.s_row Scenario.reach_row).
  - reflexivity.
  - vm_compute. repeat constructor; cbn; intuition discriminate.
  - exact H.
Defined.

(** The bound on the ids is needed: with two keyframes, at different
    distances, whose ids are more than 2^63 apart, nothing is evicted and
    the search still ends in undefined behaviour, at the difference of
    the candidate's id and the root's. *)
Lemma distant_ids_overflow :
  NoDup (StdMap.keys Scenario.reach_far) /\
  List.length (@build_KF_distances Sim.mrpt Scenario.reach_far) =
    List.length Scenario.reach_far /\
  to_int64 Scenario.far_id = (- 2 ^ 63)%Z /\
  flow_of (checkForNearbyKFs Scenario.P Scenario.E_far Scenario.s_far) = Undefined.
Proof.
  splits; try (vm_compute; reflexivity).
  vm_compute. repeat constructor; cbn; intuition discriminate.
Qed.

(** X14, on the row of five keyframes, all at different distances, with
    room for three: keyframes 1 and 2 go. *)
Lemma X14_eviction_without_ties_witness :
  flow_of (checkForNearbyKFs (Sim.params 1 0.5 3) Scenario.E_row Scenario.s_row) =
    Normal tt /\
  StdMap.size (nodes (local_pose_graph
    (state_of (checkForNearbyKFs (Sim.params 1 0.5 3) Scenario.E_row
                 Scenario.s_row)))) = 3%N.
Proof.
  apply (@X14_eviction_without_ties Sim.mrpt (Sim.params 1 0.5 3) Scenario.E_row
           Scenario.s_row Scenario.reach_row).
  - reflexivity.
  - vm_compute. repeat constructor; cbn; intuition discriminate.
  - vm_compute. reflexivity.
  - intros k Hk. vm_compute in Hk.
    repeat (destruct Hk as [<-|Hk]; [vm_compute; reflexivity|]). destruct Hk.
Defined.

(** X15, on the row of five keyframes: the probe goes from 5 to 3. *)
Lemma X15_what_the_search_sends_witness :
  probes_sent (events_of Scenario.r_row) = [Scenario.d_row] /\
  from_id Scenario.d_row = 5%N /\
  (2 <= Z.abs (to_int64 (to_id Scenario.d_row) - to_int64 5))%Z.
Proof.
  destruct (@X15_what_the_search_sends Sim.mrpt Scenario.P Scenario.E_row
              Scenario.s_row Scenario.d_row) as (H1 & H2 & H3 & _).
  - vm_compute. left. reflexivity.
  - splits; [exact H1 | exact H2 | exact H3].
Defined.

(** X16, on a cloud of two points to be thinned down to a hundred. *)
Lemma X16_small_cloud_gets_decimation_zero_witness :
  run_one_icp Scenario.P_decimate Scenario.E_first
    (@mkICPIn Sim.mrpt Scenario.cloud Scenario.cloud (mkTPose3D 0 0 0 0 0 0)) =
  @mkICPOut Sim.mrpt (Sim.mkPose 1.2 0 0) 0.9.
Proof.
  rewrite (@X16_small_cloud_gets_decimation_zero Sim.mrpt Scenario.P_decimate
             Scenario.E_first
             (@mkICPIn Sim.mrpt Scenario.cloud Scenario.cloud
                       (mkTPose3D 0 0 0 0 0 0))).
  - reflexivity.
  - vm_compute. reflexivity.
  - vm_compute. reflexivity.
Defined.
